(** * scripts/update_projects.py: the filter / classify / rank / merge pipeline

    A shallow embedding of the pure core of [scripts/update_projects.py]
    together with the one stateful function, [update_readme], which reads
    and rewrites the README.

    Python values are modelled as follows.
    - [str] is a sequence of Unicode code points: [list N].  [len] counts
      code points, and the full-width solidus U+FF0F is one character.
    - [int] is [Z]; indices and slice bounds follow Python (negative
      bounds count from the end, bounds are clipped).
    - a table row ([list[str]]) is a [list pystr]; [row[3]] raises
      [IndexError] on a short row.
    - exceptions are the [Raise] case of [result].
    - the file system is a finite map from paths to contents, the text of
      a file as it is stored; the per-run owner cache ([user_cache]) is a
      finite map as well.
    - a [datetime] is naive or aware, with its time in microseconds; the
      cut-off date is computed within the range of [datetime] and raises
      [OverflowError] outside, and the comparison of a naive time with the
      aware cut-off raises [TypeError].
    - [str.lower], [datetime.fromisoformat], the HTTP requests, the
      loading of the configuration and [print] are parameters of the
      development. *)

From Stdlib Require Import ZArith NArith List Bool Lia Permutation Sorted.
From Stdlib Require Import Ascii String.
From stdpp Require Import base gmap.
Import ListNotations.
Open Scope Z_scope.

(** ** Python strings *)

Definition pystr : Type := list N.

(** An ASCII literal as a Python string. *)
Definition str (s : string) : pystr :=
  List.map N_of_ascii (list_ascii_of_string s).

Definition len {A : Type} (l : list A) : Z := Z.of_nat (length l).

Definition char_eqb (a b : N) : bool := N.eqb a b.

Fixpoint str_eqb (a b : pystr) : bool :=
  match a, b with
  | [], [] => true
  | x :: a', y :: b' => char_eqb x y && str_eqb a' b'
  | _, _ => false
  end.

(** [s.startswith(prefix)] *)
Fixpoint startswith (s prefix : pystr) {struct prefix} : bool :=
  match prefix, s with
  | [], _ => true
  | p :: prefix', c :: s' => char_eqb p c && startswith s' prefix'
  | _ :: _, [] => false
  end.

(** [s.find(sub)]: the least index at which [sub] occurs, or -1. *)
Fixpoint find_from (i : Z) (s sub : pystr) : Z :=
  if startswith s sub then i
  else match s with
       | [] => -1
       | _ :: s' => find_from (i + 1) s' sub
       end.

Definition find (s sub : pystr) : Z := find_from 0 s sub.

(** [sub in s] *)
Fixpoint contains (s sub : pystr) : bool :=
  startswith s sub ||
  match s with
  | [] => false
  | _ :: s' => contains s' sub
  end.

(** Slicing.  A bound [i] of a sequence of length [n] denotes
    [i + n] when negative, and is then clipped to [0..n]. *)
Definition clip_index (n : nat) (i : Z) : nat :=
  Z.to_nat (Z.min (Z.of_nat n) (Z.max 0 (if i <? 0 then i + Z.of_nat n else i))).

(** [l[lo:hi]] *)
Definition slice {A : Type} (l : list A) (lo hi : Z) : list A :=
  let a := clip_index (length l) lo in
  let b := clip_index (length l) hi in
  firstn (b - a) (skipn a l).

(** [l[:hi]] *)
Definition slice_to {A : Type} (l : list A) (hi : Z) : list A :=
  firstn (clip_index (length l) hi) l.

(** [l[lo:]] *)
Definition slice_from {A : Type} (l : list A) (lo : Z) : list A :=
  skipn (clip_index (length l) lo) l.

(** [s.replace(a, b)] for one-character [a] and [b]. *)
Definition replace_char (a b : N) (s : pystr) : pystr :=
  List.map (fun c => if char_eqb c a then b else c) s.

(** [str.isspace] on one code point (the Unicode white space of CPython). *)
Definition is_space (c : N) : bool :=
  let c := Z.of_N c in
  ((9 <=? c) && (c <=? 13)) || ((28 <=? c) && (c <=? 32)) ||
  (c =? 133) || (c =? 160) || (c =? 5760) ||
  ((8192 <=? c) && (c <=? 8202)) || (c =? 8232) || (c =? 8233) ||
  (c =? 8239) || (c =? 8287) || (c =? 12288).

(** The line boundaries of [str.splitlines]. *)
Definition is_linebreak (c : N) : bool :=
  let c := Z.of_N c in
  ((10 <=? c) && (c <=? 13)) || ((28 <=? c) && (c <=? 30)) ||
  (c =? 133) || (c =? 8232) || (c =? 8233).

Fixpoint drop_while (p : N -> bool) (s : pystr) : pystr :=
  match s with
  | [] => []
  | c :: s' => if p c then drop_while p s' else s
  end.

Definition lstrip_with (p : N -> bool) (s : pystr) : pystr := drop_while p s.
Definition rstrip_with (p : N -> bool) (s : pystr) : pystr :=
  rev (drop_while p (rev s)).
Definition strip_with (p : N -> bool) (s : pystr) : pystr :=
  rstrip_with p (lstrip_with p s).

(** [s.strip()], [s.rstrip()] and [s.strip(chars)] *)
Definition strip (s : pystr) : pystr := strip_with is_space s.
Definition rstrip (s : pystr) : pystr := rstrip_with is_space s.
Definition strip_chars (chars s : pystr) : pystr :=
  strip_with (fun c => existsb (char_eqb c) chars) s.

(** [s.split(sep)] for a one-character separator: never empty. *)
Fixpoint split_char (sep : N) (s : pystr) : list pystr :=
  match s with
  | [] => [[]]
  | c :: s' =>
      if char_eqb c sep then [] :: split_char sep s'
      else match split_char sep s' with
           | [] => [[c]]
           | piece :: pieces => (c :: piece) :: pieces
           end
  end.

(** [s.splitlines()]: [cur] holds the current line, reversed.  A carriage
    return followed by a line feed is one boundary, and a boundary at the
    very end opens no further line. *)
Fixpoint splitlines_from (cur s : pystr) : list pystr :=
  match s with
  | [] => match cur with [] => [] | _ => [rev cur] end
  | c :: s' =>
      if is_linebreak c then
        rev cur ::
        match s' with
        | c' :: s'' =>
            if char_eqb c 13 && char_eqb c' 10 then splitlines_from [] s''
            else splitlines_from [] s'
        | [] => splitlines_from [] s'
        end
      else splitlines_from (c :: cur) s'
  end.

Definition splitlines (s : pystr) : list pystr := splitlines_from [] s.

(** [sep.join(parts)] *)
Fixpoint join (sep : pystr) (parts : list pystr) : pystr :=
  match parts with
  | [] => []
  | [p] => p
  | p :: rest => p ++ sep ++ join sep rest
  end.

(** Truthiness of a string or list. *)
Definition truthy {A : Type} (l : list A) : bool :=
  match l with [] => false | _ => true end.

(** ASCII lower-casing: the restriction of [str.lower] to ASCII text,
    used to run the model on concrete inputs. *)
Definition ascii_lower (s : pystr) : pystr :=
  List.map (fun c => if (65 <=? c)%N && (c <=? 90)%N then (c + 32)%N else c) s.

(** ** Exceptions *)

Inductive pyerror : Type :=
| RuntimeError (msg : pystr)
| IndexError
| ValueError
| FileNotFoundError
| OverflowError
| TypeError.

Inductive result (A : Type) : Type :=
| Ok (a : A)
| Raise (e : pyerror).
Arguments Ok {A} a.
Arguments Raise {A} e.

Definition rbind {A B : Type} (m : result A) (k : A -> result B) : result B :=
  match m with
  | Ok a => k a
  | Raise e => Raise e
  end.

Notation "'let*' x := m 'in' k" := (rbind m (fun x => k))
  (at level 10, x name, m at level 100, k at level 200).
Notation "'let*' ' p := m 'in' k" := (rbind m (fun x => match x with p => k end))
  (at level 10, p pattern, m at level 100, k at level 200).

(** [l[i]] for a non-negative literal index. *)
Definition getitem {A : Type} (l : list A) (i : nat) : result A :=
  match nth_error l i with
  | Some x => Ok x
  | None => Raise IndexError
  end.

(** ** Module constants *)

Definition AUTO_START : pystr := str "<!-- AUTO-GENERATED START -->".
Definition AUTO_END : pystr := str "<!-- AUTO-GENERATED END -->".

Definition PIPE : N := 124.
Definition NEWLINE : N := 10.
Definition CARRIAGE_RETURN : N := 13.
Definition SPACE : N := 32.
(** U+FF0F, the full-width solidus *)
Definition FULLWIDTH_SOLIDUS : N := 65295.

(** "| 类别 | 开发者 | 项目名称 | 链接 | 简介 |" *)
Definition TABLE_HEADER : pystr :=
  [124; 32; 31867; 21035; 32; 124; 32; 24320; 21457; 32773; 32; 124; 32;
   39033; 30446; 21517; 31216; 32; 124; 32; 38142; 25509; 32; 124; 32;
   31616; 20171; 32; 124]%N.
Definition TABLE_DIVIDER : pystr := str "|---|---|---|---|---|".

(** "类别" and "开发者" *)
Definition HEADER_CATEGORY : pystr := [31867; 21035]%N.
Definition HEADER_DEVELOPER : pystr := [24320; 21457; 32773]%N.

(** "暂无简介" *)
Definition NO_DESCRIPTION : pystr := [26242; 26080; 31616; 20171]%N.

(** "README 未找到自动更新标记区块" *)
Definition MSG_NO_MARKERS : pystr :=
  str "README " ++
  [26410; 25214; 21040; 33258; 21160; 26356; 26032; 26631; 35760; 21306; 22359]%N.

(** ** Rows and the functions on cells *)

Definition row : Type := list pystr.

(** [parse_markdown_rows]: one line of the block. *)
Definition parse_markdown_line (line : pystr) : option row :=
  let line := strip line in
  if negb (startswith line (str "|")) then None
  else if startswith line (str "|---") then None
  else
    let cols := List.map strip (split_char PIPE (strip_chars (str "|") line)) in
    if len cols <? 5 then None
    else if str_eqb (nth 0 cols []) HEADER_CATEGORY &&
            str_eqb (nth 1 cols []) HEADER_DEVELOPER then None
    else Some (slice_to cols 5).

Fixpoint parse_markdown_lines (lines : list pystr) : list row :=
  match lines with
  | [] => []
  | line :: rest =>
      match parse_markdown_line line with
      | Some r => r :: parse_markdown_lines rest
      | None => parse_markdown_lines rest
      end
  end.

Definition parse_markdown_rows (block : pystr) : list row :=
  parse_markdown_lines (splitlines block).

(** [re.search(r"\((https?://[^)]+)\)", cell)] tried at the head of [s]:
    an opening parenthesis, the scheme, a longest run of characters other
    than the closing parenthesis, which must be non-empty and followed by
    a closing parenthesis.  The result is group 1. *)
Fixpoint take_until_close (s : pystr) : option pystr :=
  match s with
  | [] => None
  | c :: s' =>
      if char_eqb c 41 then Some []
      else match take_until_close s' with
           | Some run => Some (c :: run)
           | None => None
           end
  end.

Definition match_url_here (s : pystr) : option pystr :=
  let scheme :=
    if startswith s (str "(https://") then Some (str "https://")
    else if startswith s (str "(http://") then Some (str "http://")
    else None in
  match scheme with
  | None => None
  | Some sch =>
      match take_until_close (skipn (S (length sch)) s) with
      | Some (c :: run) => Some (sch ++ c :: run)
      | _ => None
      end
  end.

(** The leftmost match. *)
Fixpoint search_url (s : pystr) : option pystr :=
  match match_url_here s with
  | Some u => Some u
  | None => match s with
            | [] => None
            | _ :: s' => search_url s'
            end
  end.

Definition extract_url (cell : pystr) : pystr :=
  match search_url cell with
  | Some u => u
  | None =>
      if startswith cell (str "http://") || startswith cell (str "https://")
      then cell
      else []
  end.

Definition sanitize_cell (text : pystr) : pystr :=
  strip (replace_char NEWLINE SPACE (replace_char PIPE FULLWIDTH_SOLIDUS text)).

Definition truncate_text (text : pystr) (max_len : Z) : pystr :=
  if max_len <=? 0 then text
  else if len text <=? max_len then text
  else rstrip (slice_to text (max_len - 3)) ++ str "...".


(** ** Filtering and classification *)

Section Pipeline.

(** [str.lower], over all of Unicode. *)
Variable lower : pystr -> pystr.

Definition is_excluded_text (text : pystr) (exclude_keywords : list pystr) : bool :=
  let text_lower := lower text in
  existsb (fun kw => contains text_lower (lower kw)) exclude_keywords.

(** A repository record of the search API, with the fields the script reads.
    [None] stands for a missing or null field. *)
Record repo : Type := {
  repo_name : pystr;
  repo_description : option pystr;
  repo_topics : list pystr;
  repo_fork : bool;
  repo_archived : bool;
  repo_disabled : bool;
  repo_owner_type : option pystr;
  repo_owner_login : pystr;
  repo_stars : Z;
  repo_pushed_at : option pystr;
  repo_homepage : option pystr;
  repo_html_url : pystr
}.

(** One entry of [config["categories"]]. *)
Record category : Type := {
  category_name : option pystr;
  category_keywords : list pystr
}.

(** [x or d] for an optional string. *)
Definition or_else (x : option pystr) (d : pystr) : pystr :=
  match x with
  | Some (c :: s) => c :: s
  | _ => d
  end.

Definition haystack_of (r : repo) : pystr :=
  lower (join (str " ")
           [repo_name r; or_else (repo_description r) []; join (str " ") (repo_topics r)]).

Definition category_matches (haystack : pystr) (c : category) : bool :=
  existsb (fun kw => contains haystack (lower kw)) (category_keywords c).

Fixpoint classify_in (haystack : pystr) (categories : list category) (default : pystr)
  : pystr :=
  match categories with
  | [] => default
  | c :: rest =>
      if category_matches haystack c then
        match category_name c with
        | Some n => n
        | None => default
        end
      else classify_in haystack rest default
  end.

Definition classify_category (r : repo) (categories : list category) (default : pystr)
  : pystr :=
  classify_in (haystack_of r) categories default.

Definition is_excluded_repo (r : repo) (exclude_keywords exclude_topics : list pystr)
  : bool :=
  let text := lower (repo_name r ++ str " " ++ or_else (repo_description r) []) in
  if existsb (fun kw => contains text (lower kw)) exclude_keywords then true
  else
    let topics := List.map lower (repo_topics r) in
    let exclude_topics_set : gset pystr := list_to_set (List.map lower exclude_topics) in
    existsb (fun topic => bool_decide (topic ∈ exclude_topics_set)) topics.

(** ** Ranking *)

(** [l.sort(key=key, reverse=True)]: the stable sort into descending key
    order, where [lt] is [<] on keys.  An element goes in front of the
    first one whose key is not greater than its own, so that it stays in
    front of the later elements with an equal key. *)
Section Sort.
Context {A K : Type}.
Variable key : A -> K.
Variable lt : K -> K -> bool.

Fixpoint insert_desc (x : A) (l : list A) : list A :=
  match l with
  | [] => [x]
  | y :: l' => if lt (key x) (key y) then y :: insert_desc x l' else x :: l
  end.

Fixpoint sort_desc (l : list A) : list A :=
  match l with
  | [] => []
  | x :: l' => insert_desc x (sort_desc l')
  end.
End Sort.

(** A [datetime]: naive (no time zone, the wall-clock time) or aware (the
    instant), in microseconds since the epoch. *)
Inductive datetime : Type :=
| Naive (wall : Z)
| Aware (instant : Z).

(** The instant of a time that is compared with an aware time; a naive
    time raises [TypeError] there. *)
Definition aware_instant (t : datetime) : result Z :=
  match t with
  | Aware instant => Ok instant
  | Naive _ => Raise TypeError
  end.

Record candidate : Type := {
  cand_row : row;
  has_homepage : bool;
  stars : Z;
  pushed_at : Z
}.

(** [<] on [bool], on pairs and on triples, as Python compares tuples. *)
Definition bool_lt (a b : bool) : bool := negb a && b.

Definition key2 (c : candidate) : Z * Z := (stars c, pushed_at c).
Definition key2_lt (a b : Z * Z) : bool :=
  (fst a <? fst b) || ((fst a =? fst b) && (snd a <? snd b)).

Definition key3 (c : candidate) : bool * (Z * Z) := (has_homepage c, key2 c).
Definition key3_lt (a b : bool * (Z * Z)) : bool :=
  bool_lt (fst a) (fst b) || (Bool.eqb (fst a) (fst b) && key2_lt (snd a) (snd b)).

Definition rank_candidates (prefer_homepage : bool) (candidates : list candidate)
  : list candidate :=
  if prefer_homepage then sort_desc key3 key3_lt candidates
  else sort_desc key2 key2_lt candidates.

(** ** Building the new rows *)

(** [datetime.fromisoformat] after the replacement of "Z": a naive or an
    aware time, or [ValueError]. *)
Variable parse_iso_time : pystr -> result datetime.

(** The "location" field of [GET {api_base}/users/{login}]; a failed
    request raises [RuntimeError]. *)
Variable http_user_location : pystr -> result (option pystr).

Definition fetch_user_location (login : pystr) (cache : gmap pystr pystr)
  : result (pystr * gmap pystr pystr) :=
  match cache !! login with
  | Some location => Ok (location, cache)
  | None =>
      let* data := http_user_location login in
      let location := strip (or_else data []) in
      Ok (location, <[login := location]> cache)
  end.

(** The values [build_table_rows] reads from [config]. *)
Record config : Type := {
  min_stars : Z;
  pushed_within_days : Z;
  include_owner_location : bool;
  max_description_length : Z;
  max_new_per_run : Z;
  exclude_keywords : list pystr;
  exclude_topics : list pystr;
  prefer_homepage : bool;
  require_homepage : bool;
  category_default : pystr;
  categories : list category
}.

Definition MICROSECONDS_PER_DAY : Z := 86400000000.

(** [datetime.min] and [datetime.max] in UTC, and the largest number of
    days of a [timedelta]. *)
Definition DATETIME_MIN : Z := -62135596800000000.
Definition DATETIME_MAX : Z := 253402300799999999.
Definition TIMEDELTA_MAX_DAYS : Z := 999999999.

(** [now - timedelta(days=pushed_days)] for the aware [now]: both the
    [timedelta] and the subtraction raise [OverflowError] out of range. *)
Definition cutoff_time (now pushed_days : Z) : result Z :=
  if (pushed_days <? - TIMEDELTA_MAX_DAYS) || (TIMEDELTA_MAX_DAYS <? pushed_days)
  then Raise OverflowError
  else
    let cutoff := now - pushed_days * MICROSECONDS_PER_DAY in
    if (cutoff <? DATETIME_MIN) || (DATETIME_MAX <? cutoff) then Raise OverflowError
    else Ok cutoff.

(** The body of the loop over [repos] for one repository: [None] when the
    repository is skipped ([continue]), the candidate otherwise, with the
    owner cache after the iteration.  The cut-off is an aware time, so the
    comparison with a naive time raises [TypeError]; the times of the
    candidates are therefore aware and are kept as instants. *)
Definition candidate_of (cfg : config) (cutoff : Z) (r : repo)
  (user_cache : gmap pystr pystr)
  : result (option candidate * gmap pystr pystr) :=
  if repo_fork r || repo_archived r || repo_disabled r then Ok (None, user_cache)
  else if is_excluded_repo r (exclude_keywords cfg) (exclude_topics cfg)
  then Ok (None, user_cache)
  else if negb (match repo_owner_type r with
                | Some t => str_eqb t (str "User")
                | None => false
                end)
  then Ok (None, user_cache)
  else if repo_stars r <? min_stars cfg then Ok (None, user_cache)
  else
    match repo_pushed_at r with
    | None | Some [] => Ok (None, user_cache)
    | Some pushed =>
        let* pushed_time := parse_iso_time pushed in
        let* pushed_time := aware_instant pushed_time in
        if pushed_time <? cutoff then Ok (None, user_cache)
        else
          let owner_login := strip (repo_owner_login r) in
          let* '(owner_display, cache') :=
            if include_owner_location cfg && truthy owner_login then
              let* '(location, cache') := fetch_user_location owner_login user_cache in
              if truthy location
              then Ok (owner_login ++ str "(" ++ location ++ str ")", cache')
              else Ok (owner_login, cache')
            else Ok (owner_login, user_cache) in
          let project_name := or_else (Some (repo_name r)) owner_login in
          let homepage := strip (or_else (repo_homepage r) []) in
          let project_url :=
            if startswith homepage (str "http://") || startswith homepage (str "https://")
            then homepage else repo_html_url r in
          let has_hp := truthy homepage in
          if require_homepage cfg && negb has_hp then Ok (None, cache')
          else
            let description := or_else (repo_description r) NO_DESCRIPTION in
            let description := truncate_text description (max_description_length cfg) in
            let cat := classify_category r (categories cfg) (category_default cfg) in
            let new_row :=
              [ sanitize_cell cat;
                sanitize_cell owner_display;
                sanitize_cell project_name;
                sanitize_cell (str "[" ++ project_name ++ str "](" ++ project_url ++ str ")");
                sanitize_cell description ] in
            Ok (Some {| cand_row := new_row;
                        has_homepage := has_hp;
                        stars := repo_stars r;
                        pushed_at := pushed_time |}, cache')
    end.

Fixpoint collect_candidates (cfg : config) (cutoff : Z) (repos : list repo)
  (user_cache : gmap pystr pystr) : result (list candidate) :=
  match repos with
  | [] => Ok []
  | r :: rest =>
      let* '(o, cache') := candidate_of cfg cutoff r user_cache in
      let* cands := collect_candidates cfg cutoff rest cache' in
      Ok (match o with Some c => c :: cands | None => cands end)
  end.

(** [now] is [datetime.now(timezone.utc)] in microseconds since the
    epoch. *)
Definition build_table_rows (repos : list repo) (cfg : config) (now : Z)
  : result (list row) :=
  let* cutoff := cutoff_time now (pushed_within_days cfg) in
  let* candidates := collect_candidates cfg cutoff repos ∅ in
  let candidates := rank_candidates (prefer_homepage cfg) candidates in
  Ok (List.map cand_row (slice_to candidates (max_new_per_run cfg))).

(** ** Rendering and merging *)

Definition render_row (r : row) : pystr :=
  let padded := r ++ repeat [] (Z.to_nat (5 - len r)) in
  str "| " ++ join (str " | ") (slice_to padded 5) ++ str " |".

Definition build_table_text (rows : list row) : pystr :=
  join [NEWLINE] ([TABLE_HEADER; TABLE_DIVIDER] ++ List.map render_row rows).

(** The file system: the content of each existing file. *)
Definition file_system : Type := gmap pystr pystr.

Definition read_text (path : pystr) (fs : file_system) : result pystr :=
  match fs !! path with
  | Some content => Ok content
  | None => Raise FileNotFoundError
  end.

Definition write_text (path content : pystr) (fs : file_system) : file_system :=
  <[path := content]> fs.

(** The positions of the two markers, or the [RuntimeError] of
    [update_readme]. *)
Definition locate_markers (content : pystr) : result (Z * Z) :=
  let start := find content AUTO_START in
  let end_ := find content AUTO_END in
  if (start =? -1) || (end_ =? -1) || (end_ <? start)
  then Raise (RuntimeError MSG_NO_MARKERS)
  else Ok (start, end_).

(** The rows read from the block, after the optional pruning. *)
Definition prune_rows (existing_rows : list row) (exclude_keywords : list pystr)
  (prune_existing : bool) : list row :=
  if prune_existing && truthy exclude_keywords then
    List.filter
      (fun r => negb (is_excluded_text (nth 2 r [] ++ str " " ++ nth 4 r [])
                        exclude_keywords))
      existing_rows
  else existing_rows.

Definition existing_rows_of (content : pystr) (start end_ : Z)
  (exclude_keywords : list pystr) (prune_existing : bool) : list row :=
  let block := slice content (start + len AUTO_START) end_ in
  prune_rows (parse_markdown_rows block) exclude_keywords prune_existing.

(** [{extract_url(r[3]) for r in existing_rows if extract_url(r[3])}] *)
Fixpoint existing_urls_of (existing_rows : list row) : result (gset pystr) :=
  match existing_rows with
  | [] => Ok ∅
  | r :: rest =>
      let* cell := getitem r 3 in
      let* urls := existing_urls_of rest in
      let url := extract_url cell in
      Ok (if truthy url then {[ url ]} ∪ urls else urls)
  end.

(** The loop that fills [filtered_new]. *)
Fixpoint filter_new (existing_urls : gset pystr) (new_rows : list row)
  : result (list row) :=
  match new_rows with
  | [] => Ok []
  | r :: rest =>
      let* cell := getitem r 3 in
      let url := extract_url cell in
      let* kept := filter_new existing_urls rest in
      Ok (if truthy url && bool_decide (url ∈ existing_urls)
          then kept else r :: kept)
  end.

Definition normalize_row (max_desc_len : Z) (r : row) : row :=
  let cells := slice_to (r ++ repeat [] 5) 5 in
  let desc := truncate_text (nth 4 cells []) max_desc_len in
  [ sanitize_cell (nth 0 cells []);
    sanitize_cell (nth 1 cells []);
    sanitize_cell (nth 2 cells []);
    sanitize_cell (nth 3 cells []);
    sanitize_cell desc ].

(** [merged_rows], before and after the cut to [max_total]. *)
Definition normalized_rows (max_desc_len : Z) (filtered_new existing_rows : list row)
  : list row :=
  List.map (normalize_row max_desc_len) (filtered_new ++ existing_rows).

Definition cap_rows (max_total : Z) (merged_rows : list row) : list row :=
  if negb (max_total =? 0) && (len merged_rows >? max_total)
  then slice_to merged_rows max_total
  else merged_rows.

(** [content[:start] + new_block + content[end + len(AUTO_END):]] *)
Definition splice (content : pystr) (start end_ : Z) (merged_rows : list row) : pystr :=
  let table_text := build_table_text merged_rows in
  let new_block := AUTO_START ++ [NEWLINE] ++ table_text ++ [NEWLINE] ++ AUTO_END in
  slice_to content start ++ new_block ++ slice_from content (end_ + len AUTO_END).

(** Everything [update_readme] computes between reading and writing:
    the rows added, the rows of the new table and the new content. *)
Definition merge_readme (content : pystr) (new_rows : list row)
  (max_total max_desc_len : Z) (exclude_keywords : list pystr) (prune_existing : bool)
  : result (list row * list row * pystr) :=
  let* '(start, end_) := locate_markers content in
  let existing_rows :=
    existing_rows_of content start end_ exclude_keywords prune_existing in
  let* existing_urls := existing_urls_of existing_rows in
  let* filtered_new := filter_new existing_urls new_rows in
  let merged_rows :=
    cap_rows max_total (normalized_rows max_desc_len filtered_new existing_rows) in
  Ok (filtered_new, merged_rows, splice content start end_ merged_rows).

(** [update_readme]: the result and the file system it leaves. *)
Definition update_readme (readme_path : pystr) (new_rows : list row)
  (max_total max_desc_len : Z) (exclude_keywords : list pystr) (prune_existing : bool)
  (fs : file_system) : result Z * file_system :=
  match read_text readme_path fs with
  | Raise e => (Raise e, fs)
  | Ok content =>
      match merge_readme content new_rows max_total max_desc_len
              exclude_keywords prune_existing with
      | Raise e => (Raise e, fs)
      | Ok (filtered_new, _, new_content) =>
          (Ok (len filtered_new), write_text readme_path new_content fs)
      end
  end.

End Pipeline.

(** ** Notions used in the statements *)

(** The dedup key of a row: the URL read from its link cell. *)
Definition row_url (r : row) : pystr := extract_url (nth 3 r []).

(** A cell that holds no pipe and no newline. *)
Definition clean_cell (cell : pystr) : Prop :=
  ~ In PIPE cell /\ ~ In NEWLINE cell.

(** A string is stripped when neither end is a stripped character. *)
Definition stripped (p : N -> bool) (s : pystr) : Prop :=
  match s with [] => True | c :: _ => p c = false end /\
  match rev s with [] => True | c :: _ => p c = false end.

(** [a] may stand in front of [b] in the ranking: the key of [a] is
    greater than or equal to the key of [b] in the lexicographic order on
    (has-homepage, stars, last activity), or on (stars, last activity). *)
Definition stars_activity_ge (a b : candidate) : Prop :=
  stars a > stars b \/ (stars a = stars b /\ pushed_at a >= pushed_at b).

Definition ranks_before (prefer_homepage : bool) (a b : candidate) : Prop :=
  if prefer_homepage then
    (has_homepage a = true /\ has_homepage b = false) \/
    (has_homepage a = has_homepage b /\ stars_activity_ge a b)
  else stars_activity_ge a b.

(** [a] and [b] have the same sort key. *)
Definition same_key (prefer_homepage : bool) (a b : candidate) : bool :=
  (if prefer_homepage then Bool.eqb (has_homepage a) (has_homepage b) else true)
  && (stars a =? stars b) && (pushed_at a =? pushed_at b).

(** A row of five cells, each the result of [sanitize_cell]. *)
Definition sanitized_row (r : row) : Prop :=
  exists c0 c1 c2 c3 c4,
    r = [sanitize_cell c0; sanitize_cell c1; sanitize_cell c2; sanitize_cell c3;
         sanitize_cell c4].

(** A row as [parse_markdown_rows] yields them: five cells, each one
    stripped, without pipe and without line boundary. *)
Definition parsed_cell (cell : pystr) : Prop :=
  ~ In PIPE cell /\ stripped is_space cell /\
  (forall c, In c cell -> is_linebreak c = false).

Definition parsed_row (r : row) : Prop :=
  length r = 5%nat /\ Forall parsed_cell r.

(** The new rows that the dedup step keeps: those without URL, and those
    whose URL is the URL of no existing row. *)
Definition url_taken (existing_rows : list row) (r : row) : bool :=
  truthy (row_url r) && existsb (str_eqb (row_url r)) (List.map row_url existing_rows).

Definition kept_new (existing_rows new_rows : list row) : list row :=
  List.filter (fun r => negb (url_taken existing_rows r)) new_rows.

(** [row[3]] is defined. *)
Definition has_link (r : row) : bool := (3 <? length r)%nat.

(** No URL occurs in two rows; rows without URL are left out of account. *)
Definition distinct_urls (rows : list row) : Prop :=
  NoDup (List.filter truthy (List.map row_url rows)).

(** The link cell of the row is unchanged by [sanitize_cell]. *)
Definition link_sanitized (r : row) : Prop :=
  sanitize_cell (nth 3 r []) = nth 3 r [].

(** The text in which [classify_category] looks for keywords, before
    lower-casing: name, description and topics, joined by spaces. *)
Definition search_text (r : repo) : pystr :=
  join (str " ")
    [repo_name r; or_else (repo_description r) []; join (str " ") (repo_topics r)].

(** A keyword of the rule occurs in the search text, both lower-cased. *)
Definition rule_matches (lower : pystr -> pystr) (r : repo) (c : category) : Prop :=
  exists kw pre post,
    In kw (category_keywords c) /\ lower (search_text r) = pre ++ lower kw ++ post.

(** A row of the table that is read back as it was written: no cell holds
    a line boundary, and the row is not taken for the header. *)
Definition reparsable_row (r : row) : Prop :=
  (forall cell c, In cell r -> In c cell -> is_linebreak c = false) /\
  ~ (nth 0 r [] = HEADER_CATEGORY /\ nth 1 r [] = HEADER_DEVELOPER).

(** A cell between two spaces, as [build_table_text] writes it. *)
Definition padded (cell : pystr) : pystr := SPACE :: cell ++ [SPACE].

(** A URL that [extract_url] reads from a parenthesized group. *)
Definition group_url (u : pystr) : Prop :=
  exists scheme rest,
    (scheme = str "http://" \/ scheme = str "https://") /\
    u = scheme ++ rest /\ rest <> [] /\ ~ In 41%N rest.

(** The cell holds, behind the text [before], the URL [u] as a
    parenthesized group. *)
Definition group_at (cell before u : pystr) : Prop :=
  group_url u /\ exists rest, cell = before ++ 40%N :: u ++ 41%N :: rest.

(** The repository passes the filters of [build_table_rows]: [t] is its
    parsed push time. *)
Definition passes_filters (lower : pystr -> pystr)
  (parse_iso_time : pystr -> result datetime)
  (cfg : config) (cutoff : Z) (r : repo) (t : Z) : Prop :=
  repo_fork r = false /\ repo_archived r = false /\ repo_disabled r = false /\
  is_excluded_repo lower r (exclude_keywords cfg) (exclude_topics cfg) = false /\
  repo_owner_type r = Some (str "User") /\
  min_stars cfg <= repo_stars r /\
  (exists pushed, repo_pushed_at r = Some pushed /\ pushed <> [] /\
                  parse_iso_time pushed = Ok (Aware t)) /\
  cutoff <= t /\
  (require_homepage cfg = true -> strip (or_else (repo_homepage r) []) <> []).

(** The project name and the project URL that [build_table_rows] writes. *)
Definition project_name_of (r : repo) : pystr :=
  or_else (Some (repo_name r)) (strip (repo_owner_login r)).

Definition project_url_of (r : repo) : pystr :=
  let homepage := strip (or_else (repo_homepage r) []) in
  if startswith homepage (str "http://") || startswith homepage (str "https://")
  then homepage else repo_html_url r.

(** The display of the owner of the repository: the stripped login, and
    behind it in parentheses the stripped location that the lookup of the
    login answers, when locations are asked for, the login is not empty and
    the location is not empty. *)
Definition owner_display_of (http_user_location : pystr -> result (option pystr))
  (cfg : config) (r : repo) (owner_display : pystr) : Prop :=
  let owner_login := strip (repo_owner_login r) in
  if include_owner_location cfg && truthy owner_login then
    exists data,
      http_user_location owner_login = Ok data /\
      let location := strip (or_else data []) in
      owner_display =
        if truthy location then owner_login ++ str "(" ++ location ++ str ")"
        else owner_login
  else owner_display = owner_login.

(** Every location of the cache is what the lookup of its login answers. *)
Definition cache_sound (http_user_location : pystr -> result (option pystr))
  (cache : gmap pystr pystr) : Prop :=
  forall login location,
    cache !! login = Some location ->
    exists data, http_user_location login = Ok data /\ location = strip (or_else data []).

(** The candidate is the one that [build_table_rows] builds for the
    repository. *)
Definition candidate_for (lower : pystr -> pystr)
  (http_user_location : pystr -> result (option pystr)) (cfg : config) (r : repo)
  (c : candidate) : Prop :=
  stars c = repo_stars r /\
  has_homepage c = truthy (strip (or_else (repo_homepage r) [])) /\
  exists owner_display,
    owner_display_of http_user_location cfg r owner_display /\
    cand_row c =
      [ sanitize_cell (classify_category lower r (categories cfg) (category_default cfg));
        sanitize_cell owner_display;
        sanitize_cell (project_name_of r);
        sanitize_cell (str "[" ++ project_name_of r ++ str "](" ++ project_url_of r ++ str ")");
        sanitize_cell (truncate_text (or_else (repo_description r) NO_DESCRIPTION)
                         (max_description_length cfg)) ].

(** ** Sample inputs *)

Definition README : pystr := str "README.md".

(** A document with the given lines between the two markers. *)
Definition readme_with (table_lines : list pystr) : pystr :=
  join [NEWLINE]
    ([str "# Projects"; AUTO_START] ++ table_lines ++ [AUTO_END; str "footer"]).

Definition row_foo : row :=
  [str "tool"; str "alice"; str "foo"; str "[foo](https://x.com/a/foo)"; str "first"].
Definition row_bar : row :=
  [str "tool"; str "bob"; str "bar"; str "[bar](https://x.com/a/bar)"; str "second"].
(** Two rows whose link cell holds no URL. *)
Definition row_plain : row :=
  [str "tool"; str "carol"; str "baz"; str "baz"; str "third"].
Definition row_plain2 : row :=
  [str "tool"; str "dave"; str "qux"; str "qux"; str "fourth"].

(** Another project with the home page of [row_foo]. *)
Definition row_foo_mirror : row :=
  [str "tool"; str "eve"; str "foo2"; str "[foo2](https://x.com/a/foo)"; str "mirror"].

Definition line_foo : pystr :=
  str "| tool | alice | foo | [foo](https://x.com/a/foo) | first |".
Definition line_bar : pystr :=
  str "| tool | bob | bar | [bar](https://x.com/a/bar) | second |".
Definition line_plain : pystr := str "| tool | carol | baz | baz | third |".
Definition line_plain2 : pystr := str "| tool | dave | qux | qux | fourth |".

Definition sample_parse_iso_time (s : pystr) : result datetime :=
  if str_eqb s (str "2024-05-01T00:00:00Z") then Ok (Aware 1714521600000000)
  else if str_eqb s (str "2024-06-01T00:00:00Z") then Ok (Aware 1717200000000000)
  else if str_eqb s (str "2024-06-01T00:00:00") then Ok (Naive 1717200000000000)
  else Raise ValueError.

Definition sample_http_user_location (login : pystr) : result (option pystr) :=
  Ok (Some (str " Paris ")).

(** 2024-06-15T00:00:00Z *)
Definition sample_now : Z := 1718409600000000.

Definition rule_ai : category :=
  {| category_name := Some (str "AI"); category_keywords := [str "llm"; str "AI"] |}.
Definition rule_chat : category :=
  {| category_name := Some (str "Chat"); category_keywords := [str "chat"] |}.

Definition sample_config (prefer : bool) : config :=
  {| min_stars := 10;
     pushed_within_days := 365;
     include_owner_location := true;
     max_description_length := 12;
     max_new_per_run := 5;
     exclude_keywords := [str "awesome"];
     exclude_topics := [str "tutorial"];
     prefer_homepage := prefer;
     require_homepage := false;
     category_default := str "Other";
     categories := [rule_ai; rule_chat] |}.

(** 100 stars, no home page. *)
Definition repo_popular : repo :=
  {| repo_name := str "ai-chat";
     repo_description := Some (str "An AI chat|bot for everyone");
     repo_topics := [str "chatbot"];
     repo_fork := false; repo_archived := false; repo_disabled := false;
     repo_owner_type := Some (str "User");
     repo_owner_login := str "alice";
     repo_stars := 100;
     repo_pushed_at := Some (str "2024-05-01T00:00:00Z");
     repo_homepage := None;
     repo_html_url := str "https://github.com/alice/ai-chat" |}.

(** 50 stars, with a home page. *)
Definition repo_homepage_50 : repo :=
  {| repo_name := str "notes";
     repo_description := None;
     repo_topics := [];
     repo_fork := false; repo_archived := false; repo_disabled := false;
     repo_owner_type := Some (str "User");
     repo_owner_login := str "bob";
     repo_stars := 50;
     repo_pushed_at := Some (str "2024-06-01T00:00:00Z");
     repo_homepage := Some (str "https://notes.example");
     repo_html_url := str "https://github.com/bob/notes" |}.

Definition candidate_100 (r : row) (t : Z) : candidate :=
  {| cand_row := r; has_homepage := false; stars := 100; pushed_at := t |}.
Definition candidate_50_homepage (r : row) (t : Z) : candidate :=
  {| cand_row := r; has_homepage := true; stars := 50; pushed_at := t |}.

(** ** Searching and the entry point *)

(** One entry of [config["queries"]], with the defaults of [sort] and
    [order] resolved. *)
Record search_query : Type := {
  query_q : pystr;
  query_sort : pystr;
  query_order : pystr
}.

(** An item of a search response: its ["id"] ([None] when the key is
    missing) and the fields that [build_table_rows] reads. *)
Record search_item : Type := {
  item_id : option Z;
  item_repo : repo
}.

(** What [main] and the functions it calls read from the loaded
    configuration. *)
Record settings : Type := {
  set_queries : list search_query;
  set_per_page : Z;
  set_max_pages : Z;
  set_config : config;
  set_max_total : Z;
  set_prune_existing : bool
}.

Section Entry.
Variable lower : pystr -> pystr.
Variable parse_iso_time : pystr -> result datetime.
Variable http_user_location : pystr -> result (option pystr).

(** The ["items"] of [GET {api_base}/search/repositories] for a query,
    [per_page] and [page]; a failed request raises [RuntimeError]. *)
Variable http_search : search_query -> Z -> Z -> result (list search_item).

(** The loop over the items of one page. *)
Fixpoint add_items (items repos : list search_item) (seen_ids : gset (option Z))
  : list search_item * gset (option Z) :=
  match items with
  | [] => (repos, seen_ids)
  | it :: rest =>
      if bool_decide (item_id it ∈ seen_ids) then add_items rest repos seen_ids
      else add_items rest (repos ++ [it]) ({[ item_id it ]} ∪ seen_ids)
  end.

(** [range(1, max_pages + 1)] *)
Definition page_range (max_pages : Z) : list Z :=
  List.map Z.of_nat (seq 1 (Z.to_nat max_pages)).

(** The loop over the pages of one query; an empty page ends it. *)
Fixpoint search_pages (query : search_query) (per_page : Z) (pages : list Z)
  (repos : list search_item) (seen_ids : gset (option Z))
  : result (list search_item * gset (option Z)) :=
  match pages with
  | [] => Ok (repos, seen_ids)
  | page :: rest =>
      let* items := http_search query per_page page in
      if negb (truthy items) then Ok (repos, seen_ids)
      else
        let '(repos', seen_ids') := add_items items repos seen_ids in
        search_pages query per_page rest repos' seen_ids'
  end.

Fixpoint search_queries (queries : list search_query) (per_page max_pages : Z)
  (repos : list search_item) (seen_ids : gset (option Z))
  : result (list search_item) :=
  match queries with
  | [] => Ok repos
  | query :: rest =>
      let* '(repos', seen_ids') :=
        search_pages query per_page (page_range max_pages) repos seen_ids in
      search_queries rest per_page max_pages repos' seen_ids'
  end.

(** [search_repositories]; the pause between pages has no part in the
    result. *)
Definition search_repositories (queries : list search_query) (per_page max_pages : Z)
  : result (list search_item) :=
  search_queries queries per_page max_pages [] ∅.

(** [load_config(config_path)] with the look-ups of [main] in the loaded
    configuration: the settings, or the exception that the loading raises
    ([RuntimeError] for a file that is neither JSON nor YAML). *)
Variable load_config : pystr -> file_system -> result settings.

(** The two [print] calls of [main]: the count on the standard output and
    the message of the error on the standard error stream. *)
Variable print_added : Z -> result unit.
Variable print_stderr : pystr -> result unit.

(** The [try] block of [main]: the three stages, each of which can raise. *)
Definition main_try (s : settings) (readme_path : pystr) (now : Z) (fs : file_system)
  : result Z * file_system :=
  match search_repositories (set_queries s) (set_per_page s) (set_max_pages s) with
  | Raise e => (Raise e, fs)
  | Ok repos =>
      match build_table_rows lower parse_iso_time http_user_location
              (List.map item_repo repos) (set_config s) now with
      | Raise e => (Raise e, fs)
      | Ok new_rows =>
          update_readme lower readme_path new_rows (set_max_total s)
            (max_description_length (set_config s)) (exclude_keywords (set_config s))
            (set_prune_existing s) fs
      end
  end.

(** [main]: the configuration is loaded before the [try], so an exception
    of the loading leaves [main]; a [RuntimeError] of the [try] block is
    printed and gives exit code 1, any other exception leaves [main]; the
    count is printed after the [try] block.  The token and the headers
    enter the HTTP requests only. *)
Definition main (config_path readme_path : pystr) (now : Z) (fs : file_system)
  : result Z * file_system :=
  match load_config config_path fs with
  | Raise e => (Raise e, fs)
  | Ok s =>
      match main_try s readme_path now fs with
      | (Raise (RuntimeError msg), fs') =>
          match print_stderr msg with
          | Raise e => (Raise e, fs')
          | Ok _ => (Ok 1, fs')
          end
      | (Raise e, fs') => (Raise e, fs')
      | (Ok added, fs') =>
          match print_added added with
          | Raise e => (Raise e, fs')
          | Ok _ => (Ok 0, fs')
          end
      end
  end.

End Entry.

(** A search that answers from a fixed table of pages. *)
Definition sample_http_search (query : search_query) (per_page page : Z)
  : result (list search_item) :=
  if str_eqb (query_q query) (str "down") then Raise (RuntimeError (str "GitHub API"))
  else if page =? 1 then
    Ok [ {| item_id := Some 1; item_repo := repo_popular |};
         {| item_id := Some 2; item_repo := repo_homepage_50 |} ]
  else if page =? 2 then Ok [ {| item_id := Some 1; item_repo := repo_popular |} ]
  else Ok [].

Definition query_tools : search_query :=
  {| query_q := str "tools"; query_sort := str "stars"; query_order := str "desc" |}.
Definition query_down : search_query :=
  {| query_q := str "down"; query_sort := str "stars"; query_order := str "desc" |}.

(** A configuration without owner lookup and without bounds. *)
Definition sample_config_plain : config :=
  {| min_stars := 10;
     pushed_within_days := 365;
     include_owner_location := false;
     max_description_length := 0;
     max_new_per_run := 1;
     exclude_keywords := [];
     exclude_topics := [];
     prefer_homepage := false;
     require_homepage := false;
     category_default := str "Other";
     categories := [rule_ai; rule_chat] |}.

(** Settings with the one query that fails, and a loading and printing
    that succeed. *)
Definition sample_settings (queries : list search_query) : settings :=
  {| set_queries := queries;
     set_per_page := 100;
     set_max_pages := 1;
     set_config := sample_config_plain;
     set_max_total := 0;
     set_prune_existing := false |}.

Definition sample_load_config (queries : list search_query) (path : pystr)
  (fs : file_system) : result settings :=
  Ok (sample_settings queries).

Definition sample_print {A : Type} (x : A) : result unit := Ok tt.

(** The rows built from [repo_popular] and [repo_homepage_50] under
    [sample_config true]. *)
Definition built_row_notes : row :=
  [str "Other"; str "bob(Paris)"; str "notes"; str "[notes](https://notes.example)";
   NO_DESCRIPTION].
Definition built_row_ai_chat : row :=
  [str "AI"; str "alice(Paris)"; str "ai-chat";
   str "[ai-chat](https://github.com/alice/ai-chat)"; str "An AI cha..."].

(** The ids seen so far are the ids of the repositories collected so far,
    and no id is collected twice. *)
Definition seen_invariant (repos : list search_item) (seen_ids : gset (option Z)) : Prop :=
  NoDup (List.map item_id repos) /\
  forall i, i ∈ seen_ids <-> In i (List.map item_id repos).

(** The item was returned by a request for a page of one of the queries. *)
Definition fetched (http_search : search_query -> Z -> Z -> result (list search_item))
  (queries : list search_query) (per_page : Z) (pages : list Z) (it : search_item) : Prop :=
  exists query page items,
    In query queries /\ In page pages /\
    http_search query per_page page = Ok items /\ In it items.

(** * Properties *)

(** ** The model on the examples of the specification *)

Example truncate_text_hello_world :
  truncate_text (str "hello world") 8 = str "hello...".
Proof. reflexivity. Qed.

Example extract_url_link : extract_url (str "[foo](https://x.com/a/foo)") = str "https://x.com/a/foo".
Proof. reflexivity. Qed.

Example extract_url_bare : extract_url (str "http://x.com/a") = str "http://x.com/a".
Proof. reflexivity. Qed.

Example extract_url_empty_group : extract_url (str "[foo](https://)") = [].
Proof. reflexivity. Qed.

Example extract_url_none : extract_url (str "baz") = [].
Proof. reflexivity. Qed.

Example splitlines_crlf :
  splitlines [97; 13; 10; 98; 10; 10; 99; 10]%N = [[97]; [98]; []; [99]]%N.
Proof. reflexivity. Qed.

Example parse_markdown_rows_skips :
  parse_markdown_rows
    (join [NEWLINE] [TABLE_HEADER; TABLE_DIVIDER; line_foo; str "| short | row |";
                     str "not a row"; line_bar])
  = [row_foo; row_bar].
Proof. vm_compute. reflexivity. Qed.

(** ** Strings *)

Lemma char_eqb_eq (a b : N) : char_eqb a b = true <-> a = b.
Proof. unfold char_eqb. apply N.eqb_eq. Qed.

Lemma char_eqb_neq (a b : N) : char_eqb a b = false <-> a <> b.
Proof. unfold char_eqb. apply N.eqb_neq. Qed.

Lemma str_eqb_eq (a b : pystr) : str_eqb a b = true <-> a = b.
Proof.
  revert b. induction a as [|x a IH]; intros [|y b]; simpl; split; intros H;
    try reflexivity; try discriminate.
  - apply andb_true_iff in H as [H1 H2].
    apply char_eqb_eq in H1. apply IH in H2. congruence.
  - injection H as -> ->. apply andb_true_iff. split.
    + now apply char_eqb_eq.
    + now apply IH.
Qed.

Lemma len_nonneg {A : Type} (l : list A) : 0 <= len l.
Proof. unfold len. lia. Qed.

Lemma len_app {A : Type} (l k : list A) : len (l ++ k) = len l + len k.
Proof. unfold len. rewrite length_app. lia. Qed.

Lemma startswith_iff (s prefix : pystr) :
  startswith s prefix = true <-> exists rest, s = prefix ++ rest.
Proof.
  revert s. induction prefix as [|p prefix IH]; intros s; simpl.
  - split; [intros _; now exists s | reflexivity].
  - destruct s as [|c s].
    + split; [discriminate | intros [rest H]; discriminate].
    + rewrite andb_true_iff, char_eqb_eq, IH. split.
      * intros [-> [rest ->]]. now exists rest.
      * intros [rest H]. injection H as -> ->. split; [reflexivity | now exists rest].
Qed.

Lemma contains_iff (s sub : pystr) :
  contains s sub = true <-> exists pre post, s = pre ++ sub ++ post.
Proof.
  induction s as [|c s IH]; simpl.
  - rewrite orb_false_r, startswith_iff. split.
    + intros [rest H]. now exists [], rest.
    + intros [pre [post H]]. destruct pre; [now exists post | discriminate].
  - rewrite orb_true_iff, startswith_iff, IH. split.
    + intros [[rest H] | [pre [post H]]].
      * now exists [], rest.
      * exists (c :: pre), post. now rewrite H.
    + intros [[|x pre] [post H]].
      * left. now exists post.
      * right. injection H as -> ->. now exists pre, post.
Qed.

(** [find] is -1 exactly when there is no occurrence, and otherwise the
    least index of one. *)
Lemma find_from_absent (i : Z) (s sub : pystr) :
  contains s sub = false -> find_from i s sub = -1.
Proof.
  revert i. induction s as [|c s IH]; intros i; simpl; intros H;
    apply orb_false_iff in H as [H1 H2]; rewrite H1; auto.
Qed.

Lemma find_from_present (i : Z) (s sub : pystr) :
  contains s sub = true ->
  exists n : nat,
    find_from i s sub = i + Z.of_nat n /\
    startswith (skipn n s) sub = true /\
    (forall m : nat, (m < n)%nat -> startswith (skipn m s) sub = false) /\
    (n <= length s)%nat.
Proof.
  revert i. induction s as [|c s IH]; intros i; simpl; intros H.
  - rewrite orb_false_r in H. rewrite H. exists 0%nat. simpl.
    repeat split; [lia | assumption | intros; lia | lia].
  - destruct (startswith (c :: s) sub) eqn:E.
    + exists 0%nat. simpl. repeat split; [lia | assumption | intros; lia | lia].
    + simpl in H. destruct (IH (i + 1) H) as [n [Hn [Hs [Hm Hl]]]].
      exists (S n). simpl. repeat split; [lia | assumption | | lia].
      intros [|m] Hlt; simpl; [assumption | apply Hm; lia].
Qed.

Lemma find_absent (s sub : pystr) : find s sub = -1 <-> contains s sub = false.
Proof.
  split.
  - intros H. destruct (contains s sub) eqn:E; [|reflexivity].
    destruct (find_from_present 0 s sub E) as [n [Hn _]].
    unfold find in H. lia.
  - apply find_from_absent.
Qed.

Lemma find_nonneg (s sub : pystr) : -1 <= find s sub <= len s.
Proof.
  destruct (contains s sub) eqn:E.
  - destruct (find_from_present 0 s sub E) as [n [Hn [_ [_ Hl]]]].
    unfold find, len. lia.
  - apply find_absent in E. pose proof (len_nonneg s). lia.
Qed.

(** *** Stripping *)

Lemma drop_while_split (p : N -> bool) (s : pystr) :
  exists pre, s = pre ++ drop_while p s /\ forallb p pre = true.
Proof.
  induction s as [|c s [pre [H1 H2]]]; simpl.
  - now exists [].
  - destruct (p c) eqn:E.
    + exists (c :: pre). simpl. rewrite E, H2. split; [now f_equal | reflexivity].
    + now exists [].
Qed.

Lemma drop_while_head (p : N -> bool) (s : pystr) (c : N) (rest : pystr) :
  drop_while p s = c :: rest -> p c = false.
Proof.
  induction s as [|x s IH]; simpl; [discriminate|].
  destruct (p x) eqn:E; [assumption|].
  intros H. injection H as -> _. assumption.
Qed.

Lemma drop_while_fixed (p : N -> bool) (s : pystr) :
  match s with [] => True | c :: _ => p c = false end -> drop_while p s = s.
Proof. destruct s as [|c s]; simpl; [reflexivity | now intros ->]. Qed.

Lemma rstrip_with_split (p : N -> bool) (s : pystr) :
  exists suf, s = rstrip_with p s ++ suf /\ forallb p suf = true.
Proof.
  unfold rstrip_with.
  destruct (drop_while_split p (rev s)) as [pre [H1 H2]].
  exists (rev pre). split.
  - rewrite <- rev_app_distr, <- H1. now rewrite rev_involutive.
  - rewrite forallb_forall in *. intros x Hx. apply H2. now apply in_rev.
Qed.

Lemma strip_with_split (p : N -> bool) (s : pystr) :
  exists pre suf,
    s = pre ++ strip_with p s ++ suf /\ forallb p pre = true /\ forallb p suf = true.
Proof.
  unfold strip_with, lstrip_with.
  destruct (drop_while_split p s) as [pre [H1 H2]].
  destruct (rstrip_with_split p (drop_while p s)) as [suf [H3 H4]].
  exists pre, suf. repeat split; try assumption.
  now rewrite <- H3.
Qed.

Lemma strip_with_in (p : N -> bool) (s : pystr) (c : N) :
  In c (strip_with p s) -> In c s.
Proof.
  destruct (strip_with_split p s) as [pre [suf [H _]]].
  intros Hc. rewrite H. apply in_or_app. right. apply in_or_app. now left.
Qed.

Lemma strip_with_length (p : N -> bool) (s : pystr) :
  (length (strip_with p s) <= length s)%nat.
Proof.
  destruct (strip_with_split p s) as [pre [suf [H _]]].
  rewrite H at 2. rewrite !length_app. lia.
Qed.

Lemma rstrip_with_length (p : N -> bool) (s : pystr) :
  (length (rstrip_with p s) <= length s)%nat.
Proof.
  destruct (rstrip_with_split p s) as [suf [H _]].
  rewrite H at 2. rewrite length_app. lia.
Qed.

Lemma strip_with_fixed (p : N -> bool) (s : pystr) :
  stripped p s -> strip_with p s = s.
Proof.
  intros [H1 H2]. unfold strip_with, lstrip_with, rstrip_with.
  rewrite (drop_while_fixed p s H1), (drop_while_fixed p (rev s) H2).
  apply rev_involutive.
Qed.

Lemma strip_with_stripped (p : N -> bool) (s : pystr) : stripped p (strip_with p s).
Proof.
  unfold strip_with, lstrip_with, rstrip_with. split.
  - destruct (drop_while_split p (rev (drop_while p s))) as [pre [H1 H2]].
    remember (drop_while p (rev (drop_while p s))) as d eqn:Hd.
    apply (f_equal (@rev N)) in H1. rewrite rev_involutive, rev_app_distr in H1.
    destruct (rev d) as [|c t] eqn:E; [exact I|].
    simpl in H1. now apply (drop_while_head p s c (t ++ rev pre)).
  - rewrite rev_involutive.
    destruct (drop_while p (rev (drop_while p s))) as [|c t] eqn:E; [exact I|].
    now apply (drop_while_head _ _ _ _ E).
Qed.

Lemma strip_with_idem (p : N -> bool) (s : pystr) :
  strip_with p (strip_with p s) = strip_with p s.
Proof. apply strip_with_fixed, strip_with_stripped. Qed.

(** *** Replacing *)

Lemma replace_char_absent (a b : N) (s : pystr) :
  ~ In a s -> replace_char a b s = s.
Proof.
  induction s as [|c s IH]; simpl; intros H; [reflexivity|].
  destruct (char_eqb c a) eqn:E.
  - apply char_eqb_eq in E. exfalso. apply H. now left.
  - f_equal. apply IH. intros Hin. apply H. now right.
Qed.

Lemma replace_char_in (a b x : N) (s : pystr) :
  In x (replace_char a b s) -> x = b \/ (x <> a /\ In x s).
Proof.
  induction s as [|c s IH]; simpl; [tauto|].
  destruct (char_eqb c a) eqn:E; intros [H | H].
  - now left.
  - destruct (IH H) as [-> | [H1 H2]]; [now left | right; tauto].
  - apply char_eqb_neq in E. subst. right. split; [assumption | now left].
  - destruct (IH H) as [-> | [H1 H2]]; [now left | right; tauto].
Qed.

Lemma replace_char_length (a b : N) (s : pystr) :
  length (replace_char a b s) = length s.
Proof. apply length_map. Qed.

(** ** [sanitize_cell] *)

Lemma sanitize_cell_clean (text : pystr) : clean_cell (sanitize_cell text).
Proof.
  unfold clean_cell, sanitize_cell, strip. split; intros H;
    apply strip_with_in in H; apply replace_char_in in H.
  - destruct H as [H | [_ H]]; [discriminate|].
    apply replace_char_in in H. destruct H as [H | [H _]]; [discriminate | now apply H].
  - destruct H as [H | [H _]]; [discriminate | now apply H].
Qed.

Lemma sanitize_cell_fixed (cell : pystr) :
  clean_cell cell -> stripped is_space cell -> sanitize_cell cell = cell.
Proof.
  intros [H1 H2] H3. unfold sanitize_cell.
  rewrite (replace_char_absent PIPE), (replace_char_absent NEWLINE) by assumption.
  now apply strip_with_fixed.
Qed.

Lemma sanitize_cell_stripped (text : pystr) : stripped is_space (sanitize_cell text).
Proof. apply strip_with_stripped. Qed.

Lemma sanitize_cell_idem (text : pystr) :
  sanitize_cell (sanitize_cell text) = sanitize_cell text.
Proof.
  apply sanitize_cell_fixed; [apply sanitize_cell_clean | apply sanitize_cell_stripped].
Qed.

Lemma sanitize_cell_length (text : pystr) : len (sanitize_cell text) <= len text.
Proof.
  unfold sanitize_cell, strip, len.
  pose proof (strip_with_length is_space
    (replace_char NEWLINE SPACE (replace_char PIPE FULLWIDTH_SOLIDUS text))) as H.
  rewrite !replace_char_length in H. lia.
Qed.

(** ** Slices *)

Lemma clip_index_nonneg (n : nat) (i : Z) :
  0 <= i -> clip_index n i = Nat.min n (Z.to_nat i).
Proof.
  intros H. unfold clip_index.
  destruct (i <? 0) eqn:E; [apply Z.ltb_lt in E; lia|]. lia.
Qed.

Lemma slice_to_nonneg {A : Type} (l : list A) (i : Z) :
  0 <= i -> slice_to l i = firstn (Z.to_nat i) l.
Proof.
  intros H. unfold slice_to. rewrite clip_index_nonneg by assumption.
  destruct (Nat.le_ge_cases (length l) (Z.to_nat i)) as [Hle | Hge].
  - rewrite Nat.min_l by assumption. now rewrite !firstn_all2 by lia.
  - now rewrite Nat.min_r by assumption.
Qed.

(** A negative bound counts from the end. *)
Lemma slice_to_negative {A : Type} (l : list A) (i : Z) :
  i < 0 -> slice_to l i = firstn (length l - Z.to_nat (- i)) l.
Proof.
  intros H. unfold slice_to, clip_index. f_equal.
  destruct (i <? 0) eqn:E; [|apply Z.ltb_ge in E; lia]. lia.
Qed.

Lemma slice_to_in {A : Type} (l : list A) (i : Z) (x : A) :
  In x (slice_to l i) -> In x l.
Proof.
  unfold slice_to. intros H.
  rewrite <- (firstn_skipn (clip_index (length l) i) l).
  apply in_or_app. now left.
Qed.

Lemma slice_from_nonneg {A : Type} (l : list A) (i : Z) :
  0 <= i -> slice_from l i = skipn (Z.to_nat i) l.
Proof.
  intros H. unfold slice_from. rewrite clip_index_nonneg by assumption.
  destruct (Nat.le_ge_cases (length l) (Z.to_nat i)) as [Hle | Hge].
  - rewrite Nat.min_l by assumption. now rewrite !skipn_all2 by lia.
  - now rewrite Nat.min_r by assumption.
Qed.

Lemma slice_nonneg {A : Type} (l : list A) (lo hi : Z) :
  0 <= lo -> 0 <= hi ->
  slice l lo hi = firstn (Z.to_nat hi - Z.to_nat lo) (skipn (Z.to_nat lo) l).
Proof.
  intros H1 H2. unfold slice. rewrite !clip_index_nonneg by assumption.
  destruct (Nat.le_ge_cases (length l) (Z.to_nat lo)) as [Hle | Hge].
  - rewrite (Nat.min_l _ _ Hle). rewrite !skipn_all2 by lia. now rewrite !firstn_nil.
  - rewrite (Nat.min_r _ _ Hge).
    destruct (Nat.le_ge_cases (length l) (Z.to_nat hi)) as [Hle' | Hge'].
    + rewrite (Nat.min_l _ _ Hle'). rewrite !firstn_all2; [reflexivity | |];
        rewrite length_skipn; lia.
    + now rewrite (Nat.min_r _ _ Hge').
Qed.

(** ** [truncate_text] *)

Lemma truncate_text_unlimited (text : pystr) (max_len : Z) :
  max_len <= 0 -> truncate_text text max_len = text.
Proof.
  intros H. unfold truncate_text.
  destruct (max_len <=? 0) eqn:E; [reflexivity | apply Z.leb_gt in E; lia].
Qed.

Lemma truncate_text_short (text : pystr) (max_len : Z) :
  len text <= max_len -> truncate_text text max_len = text.
Proof.
  intros H. unfold truncate_text.
  destruct (max_len <=? 0); [reflexivity|].
  destruct (len text <=? max_len) eqn:E; [reflexivity | apply Z.leb_gt in E; lia].
Qed.

Lemma truncate_text_long (text : pystr) (max_len : Z) :
  3 <= max_len -> max_len < len text ->
  truncate_text text max_len =
    rstrip (firstn (Z.to_nat (max_len - 3)) text) ++ str "..." /\
  len (truncate_text text max_len) <= max_len.
Proof.
  intros H1 H2. unfold truncate_text.
  destruct (max_len <=? 0) eqn:E; [apply Z.leb_le in E; lia|].
  destruct (len text <=? max_len) eqn:E'; [apply Z.leb_le in E'; lia|].
  rewrite slice_to_nonneg by lia. split; [reflexivity|].
  rewrite len_app. unfold rstrip, len.
  pose proof (rstrip_with_length is_space (firstn (Z.to_nat (max_len - 3)) text)) as Hl.
  rewrite length_firstn in Hl. simpl. lia.
Qed.

Lemma truncate_text_bound (text : pystr) (max_len : Z) :
  3 <= max_len -> len (truncate_text text max_len) <= max_len.
Proof.
  intros H. destruct (Z_le_gt_dec (len text) max_len) as [Hle | Hgt].
  - now rewrite truncate_text_short.
  - apply truncate_text_long; lia.
Qed.

(** C8 (defect).  With a bound of 1 or 2 the slice bound [max_len - 3] is
    negative and counts from the end of the text: on "hello" with bound 1
    the function keeps three characters and returns the six characters
    "hel...", although the text was to be cut to one character. *)
Theorem truncate_text_small_bound_overflows :
  truncate_text (str "hello") 1 = str "hel..." /\
  len (truncate_text (str "hello") 1) = 6 /\
  1 < len (str "hello").
Proof. repeat split. Qed.

(** ** Sorting *)

Section SortFacts.
Context {A K : Type}.
Variable key : A -> K.
Variable lt : K -> K -> bool.

Lemma insert_desc_perm (x : A) (l : list A) : Permutation (x :: l) (insert_desc key lt x l).
Proof.
  induction l as [|y l IH]; simpl; [reflexivity|].
  destruct (lt (key x) (key y)); [|reflexivity].
  rewrite perm_swap. now apply perm_skip.
Qed.

Lemma sort_desc_perm (l : list A) : Permutation l (sort_desc key lt l).
Proof.
  induction l as [|x l IH]; simpl; [reflexivity|].
  rewrite <- insert_desc_perm. now apply perm_skip.
Qed.

(** Elements that the filter keeps are never strictly out of order among
    themselves, so the sort leaves the kept elements in their order. *)
Lemma insert_desc_filter (q : A -> bool) (x : A) (l : list A) :
  (forall a b, q a = true -> q b = true -> lt (key a) (key b) = false) ->
  List.filter q (insert_desc key lt x l) = List.filter q (x :: l).
Proof.
  intros Hq. induction l as [|y l IH]; [reflexivity|].
  simpl insert_desc. destruct (lt (key x) (key y)) eqn:E; [|reflexivity].
  simpl in *. rewrite IH.
  destruct (q x) eqn:Ex, (q y) eqn:Ey; try reflexivity.
  rewrite (Hq x y Ex Ey) in E. discriminate.
Qed.

Lemma sort_desc_filter (q : A -> bool) (l : list A) :
  (forall a b, q a = true -> q b = true -> lt (key a) (key b) = false) ->
  List.filter q (sort_desc key lt l) = List.filter q l.
Proof.
  intros Hq. induction l as [|x l IH]; [reflexivity|].
  simpl sort_desc. rewrite insert_desc_filter by assumption.
  simpl. now rewrite IH.
Qed.

Hypothesis lt_asym : forall a b, lt a b = true -> lt b a = false.
Hypothesis ge_trans : forall a b c, lt a b = false -> lt b c = false -> lt a c = false.

Lemma insert_desc_sorted (x : A) (l : list A) :
  StronglySorted (fun a b => lt (key a) (key b) = false) l ->
  StronglySorted (fun a b => lt (key a) (key b) = false) (insert_desc key lt x l).
Proof using lt_asym ge_trans.
  induction 1 as [|y l Hs IH Hy]; simpl.
  - repeat constructor.
  - destruct (lt (key x) (key y)) eqn:E.
    + constructor; [assumption|].
      eapply Permutation_Forall; [apply insert_desc_perm|].
      constructor; [now apply lt_asym | assumption].
    + constructor; [now constructor|].
      constructor; [assumption|].
      eapply List.Forall_impl; [|exact Hy]. intros z Hz. simpl in Hz.
      now apply (ge_trans _ (key y)).
Qed.

Lemma sort_desc_sorted (l : list A) :
  StronglySorted (fun a b => lt (key a) (key b) = false) (sort_desc key lt l).
Proof using lt_asym ge_trans.
  induction l as [|x l IH]; simpl; [constructor | now apply insert_desc_sorted].
Qed.
End SortFacts.

Ltac order_bools :=
  rewrite ?orb_true_iff, ?orb_false_iff, ?andb_true_iff, ?andb_false_iff,
    ?Z.ltb_lt, ?Z.ltb_ge, ?Z.eqb_eq, ?Z.eqb_neq in *.

Lemma key2_lt_asym (a b : Z * Z) : key2_lt a b = true -> key2_lt b a = false.
Proof. unfold key2_lt. destruct a, b; simpl. order_bools. lia. Qed.

Lemma key2_ge_trans (a b c : Z * Z) :
  key2_lt a b = false -> key2_lt b c = false -> key2_lt a c = false.
Proof. unfold key2_lt. destruct a, b, c; simpl. order_bools. lia. Qed.

Lemma key3_lt_asym (a b : bool * (Z * Z)) : key3_lt a b = true -> key3_lt b a = false.
Proof.
  unfold key3_lt, bool_lt. destruct a as [[] a], b as [[] b]; simpl;
    try discriminate; auto; apply key2_lt_asym.
Qed.

Lemma key3_ge_trans (a b c : bool * (Z * Z)) :
  key3_lt a b = false -> key3_lt b c = false -> key3_lt a c = false.
Proof.
  unfold key3_lt, bool_lt. destruct a as [[] a], b as [[] b], c as [[] c]; simpl;
    auto; try discriminate; apply key2_ge_trans.
Qed.

Lemma key2_lt_false (a b : candidate) :
  key2_lt (key2 a) (key2 b) = false <-> stars_activity_ge a b.
Proof. unfold key2_lt, key2, stars_activity_ge. simpl. order_bools. lia. Qed.

Lemma key3_lt_false (a b : candidate) :
  key3_lt (key3 a) (key3 b) = false <-> ranks_before true a b.
Proof.
  unfold key3_lt, key3, ranks_before, bool_lt. simpl fst. simpl snd.
  rewrite <- key2_lt_false.
  destruct (has_homepage a), (has_homepage b), (key2_lt (key2 a) (key2 b));
    simpl; intuition congruence.
Qed.

Lemma StronglySorted_weaken {A : Type} (R R' : A -> A -> Prop) (l : list A) :
  (forall a b, R a b -> R' a b) -> StronglySorted R l -> StronglySorted R' l.
Proof.
  intros HR. induction 1 as [|x l Hs IH Hx]; constructor; [assumption|].
  eapply List.Forall_impl; [|exact Hx]. intros b. apply HR.
Qed.

Lemma rank_candidates_perm (prefer : bool) (cands : list candidate) :
  Permutation cands (rank_candidates prefer cands).
Proof. unfold rank_candidates. destruct prefer; apply sort_desc_perm. Qed.

Lemma rank_candidates_sorted (prefer : bool) (cands : list candidate) :
  StronglySorted (ranks_before prefer) (rank_candidates prefer cands).
Proof.
  unfold rank_candidates. destruct prefer.
  - eapply StronglySorted_weaken;
      [|apply sort_desc_sorted; [apply key3_lt_asym | apply key3_ge_trans]].
    intros a b H. now apply key3_lt_false.
  - eapply StronglySorted_weaken;
      [|apply sort_desc_sorted; [apply key2_lt_asym | apply key2_ge_trans]].
    intros a b H. now apply key2_lt_false.
Qed.

Lemma rank_candidates_stable (prefer : bool) (c : candidate) (cands : list candidate) :
  List.filter (same_key prefer c) (rank_candidates prefer cands) =
  List.filter (same_key prefer c) cands.
Proof.
  unfold rank_candidates, same_key. destruct prefer; apply sort_desc_filter;
    intros a b Ha Hb;
    rewrite !andb_true_iff, ?Bool.eqb_true_iff, !Z.eqb_eq in Ha, Hb;
    unfold key3_lt, key3, key2_lt, key2, bool_lt; simpl;
    destruct Ha as [[Ha1 Ha2] Ha3], Hb as [[Hb1 Hb2] Hb3].
  - rewrite <- Ha1, <- Hb1, <- Ha2, <- Hb2, <- Ha3, <- Hb3.
    rewrite Bool.eqb_reflx, !Z.ltb_irrefl, Z.eqb_refl. now destruct (has_homepage c).
  - rewrite <- Ha2, <- Hb2, <- Ha3, <- Hb3.
    now rewrite !Z.ltb_irrefl, Z.eqb_refl.
Qed.

(** ** The rows of [build_table_rows] *)

Section PipelineFacts.
Variable lower : pystr -> pystr.
Variable parse_iso_time : pystr -> result datetime.
Variable http_user_location : pystr -> result (option pystr).

Lemma rbind_ok {A B : Type} (m : result A) (k : A -> result B) (b : B) :
  rbind m k = Ok b -> exists a, m = Ok a /\ k a = Ok b.
Proof. destruct m as [a|e]; simpl; [now exists a | discriminate]. Qed.

Lemma candidate_of_sanitized (cfg : config) (cutoff : Z) (r : repo)
  (cache cache' : gmap pystr pystr) (c : candidate) :
  candidate_of lower parse_iso_time http_user_location cfg cutoff r cache
    = Ok (Some c, cache') ->
  sanitized_row (cand_row c).
Proof.
  unfold candidate_of. intros H.
  repeat match type of H with
         | (if ?b then _ else _) = _ => destruct b; [discriminate|]
         end.
  destruct (repo_pushed_at r) as [[|p0 pushed]|]; try discriminate.
  apply rbind_ok in H as [parsed [_ H]].
  apply rbind_ok in H as [pushed_time [_ H]].
  destruct (pushed_time <? cutoff); [discriminate|].
  apply rbind_ok in H as [[owner_display cache1] [_ H]].
  destruct (require_homepage cfg && _); [discriminate|].
  injection H as <- _. simpl. unfold sanitized_row. eauto 10.
Qed.

Lemma collect_candidates_sanitized (cfg : config) (cutoff : Z) (repos : list repo) :
  forall (cache : gmap pystr pystr) (cands : list candidate),
  collect_candidates lower parse_iso_time http_user_location cfg cutoff repos cache
    = Ok cands ->
  Forall (fun c => sanitized_row (cand_row c)) cands.
Proof.
  induction repos as [|r repos IH]; simpl; intros cache cands H.
  - injection H as <-. constructor.
  - apply rbind_ok in H as [[o cache'] [H1 H]].
    apply rbind_ok in H as [rest [H2 H]]. injection H as <-.
    specialize (IH _ _ H2). destruct o as [c|]; [|assumption].
    constructor; [|assumption]. eapply candidate_of_sanitized; eassumption.
Qed.

Lemma sanitized_row_clean (r : row) (cell : pystr) :
  sanitized_row r -> In cell r -> clean_cell cell.
Proof.
  intros [c0 [c1 [c2 [c3 [c4 ->]]]]] Hin. simpl in Hin.
  repeat destruct Hin as [<- | Hin]; try apply sanitize_cell_clean. contradiction.
Qed.

Lemma normalize_row_sanitized (max_desc_len : Z) (r : row) :
  sanitized_row (normalize_row max_desc_len r).
Proof. unfold normalize_row, sanitized_row. eauto 10. Qed.

Lemma cutoff_time_ok (now pushed_days cutoff : Z) :
  cutoff_time now pushed_days = Ok cutoff ->
  cutoff = now - pushed_days * MICROSECONDS_PER_DAY /\
  DATETIME_MIN <= cutoff <= DATETIME_MAX.
Proof.
  unfold cutoff_time. destruct (_ || _); [discriminate|]. cbv zeta.
  destruct (_ || _) eqn:E; [discriminate|]. intros [= <-].
  apply orb_false_iff in E as [E1 E2]. apply Z.ltb_ge in E1, E2. split; [reflexivity | lia].
Qed.

Lemma cutoff_time_in_range (now pushed_days : Z) :
  - TIMEDELTA_MAX_DAYS <= pushed_days <= TIMEDELTA_MAX_DAYS ->
  DATETIME_MIN <= now - pushed_days * MICROSECONDS_PER_DAY <= DATETIME_MAX ->
  cutoff_time now pushed_days = Ok (now - pushed_days * MICROSECONDS_PER_DAY).
Proof.
  intros Hd Hc. unfold cutoff_time.
  assert (E1 : (pushed_days <? - TIMEDELTA_MAX_DAYS) || (TIMEDELTA_MAX_DAYS <? pushed_days)
               = false).
  { apply orb_false_iff. split; apply Z.ltb_ge; lia. }
  rewrite E1. cbv zeta.
  assert (E2 : (now - pushed_days * MICROSECONDS_PER_DAY <? DATETIME_MIN)
               || (DATETIME_MAX <? now - pushed_days * MICROSECONDS_PER_DAY) = false).
  { apply orb_false_iff. split; apply Z.ltb_ge; lia. }
  now rewrite E2.
Qed.

Lemma build_table_rows_eq (repos : list repo) (cfg : config) (now : Z)
  (rows : list row) :
  build_table_rows lower parse_iso_time http_user_location repos cfg now = Ok rows <->
  exists cands,
    cutoff_time now (pushed_within_days cfg) =
      Ok (now - pushed_within_days cfg * MICROSECONDS_PER_DAY) /\
    collect_candidates lower parse_iso_time http_user_location cfg
      (now - pushed_within_days cfg * MICROSECONDS_PER_DAY) repos ∅ = Ok cands /\
    rows = List.map cand_row
             (slice_to (rank_candidates (prefer_homepage cfg) cands) (max_new_per_run cfg)).
Proof.
  unfold build_table_rows. split.
  - intros H. apply rbind_ok in H as [cutoff [H0 H]].
    apply cutoff_time_ok in H0 as H0'. destruct H0' as [-> _].
    apply rbind_ok in H as [cands [H1 H2]]. injection H2 as <-. eauto.
  - intros [cands [H0 [H1 ->]]]. rewrite H0. simpl. now rewrite H1.
Qed.

(** With a negative [max_new_per_run] the slice drops that many rows from
    the end of the ranking. *)
Lemma build_table_rows_negative_bound (repos : list repo) (cfg : config) (now : Z)
  (cands : list candidate) :
  max_new_per_run cfg < 0 ->
  cutoff_time now (pushed_within_days cfg) =
    Ok (now - pushed_within_days cfg * MICROSECONDS_PER_DAY) ->
  collect_candidates lower parse_iso_time http_user_location cfg
    (now - pushed_within_days cfg * MICROSECONDS_PER_DAY) repos ∅ = Ok cands ->
  build_table_rows lower parse_iso_time http_user_location repos cfg now =
    Ok (firstn (length cands - Z.to_nat (- max_new_per_run cfg))
          (List.map cand_row (rank_candidates (prefer_homepage cfg) cands))).
Proof.
  intros Hneg H0 Hc. apply build_table_rows_eq. exists cands.
  split; [assumption|]. split; [assumption|].
  rewrite slice_to_negative by assumption. rewrite firstn_map. do 2 f_equal.
  f_equal. apply Permutation_length, rank_candidates_perm.
Qed.

Lemma build_table_rows_sanitized (repos : list repo) (cfg : config) (now : Z)
  (rows : list row) :
  build_table_rows lower parse_iso_time http_user_location repos cfg now = Ok rows ->
  Forall sanitized_row rows.
Proof.
  intros H. apply build_table_rows_eq in H as [cands [_ [H ->]]].
  apply collect_candidates_sanitized in H.
  apply List.Forall_forall. intros r Hr.
  apply in_map_iff in Hr as [c [<- Hc]]. apply slice_to_in in Hc.
  rewrite List.Forall_forall in H. apply H.
  eapply Permutation_in; [symmetry; apply rank_candidates_perm | exact Hc].
Qed.

End PipelineFacts.

(** ** Parsing the block *)

Lemma split_char_nonempty (sep : N) (s : pystr) : split_char sep s <> [].
Proof.
  destruct s as [|c s]; simpl; [discriminate|].
  destruct (char_eqb c sep); [discriminate|].
  destruct (split_char sep s); discriminate.
Qed.

Lemma split_char_pieces (sep : N) (s : pystr) (piece : pystr) :
  In piece (split_char sep s) ->
  ~ In sep piece /\ (forall c, In c piece -> In c s).
Proof.
  revert piece. induction s as [|c s IH]; simpl; intros piece H.
  - destruct H as [<- | []]. split; [intros [] | intros c []].
  - destruct (char_eqb c sep) eqn:E.
    + destruct H as [<- | H]; [split; [intros [] | intros x []]|].
      destruct (IH _ H) as [H1 H2]. split; [assumption | intros x Hx; right; auto].
    + apply char_eqb_neq in E.
      destruct (split_char sep s) as [|p ps] eqn:Es.
      * destruct H as [<- | []]. split.
        -- intros [Hc | []]. congruence.
        -- intros x [<- | []]. now left.
      * destruct H as [<- | H].
        -- destruct (IH p (or_introl eq_refl)) as [H1 H2]. split.
           ++ intros [Hc | Hc]; [congruence | contradiction].
           ++ intros x [<- | Hx]; [now left | right; auto].
        -- destruct (IH piece (or_intror H)) as [H1 H2].
           split; [assumption | intros x Hx; right; auto].
Qed.

Lemma splitlines_from_lines (cur s : pystr) :
  (forall c, In c cur -> is_linebreak c = false) ->
  Forall (fun line => forall c, In c line -> is_linebreak c = false)
    (splitlines_from cur s).
Proof.
  revert cur.
  induction s as [s IH] using (induction_ltof1 _ (@length N)). unfold ltof in IH.
  intros cur Hcur. destruct s as [|c s]; simpl.
  - destruct cur; constructor; [|constructor].
    intros x Hx. apply in_rev in Hx. auto.
  - destruct (is_linebreak c) eqn:E.
    + constructor; [intros x Hx; apply in_rev in Hx; auto|].
      destruct s as [|c' s'].
      * simpl. constructor.
      * destruct (char_eqb c 13 && char_eqb c' 10);
          apply IH; simpl; try lia; intros x [].
    + apply IH; [simpl; lia|]. intros x [<- | Hx]; auto.
Qed.

Lemma splitlines_lines (s : pystr) :
  Forall (fun line => forall c, In c line -> is_linebreak c = false) (splitlines s).
Proof. apply splitlines_from_lines. intros c []. Qed.

Lemma firstn_length_exact {A : Type} (n : nat) (l : list A) :
  (n <= length l)%nat -> length (firstn n l) = n.
Proof. intros H. rewrite length_firstn. lia. Qed.

Lemma parse_markdown_line_parsed (line : pystr) (r : row) :
  (forall c, In c line -> is_linebreak c = false) ->
  parse_markdown_line line = Some r -> parsed_row r.
Proof.
  intros Hline. unfold parse_markdown_line.
  destruct (negb _); [discriminate|]. destruct (startswith _ (str "|---")); [discriminate|].
  set (cols := List.map strip _).
  destruct (len cols <? 5) eqn:E; [discriminate|]. apply Z.ltb_ge in E.
  destruct (_ && _); [discriminate|]. intros H. injection H as <-.
  unfold len in E. rewrite slice_to_nonneg by lia. split.
  - apply firstn_length_exact. change (Z.to_nat 5) with 5%nat. lia.
  - apply List.Forall_forall. intros cell Hcell.
    assert (Hin : In cell cols).
    { rewrite <- (firstn_skipn (Z.to_nat 5) cols). apply in_or_app. now left. }
    apply in_map_iff in Hin as [piece [<- Hpiece]].
    apply split_char_pieces in Hpiece as [H1 H2]. repeat split.
    + intros Hc. apply strip_with_in in Hc. contradiction.
    + apply strip_with_stripped.
    + apply strip_with_stripped.
    + intros c Hc. apply Hline.
      apply strip_with_in in Hc. apply H2 in Hc.
      unfold strip_chars in Hc. apply strip_with_in in Hc.
      unfold strip in Hc. now apply strip_with_in in Hc.
Qed.

Lemma parse_markdown_rows_parsed (block : pystr) :
  Forall parsed_row (parse_markdown_rows block).
Proof.
  unfold parse_markdown_rows. pose proof (splitlines_lines block) as H.
  induction H as [|line lines Hline _ IH]; simpl; [constructor|].
  destruct (parse_markdown_line line) as [r|] eqn:E; [|assumption].
  constructor; [|assumption]. now apply (parse_markdown_line_parsed line).
Qed.

Lemma parsed_cell_fixed (cell : pystr) : parsed_cell cell -> sanitize_cell cell = cell.
Proof.
  intros [H1 [H2 H3]]. apply sanitize_cell_fixed; [|assumption].
  split; [assumption|]. intros H. apply H3 in H. discriminate.
Qed.

(** ** The merge *)

Lemma truthy_true {A : Type} (l : list A) : truthy l = true <-> l <> [].
Proof. destruct l; simpl; split; congruence. Qed.

Lemma existsb_str_eqb (u : pystr) (l : list pystr) :
  existsb (str_eqb u) l = true <-> In u l.
Proof.
  rewrite existsb_exists. split.
  - intros [x [Hx He]]. apply str_eqb_eq in He. now subst.
  - intros H. exists u. split; [assumption | now apply str_eqb_eq].
Qed.

Lemma getitem_link (r : row) :
  getitem r 3 = if has_link r then Ok (nth 3 r []) else Raise IndexError.
Proof.
  unfold getitem, has_link. destruct (3 <? length r)%nat eqn:E.
  - apply Nat.ltb_lt in E. destruct (nth_error r 3) eqn:En.
    + now rewrite (nth_error_nth _ _ _ En).
    + apply nth_error_None in En. lia.
  - apply Nat.ltb_ge in E. apply nth_error_None in E. now rewrite E.
Qed.

Lemma parsed_row_has_link (r : row) : parsed_row r -> has_link r = true.
Proof. intros [H _]. unfold has_link. rewrite H. reflexivity. Qed.

Lemma existing_urls_of_ok (existing_rows : list row) :
  forallb has_link existing_rows = true ->
  exists urls : gset pystr,
    existing_urls_of existing_rows = Ok urls /\
    forall u, u ∈ urls <-> u <> [] /\ In u (List.map row_url existing_rows).
Proof.
  induction existing_rows as [|r rows IH]; simpl; intros H.
  - exists ∅. split; [reflexivity|]. intros u. split; [set_solver | tauto].
  - apply andb_true_iff in H as [Hr Hrows].
    destruct (IH Hrows) as [urls [-> Hurls]].
    rewrite getitem_link, Hr. simpl. fold (row_url r).
    destruct (truthy (row_url r)) eqn:E; eexists; (split; [reflexivity|]); intros u.
    + apply truthy_true in E. rewrite elem_of_union, elem_of_singleton, Hurls.
      split; [intros [-> | [H1 H2]]; auto | intros [H1 [<- | H2]]; auto].
    + rewrite Hurls. destruct (row_url r); [|discriminate].
      split; [intros [H1 H2]; auto | intros [H1 [<- | H2]]; [congruence | auto]].
Qed.

Lemma filter_new_eq (existing_rows new_rows : list row) (urls : gset pystr) :
  (forall u, u ∈ urls <-> u <> [] /\ In u (List.map row_url existing_rows)) ->
  filter_new urls new_rows =
    if forallb has_link new_rows then Ok (kept_new existing_rows new_rows)
    else Raise IndexError.
Proof.
  intros Hurls. induction new_rows as [|r rows IH]; simpl; [reflexivity|].
  rewrite getitem_link. destruct (has_link r); simpl; [|reflexivity].
  rewrite IH. destruct (forallb has_link rows); simpl; [|reflexivity].
  f_equal. fold (row_url r). unfold url_taken.
  assert (Hd : bool_decide (row_url r ∈ urls) =
               truthy (row_url r) &&
               existsb (str_eqb (row_url r)) (List.map row_url existing_rows)).
  { apply eq_true_iff_eq. rewrite bool_decide_eq_true, Hurls, andb_true_iff,
      truthy_true, existsb_str_eqb. reflexivity. }
  rewrite Hd. now destruct (truthy (row_url r)), (existsb _ _).
Qed.

Section MergeFacts.
Variable lower : pystr -> pystr.

Lemma prune_rows_incl (rows : list row) (kws : list pystr) (prune : bool) (r : row) :
  In r (prune_rows lower rows kws prune) -> In r rows.
Proof.
  unfold prune_rows. destruct (prune && truthy kws); [|auto].
  intros H. now apply filter_In in H.
Qed.

Lemma existing_rows_of_parsed (content : pystr) (start end_ : Z) (kws : list pystr)
  (prune : bool) :
  Forall parsed_row (existing_rows_of lower content start end_ kws prune).
Proof.
  unfold existing_rows_of. apply List.Forall_forall. intros r Hr.
  apply prune_rows_incl in Hr. revert r Hr. apply List.Forall_forall.
  apply parse_markdown_rows_parsed.
Qed.

(** What [merge_readme] computes, once the markers are found: the new
    rows that pass the dedup step are put in front of the existing rows,
    every row is normalized and the list is cut to [max_total]. *)
Lemma merge_readme_eq (content : pystr) (new_rows : list row)
  (max_total max_desc_len : Z) (kws : list pystr) (prune : bool) :
  merge_readme lower content new_rows max_total max_desc_len kws prune =
    match locate_markers content with
    | Raise e => Raise e
    | Ok (start, end_) =>
        let existing_rows := existing_rows_of lower content start end_ kws prune in
        let added := kept_new existing_rows new_rows in
        let merged := cap_rows max_total (normalized_rows max_desc_len added existing_rows) in
        if forallb has_link new_rows
        then Ok (added, merged, splice content start end_ merged)
        else Raise IndexError
    end.
Proof.
  unfold merge_readme. destruct (locate_markers content) as [[start end_]|e]; [|reflexivity].
  simpl.
  destruct (existing_urls_of_ok (existing_rows_of lower content start end_ kws prune))
    as [urls [-> Hurls]].
  - apply forallb_forall. intros r Hr. apply parsed_row_has_link.
    revert r Hr. apply List.Forall_forall, existing_rows_of_parsed.
  - simpl. rewrite (filter_new_eq _ _ _ Hurls).
    now destruct (forallb has_link new_rows).
Qed.

Lemma update_readme_eq (path : pystr) (new_rows : list row)
  (max_total max_desc_len : Z) (kws : list pystr) (prune : bool) (fs : file_system) :
  update_readme lower path new_rows max_total max_desc_len kws prune fs =
    match fs !! path with
    | None => (Raise FileNotFoundError, fs)
    | Some content =>
        match merge_readme lower content new_rows max_total max_desc_len kws prune with
        | Raise e => (Raise e, fs)
        | Ok (added, _, new_content) => (Ok (len added), <[path := new_content]> fs)
        end
    end.
Proof. unfold update_readme, read_text, write_text. now destruct (fs !! path). Qed.

End MergeFacts.

(** ** Claims on [update_readme] *)

Section MarkersAndBound.
Variable lower : pystr -> pystr.

(** C5.  When the document lacks one of the two markers, or the first end
    marker lies before the first start marker, [update_readme] raises
    [RuntimeError] and the file system is the one it was given; and
    whatever exception [update_readme] raises, the file system is the one
    it was given: nothing is written before the only write, which is the
    last step. *)
Theorem update_readme_fails_before_write (path : pystr) (new_rows : list row)
  (max_total max_desc_len : Z) (kws : list pystr) (prune : bool) (fs : file_system) :
  (forall content,
     fs !! path = Some content ->
     contains content AUTO_START = false \/
     contains content AUTO_END = false \/
     find content AUTO_END < find content AUTO_START ->
     update_readme lower path new_rows max_total max_desc_len kws prune fs =
       (Raise (RuntimeError MSG_NO_MARKERS), fs)) /\
  (forall e fs',
     update_readme lower path new_rows max_total max_desc_len kws prune fs =
       (Raise e, fs') ->
     fs' = fs).
Proof.
  split.
  - intros content Hfs Hm. rewrite update_readme_eq, Hfs.
    unfold merge_readme, locate_markers.
    assert (Hb : (find content AUTO_START =? -1) || (find content AUTO_END =? -1)
                 || (find content AUTO_END <? find content AUTO_START) = true).
    { rewrite !orb_true_iff, !Z.eqb_eq, Z.ltb_lt, !find_absent. tauto. }
    now rewrite Hb.
  - intros e fs'. rewrite update_readme_eq.
    destruct (fs !! path) as [content|]; [|now intros [= _ <-]].
    destruct (merge_readme _ _ _ _ _ _ _) as [[[added merged] doc]|e'];
      [discriminate | now intros [= _ <-]].
Qed.

(** C2.  When the file exists, its markers are found and every new row has
    a link cell, [update_readme] succeeds; with a positive [max_total] the
    table it writes is the first [max_total] rows of the normalized new
    rows followed by the normalized existing rows, hence at most
    [max_total] rows. *)
Theorem update_readme_bounded (path : pystr) (new_rows : list row)
  (max_total max_desc_len : Z) (kws : list pystr) (prune : bool) (fs : file_system)
  (content : pystr) (start end_ : Z) :
  0 < max_total ->
  fs !! path = Some content ->
  locate_markers content = Ok (start, end_) ->
  forallb has_link new_rows = true ->
  let existing_rows := existing_rows_of lower content start end_ kws prune in
  let added := kept_new existing_rows new_rows in
  let table :=
    firstn (Z.to_nat max_total)
      (List.map (normalize_row max_desc_len) added ++
       List.map (normalize_row max_desc_len) existing_rows) in
  update_readme lower path new_rows max_total max_desc_len kws prune fs =
    (Ok (len added), <[path := splice content start end_ table]> fs) /\
  len table <= max_total.
Proof.
  intros Hmax Hfs Hloc Hlinks existing_rows added table.
  assert (Hcap : cap_rows max_total (normalized_rows max_desc_len added existing_rows)
                 = table).
  { unfold cap_rows, normalized_rows, table. rewrite <- map_app.
    destruct (negb (max_total =? 0) && _) eqn:E.
    - apply slice_to_nonneg. lia.
    - apply andb_false_iff in E as [E | E].
      + apply negb_false_iff, Z.eqb_eq in E. lia.
      + rewrite firstn_all2; [reflexivity|]. unfold len in E.
        assert (H : ~ Z.of_nat (length (List.map (normalize_row max_desc_len)
                                         (added ++ existing_rows))) > max_total).
        { intros H. apply Z.gtb_gt in H. congruence. }
        lia. }
  split.
  - rewrite update_readme_eq, Hfs, merge_readme_eq, Hloc. simpl.
    rewrite Hlinks. fold existing_rows. fold added. now rewrite Hcap.
  - unfold table, len. rewrite length_firstn. lia.
Qed.

End MarkersAndBound.

(** A document without markers. *)
Lemma update_readme_fails_before_write_witness :
  update_readme ascii_lower README [row_foo] 0 0 [] false
    {[ README := str "# Projects without markers" ]} =
  (Raise (RuntimeError MSG_NO_MARKERS), {[ README := str "# Projects without markers" ]}).
Proof.
  apply (proj1 (update_readme_fails_before_write ascii_lower README [row_foo] 0 0 []
                  false {[ README := str "# Projects without markers" ]})
           (str "# Projects without markers")).
  - reflexivity.
  - left. reflexivity.
Defined.


(** The scenario of the specification: the table holds foo; of the new
    rows bar and foo only bar is added, in front; with [max_total = 1] the
    table that is written holds bar alone. *)
Lemma update_readme_bounded_witness :
  update_readme ascii_lower README [row_bar; row_foo] 1 0 [] false
    {[ README := readme_with [line_foo] ]} =
  (Ok 1, {[ README := readme_with [TABLE_HEADER; TABLE_DIVIDER; line_bar] ]}).
Proof.
  pose proof (update_readme_bounded ascii_lower README [row_bar; row_foo] 1 0 [] false
                {[ README := readme_with [line_foo] ]} (readme_with [line_foo]) 11 101)
    as H.
  destruct H as [H _]; [lia | reflexivity | reflexivity | reflexivity |].
  rewrite H. vm_compute. reflexivity.
Defined.

(** On a row read from the block, normalization leaves the first four
    cells as they are and re-truncates and re-sanitizes the description. *)
Lemma normalize_row_parsed (max_desc_len : Z) (r : row) :
  parsed_row r ->
  normalize_row max_desc_len r =
    firstn 4 r ++ [sanitize_cell (truncate_text (nth 4 r []) max_desc_len)].
Proof.
  intros [Hlen Hcells].
  destruct r as [|c0 [|c1 [|c2 [|c3 [|c4 [|c5 r]]]]]]; try discriminate.
  unfold normalize_row. simpl.
  repeat (apply Forall_cons_iff in Hcells as [?H Hcells]).
  now rewrite !parsed_cell_fixed by assumption.
Qed.

Section NoNewRows.
Variable lower : pystr -> pystr.

(** C3 (amended).  With no new rows and the markers in place,
    [update_readme] adds nothing and writes the existing rows that survive
    the pruning, each normalized, cut to [max_total]; when the pruning is
    off and [max_total] is 0 or not exceeded, these are all the rows of
    the existing table, each with its first four cells unchanged and its
    description truncated and sanitized again. *)
Theorem update_readme_no_new_rows (path : pystr) (max_total max_desc_len : Z)
  (kws : list pystr) (prune : bool) (fs : file_system) (content : pystr)
  (start end_ : Z) :
  fs !! path = Some content ->
  locate_markers content = Ok (start, end_) ->
  let parsed := parse_markdown_rows (slice content (start + len AUTO_START) end_) in
  let table :=
    cap_rows max_total
      (List.map (normalize_row max_desc_len) (prune_rows lower parsed kws prune)) in
  update_readme lower path [] max_total max_desc_len kws prune fs =
    (Ok 0, <[path := splice content start end_ table]> fs) /\
  (prune && truthy kws = false ->
   max_total = 0 \/ len parsed <= max_total ->
   table = List.map (normalize_row max_desc_len) parsed) /\
  (forall r, In r parsed ->
     normalize_row max_desc_len r =
       firstn 4 r ++ [sanitize_cell (truncate_text (nth 4 r []) max_desc_len)]).
Proof.
  intros Hfs Hloc parsed table. repeat split.
  - rewrite update_readme_eq, Hfs, merge_readme_eq, Hloc. reflexivity.
  - intros Hprune Hmax. unfold table, prune_rows, cap_rows. rewrite Hprune.
    unfold len in *. rewrite length_map.
    destruct Hmax as [-> | Hmax]; [reflexivity|].
    destruct (Z.of_nat (length parsed) >? max_total) eqn:E;
      [apply Z.gtb_gt in E; lia | now rewrite andb_false_r].
  - intros r Hr. apply normalize_row_parsed. revert r Hr.
    apply List.Forall_forall, parse_markdown_rows_parsed.
Qed.

End NoNewRows.

(** Without cut and without pruning a complete table is written back as
    it was. *)
Lemma update_readme_no_new_rows_witness :
  update_readme ascii_lower README [] 0 0 [] false
    {[ README := readme_with [TABLE_HEADER; TABLE_DIVIDER; line_foo; line_bar] ]} =
  (Ok 0, {[ README := readme_with [TABLE_HEADER; TABLE_DIVIDER; line_foo; line_bar] ]}).
Proof.
  pose proof (update_readme_no_new_rows ascii_lower README 0 0 [] false
                {[ README := readme_with [TABLE_HEADER; TABLE_DIVIDER; line_foo; line_bar] ]}
                (readme_with [TABLE_HEADER; TABLE_DIVIDER; line_foo; line_bar]) 11 212
                eq_refl eq_refl) as H.
  cbv zeta in H. destruct H as [H _].
  rewrite H. vm_compute. reflexivity.
Defined.

(** C3 as stated fails: with [max_total = 1] and two rows in the table, a
    run without new rows writes a table of one row, not the two existing
    rows normalized. *)
Lemma update_readme_no_new_rows_cuts_table :
  update_readme ascii_lower README [] 1 0 [] false
    {[ README := readme_with [TABLE_HEADER; TABLE_DIVIDER; line_foo; line_bar] ]} =
  (Ok 0, {[ README := readme_with [TABLE_HEADER; TABLE_DIVIDER; line_foo] ]}) /\
  List.map (normalize_row 0)
    (parse_markdown_rows
       (slice (readme_with [TABLE_HEADER; TABLE_DIVIDER; line_foo; line_bar])
          (11 + len AUTO_START) 212))
  = [row_foo; row_bar] /\
  readme_with [TABLE_HEADER; TABLE_DIVIDER; line_foo] <>
  readme_with [TABLE_HEADER; TABLE_DIVIDER; line_foo; line_bar].
Proof. repeat split; try (vm_compute; reflexivity). vm_compute. discriminate. Qed.

(** ** URLs in the merged table *)

Lemma filter_sublist {A : Type} (p : A -> bool) (l : list A) :
  sublist (List.filter p l) l.
Proof.
  induction l as [|x l IH]; simpl; [constructor|].
  destruct (p x); now constructor.
Qed.

Lemma sublist_In {A : Type} (l1 l2 : list A) (x : A) :
  sublist l1 l2 -> In x l1 -> In x l2.
Proof.
  induction 1 as [|y l1 l2 _ IH|y l1 l2 _ IH]; simpl; [auto| |].
  - intros [H | H]; auto.
  - auto.
Qed.

Lemma sublist_urls_in (l1 l2 : list row) (u : pystr) :
  sublist l1 l2 ->
  In u (List.filter truthy (List.map row_url l1)) ->
  In u (List.filter truthy (List.map row_url l2)).
Proof.
  induction 1 as [|x l1 l2 _ IH|x l1 l2 _ IH]; simpl; [auto| |].
  - destruct (truthy (row_url x)); simpl; [intros [H | H]; auto | auto].
  - destruct (truthy (row_url x)); simpl; auto.
Qed.

Lemma sublist_distinct_urls (l1 l2 : list row) :
  sublist l1 l2 -> distinct_urls l2 -> distinct_urls l1.
Proof.
  unfold distinct_urls.
  induction 1 as [|x l1 l2 Hsub IH|x l1 l2 Hsub IH]; simpl; [auto| |].
  - destruct (truthy (row_url x)); [|assumption].
    intros Hnd. apply NoDup_cons in Hnd as [Hx Hnd]. apply NoDup_cons. split.
    + intros Hin. apply Hx. apply list_elem_of_In in Hin. apply list_elem_of_In.
      eapply sublist_urls_in; eassumption.
    + now apply IH.
  - destruct (truthy (row_url x)); [|assumption].
    intros Hnd. apply NoDup_cons in Hnd as [_ Hnd]. now apply IH.
Qed.

Lemma row_url_normalize (max_desc_len : Z) (r : row) :
  has_link r = true -> link_sanitized r ->
  row_url (normalize_row max_desc_len r) = row_url r.
Proof.
  unfold has_link, link_sanitized, row_url. intros Hlen Hs. apply Nat.ltb_lt in Hlen.
  unfold normalize_row. cbn [nth].
  rewrite slice_to_nonneg by lia. change (Z.to_nat 5) with 5%nat.
  rewrite nth_firstn. change (3 <? 5)%nat with true. cbv iota.
  rewrite app_nth1 by assumption. now rewrite Hs.
Qed.

Lemma parsed_row_link_sanitized (r : row) : parsed_row r -> link_sanitized r.
Proof.
  intros [Hlen Hcells]. unfold link_sanitized. apply parsed_cell_fixed.
  rewrite List.Forall_forall in Hcells. apply Hcells, nth_In. lia.
Qed.

Lemma map_row_url_normalize (max_desc_len : Z) (rows : list row) :
  Forall (fun r => has_link r = true /\ link_sanitized r) rows ->
  List.map row_url (List.map (normalize_row max_desc_len) rows) = List.map row_url rows.
Proof.
  induction 1 as [|r rows [H1 H2] _ IH]; simpl; [reflexivity|].
  now rewrite row_url_normalize, IH.
Qed.

Lemma cap_rows_sublist (max_total : Z) (rows : list row) :
  sublist (cap_rows max_total rows) rows.
Proof.
  unfold cap_rows, slice_to. destruct (_ && _); [apply sublist_take | reflexivity].
Qed.

Lemma kept_new_not_taken (existing_rows new_rows : list row) (r : row) :
  In r (kept_new existing_rows new_rows) ->
  In r new_rows /\
  (row_url r = [] \/ ~ In (row_url r) (List.map row_url existing_rows)).
Proof.
  unfold kept_new, url_taken. intros H. apply filter_In in H as [H1 H2].
  split; [assumption|]. apply negb_true_iff, andb_false_iff in H2 as [H2 | H2].
  - left. now destruct (row_url r).
  - right. intros Hin. apply existsb_str_eqb in Hin. congruence.
Qed.

Lemma kept_new_url_less (existing_rows new_rows : list row) (r : row) :
  In r new_rows -> row_url r = [] -> In r (kept_new existing_rows new_rows).
Proof.
  intros Hin Hurl. unfold kept_new, url_taken. apply filter_In.
  split; [assumption|]. now rewrite Hurl.
Qed.

Lemma in_filter_truthy_urls (rows : list row) (u : pystr) :
  In u (List.filter truthy (List.map row_url rows)) <->
  u <> [] /\ exists r, In r rows /\ row_url r = u.
Proof.
  rewrite filter_In, in_map_iff, truthy_true. split.
  - intros [[r [H1 H2]] H3]. eauto.
  - intros [H1 [r [H2 H3]]]. eauto.
Qed.

Section Dedup.
Variable lower : pystr -> pystr.

(** C1 (amended).  The dedup step compares each new row with the existing
    rows only, and only when the new row has a URL.  So: when no URL
    occurs twice among the existing rows, none occurs twice among the new
    rows, and the link cells of the new rows are already sanitized (so
    that normalization leaves their URLs alone), then no URL occurs twice
    in the table that [update_readme] writes.  In every case, a new row
    that is added and has a URL has the URL of no existing row. *)
Theorem update_readme_distinct_urls (path : pystr) (new_rows : list row)
  (max_total max_desc_len : Z) (kws : list pystr) (prune : bool) (fs : file_system)
  (content : pystr) (start end_ : Z) :
  fs !! path = Some content ->
  locate_markers content = Ok (start, end_) ->
  forallb has_link new_rows = true ->
  let existing_rows := existing_rows_of lower content start end_ kws prune in
  let added := kept_new existing_rows new_rows in
  let table := cap_rows max_total (normalized_rows max_desc_len added existing_rows) in
  update_readme lower path new_rows max_total max_desc_len kws prune fs =
    (Ok (len added), <[path := splice content start end_ table]> fs) /\
  (forall r, In r added -> row_url r <> [] ->
     ~ In (row_url r) (List.map row_url existing_rows)) /\
  (distinct_urls existing_rows -> distinct_urls new_rows ->
   Forall link_sanitized new_rows -> distinct_urls table).
Proof.
  intros Hfs Hloc Hlinks existing_rows added table. repeat split.
  - rewrite update_readme_eq, Hfs, merge_readme_eq, Hloc. simpl. now rewrite Hlinks.
  - intros r Hr Hurl. apply kept_new_not_taken in Hr as [_ [Hr | Hr]]; tauto.
  - intros Hex Hnew Hsan.
    apply (sublist_distinct_urls _ _ (cap_rows_sublist _ _)).
    unfold distinct_urls, normalized_rows. rewrite map_row_url_normalize.
    + rewrite map_app, List.filter_app. apply NoDup_app. repeat split.
      * apply (sublist_distinct_urls _ new_rows); [apply filter_sublist | assumption].
      * intros u Hu Hu'. apply list_elem_of_In in Hu, Hu'.
        apply in_filter_truthy_urls in Hu as [Hne [r [Hr <-]]].
        apply filter_In in Hu' as [Hu' _].
        apply kept_new_not_taken in Hr as [_ [Hr | Hr]]; tauto.
      * assumption.
    + apply Forall_app. split; apply List.Forall_forall; intros r Hr.
      * apply filter_In in Hr as [Hr _]. split.
        -- rewrite forallb_forall in Hlinks. now apply Hlinks.
        -- rewrite List.Forall_forall in Hsan. now apply Hsan.
      * pose proof (existing_rows_of_parsed lower content start end_ kws prune) as Hp.
        rewrite List.Forall_forall in Hp. specialize (Hp r Hr).
        split; [now apply parsed_row_has_link | now apply parsed_row_link_sanitized].
Qed.

(** C10 (amended).  A new row from whose link cell [extract_url] reads no
    URL is never dropped by the dedup step, whatever the table holds: it
    is among the rows added and counted, and its normalized form is in the
    table that is written unless the cut to [max_total] removes it, which
    cannot happen when [max_total] is 0 or at least the number of added
    rows.  Two runs with the same such row leave two copies of it. *)
Theorem update_readme_keeps_rows_without_url (path : pystr) (new_rows : list row)
  (max_total max_desc_len : Z) (kws : list pystr) (prune : bool) (fs : file_system)
  (content : pystr) (start end_ : Z) (r : row) :
  fs !! path = Some content ->
  locate_markers content = Ok (start, end_) ->
  forallb has_link new_rows = true ->
  In r new_rows ->
  extract_url (nth 3 r []) = [] ->
  let existing_rows := existing_rows_of lower content start end_ kws prune in
  let added := kept_new existing_rows new_rows in
  let table := cap_rows max_total (normalized_rows max_desc_len added existing_rows) in
  update_readme lower path new_rows max_total max_desc_len kws prune fs =
    (Ok (len added), <[path := splice content start end_ table]> fs) /\
  In r added /\
  (max_total = 0 \/ len added <= max_total -> In (normalize_row max_desc_len r) table) /\
  update_readme ascii_lower README [row_plain] 0 0 [] false
    (snd (update_readme ascii_lower README [row_plain] 0 0 [] false
            {[ README := readme_with [] ]})) =
  (Ok 1, {[ README := readme_with [TABLE_HEADER; TABLE_DIVIDER; line_plain; line_plain] ]}).
Proof.
  intros Hfs Hloc Hlinks Hin Hurl existing_rows added table.
  assert (Hadded : In r added) by now apply kept_new_url_less.
  split; [|split; [|split]].
  - rewrite update_readme_eq, Hfs, merge_readme_eq, Hloc. simpl. now rewrite Hlinks.
  - assumption.
  - intros Hmax. unfold table, cap_rows, normalized_rows.
    assert (Hall : In (normalize_row max_desc_len r)
                     (List.map (normalize_row max_desc_len) (added ++ existing_rows))).
    { apply in_map, in_or_app. now left. }
    destruct (negb (max_total =? 0) && _) eqn:E; [|assumption].
    apply andb_true_iff in E as [E _]. apply negb_true_iff, Z.eqb_neq in E.
    destruct Hmax as [Hmax | Hmax]; [contradiction|].
    pose proof (len_nonneg added). rewrite slice_to_nonneg by lia.
    rewrite map_app, firstn_app. apply in_or_app. left.
    rewrite firstn_all2; [now apply in_map|]. rewrite length_map. unfold len in Hmax. lia.
  - vm_compute. reflexivity.
Qed.

End Dedup.

(** The table holds foo; bar and foo are new. *)
Lemma update_readme_distinct_urls_witness :
  distinct_urls
    (cap_rows 0
       (normalized_rows 0
          (kept_new (existing_rows_of ascii_lower (readme_with [line_foo]) 11 101 [] false)
             [row_bar; row_foo])
          (existing_rows_of ascii_lower (readme_with [line_foo]) 11 101 [] false))).
Proof.
  destruct (update_readme_distinct_urls ascii_lower README [row_bar; row_foo] 0 0 []
              false {[ README := readme_with [line_foo] ]} (readme_with [line_foo])
              11 101) as [_ [_ H]]; try reflexivity.
  apply H.
  - apply (bool_decide_unpack _). vm_compute. reflexivity.
  - apply (bool_decide_unpack _). vm_compute. reflexivity.
  - repeat constructor.
Defined.

(** C1 as stated fails: two new rows with one URL, neither of them in the
    table, are both added. *)
Lemma update_readme_repeats_url :
  merge_readme ascii_lower (readme_with []) [row_foo; row_foo_mirror] 0 0 [] false =
    Ok ([row_foo; row_foo_mirror], [row_foo; row_foo_mirror],
        readme_with (TABLE_HEADER :: TABLE_DIVIDER ::
                     List.map render_row [row_foo; row_foo_mirror])) /\
  row_url row_foo = row_url row_foo_mirror /\
  row_url row_foo = str "https://x.com/a/foo" /\
  row_foo <> row_foo_mirror.
Proof. repeat split; try (vm_compute; reflexivity). discriminate. Qed.

(** The row without URL is in the table already and is added again. *)
Lemma update_readme_keeps_rows_without_url_witness :
  In (normalize_row 0 row_plain)
    (cap_rows 0
       (normalized_rows 0
          (kept_new (existing_rows_of ascii_lower (readme_with [line_plain]) 11 78 [] false)
             [row_plain])
          (existing_rows_of ascii_lower (readme_with [line_plain]) 11 78 [] false))).
Proof.
  destruct (update_readme_keeps_rows_without_url ascii_lower README [row_plain] 0 0 []
              false {[ README := readme_with [line_plain] ]} (readme_with [line_plain])
              11 78 row_plain) as [_ [_ [H _]]]; try reflexivity.
  - now left.
  - apply H. now left.
Defined.

(** C10 as stated fails: of two new rows without URL, the cut to
    [max_total = 1] keeps the first only; the second is counted as added
    and is not in the table. *)
Lemma update_readme_cuts_row_without_url :
  merge_readme ascii_lower (readme_with []) [row_plain; row_plain2] 1 0 [] false =
    Ok ([row_plain; row_plain2], [row_plain],
        readme_with [TABLE_HEADER; TABLE_DIVIDER; line_plain]) /\
  extract_url (nth 3 row_plain2 []) = [] /\
  ~ In (normalize_row 0 row_plain2) [row_plain].
Proof.
  repeat split; try (vm_compute; reflexivity).
  intros [H | []]. vm_compute in H. discriminate.
Qed.

(** ** Claims on classification, ranking and sanitization *)

Section PipelineClaims.
Variable lower : pystr -> pystr.
Variable parse_iso_time : pystr -> result datetime.
Variable http_user_location : pystr -> result (option pystr).

Lemma category_matches_iff (r : repo) (c : category) :
  category_matches lower (haystack_of lower r) c = true <-> rule_matches lower r c.
Proof.
  unfold category_matches, rule_matches, haystack_of. fold (search_text r).
  rewrite existsb_exists. split.
  - intros [kw [Hin Hc]]. apply contains_iff in Hc as [pre [post Hc]]. eauto 6.
  - intros [kw [pre [post [Hin Hc]]]]. exists kw. split; [assumption|].
    apply contains_iff. eauto.
Qed.

(** C7.  [classify_category] is a function of the record, the rules and
    the default.  It returns the default when no rule has a keyword that
    occurs, lower-cased, in the lower-cased search text; otherwise it
    returns the name of the first such rule in the order of the list (the
    default, should that rule carry no name). *)
Theorem classify_category_first_match (r : repo) (cats : list category)
  (default : pystr) :
  ((forall c, In c cats -> ~ rule_matches lower r c) ->
   classify_category lower r cats default = default) /\
  (forall before c after,
     cats = before ++ c :: after ->
     (forall c', In c' before -> ~ rule_matches lower r c') ->
     rule_matches lower r c ->
     classify_category lower r cats default =
       match category_name c with
       | Some name => name
       | None => default
       end).
Proof.
  unfold classify_category. split.
  - induction cats as [|c cats IH]; simpl; intros H; [reflexivity|].
    destruct (category_matches lower (haystack_of lower r) c) eqn:E.
    + apply category_matches_iff in E. exfalso. apply (H c); auto.
    + apply IH. intros c' Hc'. apply H. now right.
  - intros before c after -> Hbefore Hc.
    induction before as [|b before IH]; simpl.
    + apply category_matches_iff in Hc. now rewrite Hc.
    + destruct (category_matches lower (haystack_of lower r) b) eqn:E.
      * apply category_matches_iff in E. exfalso. apply (Hbefore b); [now left | assumption].
      * apply IH. intros c' Hc'. apply Hbefore. now right.
Qed.

(** C6.  The ranking is a permutation of the candidates in descending
    order of (has-homepage, stars, last activity) when [prefer_homepage]
    is set and of (stars, last activity) otherwise; candidates with the
    same key keep their order; when the cut-off date can be computed and
    the candidates are collected without exception, [build_table_rows]
    returns the rows of the slice [[:max_new]] of the ranked candidates,
    which is the first [max_new] of them for a bound that is not negative
    (and all but the last [- max_new] for a negative one).  Of a candidate
    with 100 stars and no home page and one with 50 stars and a home page,
    the second comes first with [prefer_homepage] and the first comes
    first without. *)
Theorem build_table_rows_ranking :
  (forall prefer cands,
     Permutation cands (rank_candidates prefer cands) /\
     StronglySorted (ranks_before prefer) (rank_candidates prefer cands) /\
     (forall c, List.filter (same_key prefer c) (rank_candidates prefer cands) =
                List.filter (same_key prefer c) cands)) /\
  (forall repos cfg now cutoff cands,
     cutoff_time now (pushed_within_days cfg) = Ok cutoff ->
     collect_candidates lower parse_iso_time http_user_location cfg cutoff repos ∅
       = Ok cands ->
     let ranked := rank_candidates (prefer_homepage cfg) cands in
     build_table_rows lower parse_iso_time http_user_location repos cfg now =
       Ok (List.map cand_row (slice_to ranked (max_new_per_run cfg))) /\
     (0 <= max_new_per_run cfg ->
      slice_to ranked (max_new_per_run cfg) =
        firstn (Z.to_nat (max_new_per_run cfg)) ranked) /\
     (max_new_per_run cfg < 0 ->
      slice_to ranked (max_new_per_run cfg) =
        firstn (length ranked - Z.to_nat (- max_new_per_run cfg)) ranked)) /\
  (forall ra rb ta tb,
     let a := candidate_100 ra ta in
     let b := candidate_50_homepage rb tb in
     rank_candidates true [a; b] = [b; a] /\ rank_candidates true [b; a] = [b; a] /\
     rank_candidates false [a; b] = [a; b] /\ rank_candidates false [b; a] = [a; b]).
Proof.
  split; [|split].
  - intros prefer cands. split; [apply rank_candidates_perm|].
    split; [apply rank_candidates_sorted | intros c; apply rank_candidates_stable].
  - intros repos cfg now cutoff cands H0 Hc ranked.
    pose proof (cutoff_time_ok _ _ _ H0) as [-> _].
    split; [|split].
    + apply build_table_rows_eq. exists cands. auto.
    + intros Hmax. now apply slice_to_nonneg.
    + intros Hneg. now apply slice_to_negative.
  - intros ra rb ta tb. repeat split.
Qed.

(** C9.  [sanitize_cell] replaces every pipe by the full-width solidus and
    every newline by a space and strips the result, which therefore holds
    no pipe and no newline; so do all cells of the rows of
    [build_table_rows], of [normalize_row] and of the table that
    [update_readme] writes.  "a|b\nc" becomes "a／b c". *)
Theorem sanitize_cell_no_pipe_no_newline :
  (forall text,
     sanitize_cell text =
       strip (List.map (fun c => if char_eqb c PIPE then FULLWIDTH_SOLIDUS
                                 else if char_eqb c NEWLINE then SPACE else c) text) /\
     clean_cell (sanitize_cell text)) /\
  (forall repos cfg now rows r cell,
     build_table_rows lower parse_iso_time http_user_location repos cfg now = Ok rows ->
     In r rows -> In cell r -> clean_cell cell) /\
  (forall max_desc_len r cell,
     In cell (normalize_row max_desc_len r) -> clean_cell cell) /\
  (forall content new_rows max_total max_desc_len kws prune added table new_content r cell,
     merge_readme lower content new_rows max_total max_desc_len kws prune =
       Ok (added, table, new_content) ->
     In r table -> In cell r -> clean_cell cell) /\
  sanitize_cell [97; 124; 98; 10; 99]%N = [97; 65295; 98; 32; 99]%N.
Proof.
  split; [|split; [|split; [|split]]].
  - intros text. split; [|apply sanitize_cell_clean].
    unfold sanitize_cell, replace_char. rewrite map_map. f_equal.
    apply map_ext. intros c. destruct (char_eqb c PIPE) eqn:E; [reflexivity|].
    reflexivity.
  - intros repos cfg now rows r cell H Hr Hcell.
    apply build_table_rows_sanitized in H. rewrite List.Forall_forall in H.
    eapply sanitized_row_clean; eauto.
  - intros m r cell. apply sanitized_row_clean, normalize_row_sanitized.
  - intros content new_rows max_total m kws prune added table doc r cell H Hr.
    rewrite merge_readme_eq in H.
    destruct (locate_markers content) as [[start end_]|]; [|discriminate].
    simpl in H. destruct (forallb has_link new_rows); [|discriminate].
    injection H as _ <- _.
    apply (sublist_In _ _ _ (cap_rows_sublist _ _)) in Hr.
    apply in_map_iff in Hr as [r0 [<- _]].
    apply sanitized_row_clean, normalize_row_sanitized.
  - reflexivity.
Qed.

End PipelineClaims.

(** Both rules match the repository; the first in the list wins. *)
Lemma classify_category_first_match_witness :
  classify_category ascii_lower repo_popular [rule_ai; rule_chat] (str "Other") = str "AI" /\
  classify_category ascii_lower repo_popular [rule_chat; rule_ai] (str "Other") = str "Chat".
Proof.
  split.
  - apply (proj2 (classify_category_first_match ascii_lower repo_popular
                    [rule_ai; rule_chat] (str "Other")) [] rule_ai [rule_chat]).
    + reflexivity.
    + intros c' [].
    + exists (str "AI"), [], (str "-chat an ai chat|bot for everyone chatbot").
      split; [right; now left | reflexivity].
  - apply (proj2 (classify_category_first_match ascii_lower repo_popular
                    [rule_chat; rule_ai] (str "Other")) [] rule_chat [rule_ai]).
    + reflexivity.
    + intros c' [].
    + exists (str "chat"), (str "ai-"), (str " an ai chat|bot for everyone chatbot").
      split; [now left | reflexivity].
Defined.

(** With [prefer_homepage] the repository with 50 stars and a home page
    comes before the one with 100 stars and none. *)
Lemma build_table_rows_ranking_witness :
  build_table_rows ascii_lower sample_parse_iso_time sample_http_user_location
    [repo_popular; repo_homepage_50] (sample_config true) sample_now =
  Ok [ [str "Other"; str "bob(Paris)"; str "notes"; str "[notes](https://notes.example)";
        NO_DESCRIPTION];
       [str "AI"; str "alice(Paris)"; str "ai-chat";
        str "[ai-chat](https://github.com/alice/ai-chat)"; str "An AI cha..."] ].
Proof.
  assert (H0 : cutoff_time sample_now (pushed_within_days (sample_config true))
               = Ok 1686873600000000)
    by (vm_compute; reflexivity).
  eassert (Hc : collect_candidates ascii_lower sample_parse_iso_time
                  sample_http_user_location (sample_config true) 1686873600000000
                  [repo_popular; repo_homepage_50] ∅ = Ok _)
    by (vm_compute; reflexivity).
  rewrite (proj1 (proj1 (proj2 (build_table_rows_ranking ascii_lower sample_parse_iso_time
                                  sample_http_user_location))
                    [repo_popular; repo_homepage_50] (sample_config true) sample_now _ _
                    H0 Hc)).
  vm_compute. reflexivity.
Defined.

(** The link cell of the row built for [repo_popular]. *)
Lemma sanitize_cell_no_pipe_no_newline_witness :
  clean_cell (str "[ai-chat](https://github.com/alice/ai-chat)").
Proof.
  eapply (proj1 (proj2 (sanitize_cell_no_pipe_no_newline ascii_lower sample_parse_iso_time
                          sample_http_user_location))
            [repo_popular] (sample_config false) sample_now).
  - vm_compute. reflexivity.
  - now left.
  - do 3 right. now left.
Defined.

(** ** Occurrences and [find] *)

Lemma startswith_nil (s : pystr) : startswith s [] = true.
Proof. reflexivity. Qed.

Lemma startswith_app (sub rest : pystr) : startswith (sub ++ rest) sub = true.
Proof. apply startswith_iff. now exists rest. Qed.

(** Whether [sub] starts a string is decided by its first [length sub]
    characters. *)
Lemma startswith_long (x y sub : pystr) :
  (length sub <= length x)%nat -> startswith (x ++ y) sub = startswith x sub.
Proof.
  revert x. induction sub as [|p sub IH]; intros x Hlen; [reflexivity|].
  destruct x as [|c x]; simpl in *; [lia|].
  rewrite IH by lia. reflexivity.
Qed.

(** An occurrence that starts in [x] and does not fit in [x] takes the
    character that follows [x]. *)
Lemma startswith_short (x y sub : pystr) (c : N) :
  (length x < length sub)%nat -> startswith (x ++ c :: y) sub = true -> In c sub.
Proof.
  revert x. induction sub as [|p sub IH]; intros x Hlen H; simpl in *; [lia|].
  destruct x as [|d x]; simpl in *.
  - apply andb_true_iff in H as [H _]. apply char_eqb_eq in H. now left.
  - apply andb_true_iff in H as [_ H]. right. apply (IH x); [lia | assumption].
Qed.

Lemma contains_skipn (s sub : pystr) (k : nat) :
  contains s sub = false -> startswith (skipn k s) sub = false.
Proof.
  revert k. induction s as [|c s IH]; intros k H; simpl in H;
    apply orb_false_iff in H as [H1 H2].
  - now rewrite skipn_nil.
  - destruct k as [|k]; simpl; [assumption | now apply IH].
Qed.

Lemma find_from_at (i : Z) (s sub : pystr) (n : nat) :
  startswith (skipn n s) sub = true ->
  (forall m, (m < n)%nat -> startswith (skipn m s) sub = false) ->
  (n <= length s)%nat ->
  find_from i s sub = i + Z.of_nat n.
Proof.
  revert i s. induction n as [|n IH]; intros i s Hat Hmin Hlen.
  - change (skipn 0 s) with s in Hat. destruct s; simpl; rewrite Hat; lia.
  - destruct s as [|c s]; simpl in Hlen; [lia|].
    pose proof (Hmin 0%nat ltac:(lia)) as H0. change (skipn 0 (c :: s)) with (c :: s) in H0.
    simpl find_from. rewrite H0.
    rewrite (IH (i + 1) s); [lia | assumption | | lia].
    intros m Hm. apply (Hmin (S m)). lia.
Qed.

Lemma find_at (s sub : pystr) (n : nat) :
  startswith (skipn n s) sub = true ->
  (forall m, (m < n)%nat -> startswith (skipn m s) sub = false) ->
  (n <= length s)%nat ->
  find s sub = Z.of_nat n.
Proof. intros. unfold find. now rewrite (find_from_at 0 s sub n). Qed.

Lemma find_found (s sub : pystr) :
  find s sub <> -1 ->
  exists n : nat,
    find s sub = Z.of_nat n /\
    s = firstn n s ++ sub ++ skipn (n + length sub) s /\
    (forall m, (m < n)%nat -> startswith (skipn m s) sub = false) /\
    (n <= length s)%nat.
Proof.
  intros H. destruct (contains s sub) eqn:E; [|apply find_absent in E; contradiction].
  destruct (find_from_present 0 s sub E) as [n [Hn [Hat [Hmin Hlen]]]].
  exists n. repeat split; try assumption.
  apply startswith_iff in Hat as [rest Hrest].
  rewrite <- (firstn_skipn n s) at 1. f_equal.
  rewrite Nat.add_comm, <- skipn_skipn, Hrest. f_equal.
  now rewrite skipn_app, skipn_all, Nat.sub_diag.
Qed.

(** No end marker starts inside the start marker, nor at a newline, and
    the end marker holds no newline. *)
Lemma no_end_marker_in_start_marker (k : nat) (rest : pystr) :
  (k < 29)%nat -> startswith (skipn k AUTO_START ++ rest) AUTO_END = false.
Proof. intros H. do 29 (destruct k as [|k]; [reflexivity|]). lia. Qed.

Lemma no_end_marker_at_newline (rest : pystr) :
  startswith (NEWLINE :: rest) AUTO_END = false.
Proof. reflexivity. Qed.

Lemma no_newline_in_end_marker : ~ In NEWLINE AUTO_END.
Proof. intros H. vm_compute in H. intuition discriminate. Qed.

Lemma skipn_app_le {A : Type} (m : nat) (x y : list A) :
  (m <= length x)%nat -> skipn m (x ++ y) = skipn m x ++ y.
Proof.
  intros H. rewrite skipn_app. f_equal.
  replace (m - length x)%nat with 0%nat by lia. reflexivity.
Qed.

Lemma skipn_app_ge {A : Type} (k : nat) (x y : list A) :
  skipn (length x + k) (x ++ y) = skipn k y.
Proof.
  rewrite skipn_app, skipn_all2 by lia.
  replace (length x + k - length x)%nat with k by lia. reflexivity.
Qed.

Lemma occurrence_in_prefix (x z z' sub : pystr) (m : nat) :
  (m + length sub <= length x)%nat ->
  startswith (skipn m (x ++ z)) sub = startswith (skipn m (x ++ z')) sub.
Proof.
  intros H. rewrite !skipn_app_le by lia.
  rewrite !startswith_long; [reflexivity | |]; rewrite length_skipn; lia.
Qed.

(** The markers of a document of the shape that [splice] produces: when
    no marker starts in [before] and the table text holds no end marker,
    the first start marker is the one written and the first end marker is
    the one written after the table. *)
Lemma find_markers_spliced (before text after rest : pystr) :
  (forall m, (m < length before)%nat ->
     startswith (skipn m (before ++ AUTO_START ++ rest)) AUTO_START = false) ->
  (forall m, (m < length before)%nat ->
     startswith (skipn m (before ++ AUTO_START ++ rest)) AUTO_END = false) ->
  contains text AUTO_END = false ->
  let doc := before ++ AUTO_START ++ [NEWLINE] ++ text ++ [NEWLINE] ++ AUTO_END ++ after in
  find doc AUTO_START = len before /\
  find doc AUTO_END = len before + len AUTO_START + 1 + len text + 1.
Proof.
  intros Hs He Ht doc. split.
  - apply find_at.
    + unfold doc. rewrite <- (Nat.add_0_r (length before)), skipn_app_ge.
      apply startswith_app.
    + intros m Hm. unfold doc. rewrite app_assoc.
      rewrite (occurrence_in_prefix _ _ rest); [rewrite <- app_assoc; now apply Hs|].
      rewrite length_app. change (length AUTO_START) with 29%nat. lia.
    + unfold doc. rewrite length_app. lia.
  - replace (len before + len AUTO_START + 1 + len text + 1)
      with (Z.of_nat (length before + (29 + (1 + (length text + 1)))))
      by (unfold len; change (length AUTO_START) with 29%nat; lia).
    apply find_at.
    + unfold doc. rewrite skipn_app_ge.
      change 29%nat with (length AUTO_START). rewrite skipn_app_ge.
      change (skipn (1 + (length text + 1)) ([NEWLINE] ++ text ++ [NEWLINE] ++ AUTO_END ++ after))
        with (skipn (length text + 1) (text ++ [NEWLINE] ++ AUTO_END ++ after)).
      rewrite skipn_app_ge. apply startswith_app.
    + intros m Hm. unfold doc.
      destruct (Nat.lt_ge_cases m (length before)) as [Hlt | Hge].
      { rewrite app_assoc.
        rewrite (occurrence_in_prefix _ _ rest); [rewrite <- app_assoc; now apply He|].
        rewrite length_app. change (length AUTO_START) with 29%nat.
        change (length AUTO_END) with 27%nat. lia. }
      replace m with (length before + (m - length before))%nat by lia.
      rewrite skipn_app_ge. remember (m - length before)%nat as k eqn:Hk.
      destruct (Nat.lt_ge_cases k 29) as [Hlt | Hge'].
      { rewrite skipn_app_le by (change (length AUTO_START) with 29%nat; lia).
        now apply no_end_marker_in_start_marker. }
      replace k with (length AUTO_START + (k - 29))%nat
        by (change (length AUTO_START) with 29%nat; lia).
      rewrite skipn_app_ge. remember (k - 29)%nat as j eqn:Hj.
      destruct j as [|j]; [apply no_end_marker_at_newline|].
      change (skipn (S j) ([NEWLINE] ++ text ++ [NEWLINE] ++ AUTO_END ++ after))
        with (skipn j (text ++ [NEWLINE] ++ AUTO_END ++ after)).
      destruct (Nat.lt_ge_cases j (length text)) as [Hlt | Hge''].
      * rewrite skipn_app_le by lia.
        destruct (Nat.le_gt_cases (length AUTO_END) (length (skipn j text))) as [Hl | Hl].
        -- rewrite startswith_long by assumption. now apply contains_skipn.
        -- destruct (startswith _ AUTO_END) eqn:E; [|reflexivity].
           apply startswith_short in E; [|assumption].
           now apply no_newline_in_end_marker in E.
      * replace j with (length text + 0)%nat by lia.
        rewrite skipn_app_ge. apply no_end_marker_at_newline.
    + unfold doc. rewrite !length_app. simpl. lia.
Qed.

(** ** Reading back a rendered table *)

Lemma splitlines_from_line (cur line rest : pystr) :
  (forall c, In c line -> is_linebreak c = false) ->
  splitlines_from cur (line ++ NEWLINE :: rest) =
    (rev cur ++ line) :: splitlines_from [] rest.
Proof.
  revert cur. induction line as [|c line IH]; intros cur Hline.
  - rewrite app_nil_r. simpl. now destruct rest.
  - simpl. rewrite (Hline c (or_introl eq_refl)).
    rewrite IH by (intros x Hx; apply Hline; now right).
    simpl. now rewrite <- app_assoc.
Qed.

Lemma splitlines_terminated (lines : list pystr) :
  Forall (fun line => forall c, In c line -> is_linebreak c = false) lines ->
  splitlines (concat (List.map (fun line => line ++ [NEWLINE]) lines)) = lines.
Proof.
  unfold splitlines. induction 1 as [|line lines Hline _ IH]; [reflexivity|].
  simpl. rewrite <- app_assoc. simpl.
  rewrite splitlines_from_line by assumption. now rewrite IH.
Qed.

Lemma join_terminated (line : pystr) (lines : list pystr) :
  join [NEWLINE] (line :: lines) ++ [NEWLINE] =
    concat (List.map (fun l => l ++ [NEWLINE]) (line :: lines)).
Proof.
  revert line. induction lines as [|l lines IH]; intros line.
  - simpl. now rewrite app_nil_r.
  - change (join [NEWLINE] (line :: l :: lines))
      with (line ++ [NEWLINE] ++ join [NEWLINE] (l :: lines)).
    rewrite <- !app_assoc, IH.
    change (concat (List.map (fun l0 => l0 ++ [NEWLINE]) (line :: l :: lines)))
      with ((line ++ [NEWLINE]) ++
            concat (List.map (fun l0 => l0 ++ [NEWLINE]) (l :: lines))).
    now rewrite <- app_assoc.
Qed.

Lemma drop_while_app_all (p : N -> bool) (x s : pystr) :
  forallb p x = true -> drop_while p (x ++ s) = drop_while p s.
Proof.
  induction x as [|c x IH]; simpl; [reflexivity|].
  intros H. apply andb_true_iff in H as [-> H]. now apply IH.
Qed.

Lemma drop_while_all (p : N -> bool) (x : pystr) :
  forallb p x = true -> drop_while p x = [].
Proof.
  intros H. rewrite <- (app_nil_r x). now rewrite drop_while_app_all.
Qed.

Lemma strip_with_pad (p : N -> bool) (x cell y : pystr) :
  forallb p x = true -> forallb p y = true -> stripped p cell ->
  strip_with p (x ++ cell ++ y) = cell.
Proof.
  intros Hx Hy [H1 H2]. unfold strip_with, lstrip_with, rstrip_with.
  rewrite drop_while_app_all by assumption.
  assert (Hry : forallb p (rev y) = true).
  { rewrite forallb_forall in *. intros c Hc. apply Hy. now apply in_rev. }
  destruct cell as [|d cell].
  - simpl. rewrite (drop_while_all p y) by assumption. reflexivity.
  - rewrite (drop_while_fixed p ((d :: cell) ++ y)) by exact H1.
    rewrite rev_app_distr, drop_while_app_all by assumption.
    rewrite (drop_while_fixed p (rev (d :: cell))) by exact H2.
    apply rev_involutive.
Qed.

Lemma split_char_last (sep : N) (a : pystr) :
  ~ In sep a -> split_char sep a = [a].
Proof.
  induction a as [|c a IH]; simpl; intros H; [reflexivity|].
  destruct (char_eqb c sep) eqn:E.
  - apply char_eqb_eq in E. exfalso. apply H. now left.
  - rewrite IH; [reflexivity | intros Hin; apply H; now right].
Qed.

Lemma split_char_app (sep : N) (a b : pystr) :
  ~ In sep a -> split_char sep (a ++ sep :: b) = a :: split_char sep b.
Proof.
  induction a as [|c a IH]; simpl; intros H.
  - unfold char_eqb. now rewrite N.eqb_refl.
  - destruct (char_eqb c sep) eqn:E.
    + apply char_eqb_eq in E. exfalso. apply H. now left.
    + rewrite IH; [reflexivity | intros Hin; apply H; now right].
Qed.

Lemma render_row_five (c0 c1 c2 c3 c4 : pystr) :
  render_row [c0; c1; c2; c3; c4] =
    PIPE :: join [PIPE] (List.map padded [c0; c1; c2; c3; c4]) ++ [PIPE].
Proof.
  unfold render_row, padded.
  change (slice_to _ 5) with [c0; c1; c2; c3; c4].
  change (str "| ") with [PIPE; SPACE]. change (str " | ") with [SPACE; PIPE; SPACE].
  change (str " |") with [SPACE; PIPE].
  cbn [join app List.map]. repeat (rewrite <- app_assoc; cbn [app]). reflexivity.
Qed.

Lemma stripped_between (p : N -> bool) (c d : N) (s : pystr) :
  p c = false -> p d = false -> stripped p (c :: s ++ [d]).
Proof.
  intros Hc Hd. split; [exact Hc|].
  simpl. rewrite rev_app_distr. exact Hd.
Qed.

Lemma join_padded_ends (cell : pystr) (cells : list pystr) :
  exists s, join [PIPE] (List.map padded (cell :: cells)) = SPACE :: s ++ [SPACE].
Proof.
  revert cell. induction cells as [|c cells IH]; intros cell.
  - now exists cell.
  - destruct (IH c) as [s Hs].
    exists (cell ++ [SPACE] ++ [PIPE] ++ SPACE :: s).
    change (join [PIPE] (List.map padded (cell :: c :: cells)))
      with (padded cell ++ [PIPE] ++ join [PIPE] (List.map padded (c :: cells))).
    rewrite Hs. unfold padded. cbn [app].
    repeat (rewrite <- app_assoc; cbn [app]). reflexivity.
Qed.

Lemma split_join_padded (cell : pystr) (cells : list pystr) :
  Forall (fun c => ~ In PIPE c) (cell :: cells) ->
  split_char PIPE (join [PIPE] (List.map padded (cell :: cells))) =
    List.map padded (cell :: cells).
Proof.
  assert (Hpad : forall c, ~ In PIPE c -> ~ In PIPE (padded c)).
  { intros c Hc [H | H]; [discriminate|].
    apply in_app_or in H as [H | [H | []]]; [contradiction | discriminate]. }
  revert cell. induction cells as [|c cells IH]; intros cell Hcells;
    apply Forall_cons_iff in Hcells as [Hcell Hcells].
  - change (join [PIPE] (List.map padded [cell])) with (padded cell).
    apply split_char_last. now apply Hpad.
  - change (join [PIPE] (List.map padded (cell :: c :: cells)))
      with (padded cell ++ PIPE :: join [PIPE] (List.map padded (c :: cells))).
    rewrite split_char_app by now apply Hpad.
    now rewrite IH.
Qed.

Lemma strip_padded (cell : pystr) : stripped is_space cell -> strip (padded cell) = cell.
Proof.
  intros H. unfold strip, padded.
  change (SPACE :: cell ++ [SPACE]) with ([SPACE] ++ cell ++ [SPACE]).
  now apply strip_with_pad.
Qed.

(** A line written by [build_table_text] for a row of five stripped cells
    without pipe is read back as that row, unless it is taken for the
    header. *)
Lemma parse_rendered_row (r : row) :
  length r = 5%nat ->
  Forall (fun c => ~ In PIPE c /\ stripped is_space c) r ->
  ~ (nth 0 r [] = HEADER_CATEGORY /\ nth 1 r [] = HEADER_DEVELOPER) ->
  parse_markdown_line (render_row r) = Some r.
Proof.
  intros Hlen Hcells Hhead.
  destruct r as [|c0 [|c1 [|c2 [|c3 [|c4 [|c5 r]]]]]]; try discriminate.
  rewrite render_row_five.
  set (cells := [c0; c1; c2; c3; c4]) in *.
  destruct (join_padded_ends c0 [c1; c2; c3; c4]) as [inner Hinner].
  fold cells in Hinner.
  unfold parse_markdown_line.
  assert (Hstrip : strip (PIPE :: join [PIPE] (List.map padded cells) ++ [PIPE])
                   = PIPE :: join [PIPE] (List.map padded cells) ++ [PIPE]).
  { apply strip_with_fixed. now apply stripped_between. }
  rewrite Hstrip.
  assert (Hchars : strip_chars (str "|")
                     (PIPE :: join [PIPE] (List.map padded cells) ++ [PIPE])
                   = join [PIPE] (List.map padded cells)).
  { unfold strip_chars.
    change (PIPE :: join [PIPE] (List.map padded cells) ++ [PIPE])
      with ([PIPE] ++ join [PIPE] (List.map padded cells) ++ [PIPE]).
    apply strip_with_pad; try reflexivity.
    rewrite Hinner. now apply stripped_between. }
  rewrite Hchars.
  assert (Hs1 : startswith (PIPE :: join [PIPE] (List.map padded cells) ++ [PIPE])
                  (str "|") = true) by reflexivity.
  assert (Hs2 : startswith (PIPE :: join [PIPE] (List.map padded cells) ++ [PIPE])
                  (str "|---") = false) by (rewrite Hinner; reflexivity).
  rewrite Hs1, Hs2. cbn [negb].
  assert (Hcols : List.map strip (split_char PIPE (join [PIPE] (List.map padded cells)))
                  = cells).
  { unfold cells at 1. rewrite split_join_padded.
    - fold cells. rewrite map_map. rewrite <- (map_id cells) at 2.
      apply map_ext_in. intros c Hc.
      rewrite List.Forall_forall in Hcells. apply strip_padded. now apply Hcells.
    - eapply List.Forall_impl; [|exact Hcells]. now intros c [H _]. }
  rewrite Hcols. change (len cells <? 5) with false. cbv iota.
  change (slice_to cells 5) with cells.
  destruct (str_eqb (nth 0 cells []) HEADER_CATEGORY &&
            str_eqb (nth 1 cells []) HEADER_DEVELOPER) eqn:E; [|reflexivity].
  apply andb_true_iff in E as [E1 E2]. apply str_eqb_eq in E1, E2.
  exfalso. apply Hhead. now split.
Qed.

Lemma join_in (sep : pystr) (parts : list pystr) (c : N) :
  In c (join sep parts) -> In c sep \/ exists p, In p parts /\ In c p.
Proof.
  induction parts as [|p parts IH]; [intros []|].
  destruct parts as [|q parts].
  - simpl. intros H. right. exists p. auto.
  - change (join sep (p :: q :: parts)) with (p ++ sep ++ join sep (q :: parts)).
    intros H. apply in_app_or in H as [H | H]; [right; exists p; simpl; auto|].
    apply in_app_or in H as [H | H]; [now left|].
    destruct (IH H) as [H' | [p' [H1 H2]]]; [now left|].
    right. exists p'. split; [now right | assumption].
Qed.

Lemma sanitized_row_cells (r : row) :
  sanitized_row r ->
  length r = 5%nat /\ Forall (fun c => ~ In PIPE c /\ stripped is_space c) r.
Proof.
  intros [c0 [c1 [c2 [c3 [c4 ->]]]]]. split; [reflexivity|].
  repeat constructor; try apply sanitize_cell_clean; apply sanitize_cell_stripped.
Qed.

Lemma render_row_no_linebreak (r : row) (c : N) :
  sanitized_row r -> reparsable_row r -> In c (render_row r) -> is_linebreak c = false.
Proof.
  intros Hs [Hr _] Hc. destruct Hs as [c0 [c1 [c2 [c3 [c4 ->]]]]].
  rewrite render_row_five in Hc.
  destruct Hc as [<- | Hc]; [reflexivity|].
  apply in_app_or in Hc as [Hc | [<- | []]]; [|reflexivity].
  apply join_in in Hc as [[<- | []] | [p [Hp Hc]]]; [reflexivity|].
  apply in_map_iff in Hp as [cell [<- Hcell]].
  destruct Hc as [<- | Hc]; [reflexivity|].
  apply in_app_or in Hc as [Hc | [<- | []]]; [|reflexivity].
  now apply (Hr cell).
Qed.

Lemma parse_rendered_lines (table : list row) :
  Forall sanitized_row table -> Forall reparsable_row table ->
  parse_markdown_lines (List.map render_row table) = table.
Proof.
  induction 1 as [|r table Hs _ IH]; intros Hr; [reflexivity|].
  apply Forall_cons_iff in Hr as [[Hr1 Hr2] Hr]. simpl.
  apply sanitized_row_cells in Hs as [Hlen Hcells].
  rewrite parse_rendered_row by assumption. now rewrite IH.
Qed.

(** The block between the markers of a document written by [splice] is
    read back as the table that was written. *)
Lemma parse_rendered_table (table : list row) :
  Forall sanitized_row table -> Forall reparsable_row table ->
  parse_markdown_rows ([NEWLINE] ++ build_table_text table ++ [NEWLINE]) = table.
Proof.
  intros Hs Hr. unfold parse_markdown_rows, build_table_text.
  change ([TABLE_HEADER; TABLE_DIVIDER] ++ List.map render_row table)
    with (TABLE_HEADER :: TABLE_DIVIDER :: List.map render_row table).
  rewrite join_terminated.
  change ([NEWLINE] ++ concat (List.map (fun l => l ++ [NEWLINE])
                                 (TABLE_HEADER :: TABLE_DIVIDER :: List.map render_row table)))
    with (concat (List.map (fun l => l ++ [NEWLINE])
                    ([] :: TABLE_HEADER :: TABLE_DIVIDER :: List.map render_row table))).
  rewrite splitlines_terminated.
  - change (parse_markdown_lines
              ([] :: TABLE_HEADER :: TABLE_DIVIDER :: List.map render_row table))
      with (parse_markdown_lines (List.map render_row table)).
    now apply parse_rendered_lines.
  - constructor; [intros c []|].
    constructor.
    { intros c Hc. assert (H : forallb (fun x => negb (is_linebreak x)) TABLE_HEADER = true)
        by reflexivity.
      rewrite forallb_forall in H. apply H in Hc. now apply negb_true_iff in Hc. }
    constructor.
    { intros c Hc. assert (H : forallb (fun x => negb (is_linebreak x)) TABLE_DIVIDER = true)
        by reflexivity.
      rewrite forallb_forall in H. apply H in Hc. now apply negb_true_iff in Hc. }
    apply List.Forall_forall. intros line Hline.
    apply in_map_iff in Hline as [r [<- Hin]].
    rewrite List.Forall_forall in Hs, Hr.
    intros c. apply render_row_no_linebreak; auto.
Qed.

(** ** A second run *)

Lemma normalize_row_five (max_desc_len : Z) (c0 c1 c2 c3 c4 : pystr) :
  normalize_row max_desc_len [c0; c1; c2; c3; c4] =
    [sanitize_cell c0; sanitize_cell c1; sanitize_cell c2; sanitize_cell c3;
     sanitize_cell (truncate_text c4 max_desc_len)].
Proof. reflexivity. Qed.

Lemma normalize_row_idem (max_desc_len : Z) (r : row) :
  max_desc_len <= 0 \/ 3 <= max_desc_len ->
  normalize_row max_desc_len (normalize_row max_desc_len r) = normalize_row max_desc_len r.
Proof.
  intros Hm. unfold normalize_row at 2 3.
  set (cells := slice_to (r ++ repeat [] 5) 5).
  set (desc := sanitize_cell (truncate_text (nth 4 cells []) max_desc_len)).
  rewrite normalize_row_five. rewrite !sanitize_cell_idem.
  assert (Hd : truncate_text desc max_desc_len = desc).
  { destruct Hm as [Hm | Hm]; [now apply truncate_text_unlimited|].
    apply truncate_text_short. unfold desc.
    pose proof (sanitize_cell_length (truncate_text (nth 4 cells []) max_desc_len)).
    pose proof (truncate_text_bound (nth 4 cells []) max_desc_len Hm). lia. }
  rewrite Hd. unfold desc. now rewrite sanitize_cell_idem.
Qed.

Lemma locate_markers_ok (content : pystr) (start end_ : Z) :
  locate_markers content = Ok (start, end_) ->
  start = find content AUTO_START /\ end_ = find content AUTO_END /\
  start <> -1 /\ end_ <> -1 /\ start <= end_.
Proof.
  unfold locate_markers.
  destruct (_ || _) eqn:E; [discriminate|]. intros [= <- <-].
  apply orb_false_iff in E as [E E3]. apply orb_false_iff in E as [E1 E2].
  apply Z.eqb_neq in E1, E2. apply Z.ltb_ge in E3. auto.
Qed.

(** The document written by [splice], with the positions at which its
    markers are found again. *)
Lemma splice_shape (content : pystr) (start end_ : Z) (table : list row) :
  locate_markers content = Ok (start, end_) ->
  contains (build_table_text table) AUTO_END = false ->
  let text := build_table_text table in
  let before := slice_to content start in
  let after := slice_from content (end_ + len AUTO_END) in
  let doc := splice content start end_ table in
  len before = start /\
  doc = before ++ AUTO_START ++ [NEWLINE] ++ text ++ [NEWLINE] ++ AUTO_END ++ after /\
  locate_markers doc = Ok (start, start + len AUTO_START + 1 + len text + 1).
Proof.
  intros Hloc Htext text before after doc.
  apply locate_markers_ok in Hloc as [Hs [He [Hs1 [He1 Hle]]]].
  rewrite Hs in Hs1. rewrite He in He1.
  destruct (find_found _ _ Hs1) as [ns [Hns [Hcs [Hmins Hlens]]]].
  destruct (find_found _ _ He1) as [ne [Hne [_ [Hmine _]]]].
  assert (Hbefore : before = firstn ns content).
  { unfold before. rewrite slice_to_nonneg by lia. f_equal. lia. }
  assert (Hlen : length before = ns).
  { rewrite Hbefore, length_firstn. lia. }
  assert (Hdoc : doc =
            before ++ AUTO_START ++ [NEWLINE] ++ text ++ [NEWLINE] ++ AUTO_END ++ after).
  { unfold doc, splice. fold text. fold before. fold after.
    now rewrite <- !app_assoc. }
  split; [unfold len; lia|]. split; [exact Hdoc|].
  destruct (find_markers_spliced before text after (skipn (ns + length AUTO_START) content))
    as [F1 F2].
  - intros m Hm. rewrite Hbefore, <- Hcs. apply Hmins. lia.
  - intros m Hm. rewrite Hbefore, <- Hcs. apply Hmine. lia.
  - exact Htext.
  - unfold locate_markers. rewrite Hdoc, F1, F2.
    assert (Hb : len before = start) by (unfold len; lia). rewrite Hb.
    pose proof (len_nonneg text).
    change (len AUTO_START) with 29.
    destruct (_ || _) eqn:E; [|reflexivity].
    rewrite !orb_true_iff, !Z.eqb_eq, Z.ltb_lt in E. lia.
Qed.

Lemma splice_relocated (content : pystr) (start end_ : Z) (table table' : list row) :
  locate_markers content = Ok (start, end_) ->
  contains (build_table_text table) AUTO_END = false ->
  let text := build_table_text table in
  let doc := splice content start end_ table in
  let end2 := start + len AUTO_START + 1 + len text + 1 in
  slice doc (start + len AUTO_START) end2 = [NEWLINE] ++ text ++ [NEWLINE] /\
  splice doc start end2 table' = splice content start end_ table'.
Proof.
  intros Hloc Htext text doc end2.
  destruct (splice_shape content start end_ table Hloc Htext) as [Hb [Hdoc _]].
  fold text in Hdoc. fold doc in Hdoc.
  set (before := slice_to content start) in *.
  set (after := slice_from content (end_ + len AUTO_END)) in *.
  pose proof (len_nonneg before). pose proof (len_nonneg text).
  assert (Hn : Z.to_nat start = length before) by (unfold len in Hb; lia).
  split.
  - rewrite slice_nonneg by (unfold end2; change (len AUTO_START) with 29; lia).
    replace (Z.to_nat (start + len AUTO_START))
      with (length (before ++ AUTO_START) + 0)%nat
      by (rewrite length_app; change (len AUTO_START) with 29;
          change (length AUTO_START) with 29%nat; lia).
    replace (Z.to_nat end2 - (length (before ++ AUTO_START) + 0))%nat
      with (length ([NEWLINE] ++ text ++ [NEWLINE]))
      by (unfold end2; rewrite !length_app; change (len AUTO_START) with 29;
          change (length AUTO_START) with 29%nat; unfold len; simpl; lia).
    rewrite Hdoc.
    replace (before ++ AUTO_START ++ [NEWLINE] ++ text ++ [NEWLINE] ++ AUTO_END ++ after)
      with ((before ++ AUTO_START) ++ ([NEWLINE] ++ text ++ [NEWLINE]) ++ AUTO_END ++ after)
      by (now rewrite <- !app_assoc).
    rewrite skipn_app_ge. change (skipn 0 ?l) with l. apply take_app_length.
  - unfold splice. f_equal.
    + rewrite slice_to_nonneg by lia. rewrite Hn, Hdoc. apply take_app_length.
    + f_equal. fold after.
      rewrite slice_from_nonneg
        by (unfold end2; change (len AUTO_START) with 29; change (len AUTO_END) with 27;
            lia).
      replace (Z.to_nat (end2 + len AUTO_END))
        with (length (before ++ AUTO_START ++ [NEWLINE] ++ text ++ [NEWLINE] ++ AUTO_END)
              + 0)%nat
        by (unfold end2; rewrite !length_app; change (len AUTO_START) with 29;
            change (len AUTO_END) with 27; change (length AUTO_START) with 29%nat;
            change (length AUTO_END) with 27%nat; unfold len; simpl; lia).
      rewrite Hdoc.
      replace (before ++ AUTO_START ++ [NEWLINE] ++ text ++ [NEWLINE] ++ AUTO_END ++ after)
        with ((before ++ AUTO_START ++ [NEWLINE] ++ text ++ [NEWLINE] ++ AUTO_END) ++ after)
        by (now rewrite <- !app_assoc).
      now rewrite skipn_app_ge.
Qed.

Lemma normalized_rows_sanitized (max_total max_desc_len : Z) (added existing : list row) :
  Forall sanitized_row (cap_rows max_total (normalized_rows max_desc_len added existing)).
Proof.
  apply List.Forall_forall. intros r Hr.
  apply (sublist_In _ _ _ (cap_rows_sublist _ _)) in Hr.
  apply in_map_iff in Hr as [r0 [<- _]]. apply normalize_row_sanitized.
Qed.

Lemma cap_rows_within (max_total : Z) (rows : list row) :
  max_total = 0 \/ len rows <= max_total -> cap_rows max_total rows = rows.
Proof.
  intros H. unfold cap_rows. destruct (negb (max_total =? 0) && _) eqn:E; [|reflexivity].
  apply andb_true_iff in E as [E1 E2].
  apply negb_true_iff, Z.eqb_neq in E1. apply Z.gtb_gt in E2. lia.
Qed.

Lemma filter_none {A : Type} (p : A -> bool) (l : list A) :
  (forall x, In x l -> p x = false) -> List.filter p l = [].
Proof.
  induction l as [|x l IH]; intros H; [reflexivity|].
  simpl. rewrite (H x (or_introl eq_refl)). apply IH. intros y Hy. apply H. now right.
Qed.

Lemma cap_rows_positive (max_total : Z) (rows : list row) :
  0 < max_total -> cap_rows max_total rows = firstn (Z.to_nat max_total) rows.
Proof.
  intros H. unfold cap_rows. destruct (negb (max_total =? 0) && _) eqn:E.
  - apply slice_to_nonneg. lia.
  - apply andb_false_iff in E as [E | E].
    + apply negb_false_iff, Z.eqb_eq in E. lia.
    + rewrite firstn_all2; [reflexivity|]. unfold len in E.
      assert (Hl : ~ Z.of_nat (length rows) > max_total).
      { intros Hl. apply Z.gtb_gt in Hl. congruence. }
      lia.
Qed.

Lemma cap_rows_idem (max_total : Z) (rows : list row) :
  0 <= max_total \/ cap_rows max_total rows = [] ->
  cap_rows max_total (cap_rows max_total rows) = cap_rows max_total rows.
Proof.
  intros [H | H].
  - apply cap_rows_within.
    destruct (Z.eq_dec max_total 0) as [E | E]; [now left | right].
    rewrite cap_rows_positive by lia. unfold len. rewrite length_firstn. lia.
  - rewrite H. apply sublist_nil_r. apply cap_rows_sublist.
Qed.

Section SecondRun.
Variable lower : pystr -> pystr.

(** C4 (amended).  A new row that has a URL and whose URL is the URL of a
    row that [update_readme] keeps from the existing table is never added.
    A second run with the same new rows adds nothing and writes the
    document again as the first run left it, provided that every new row
    has a URL, which is the URL of a row of the table that the first run
    wrote, the description bound is 0 or at least 3, [max_total] is not
    negative (or that table is empty), the pruning removes no row of that
    table, the table is read back as written (no line boundary in a cell,
    no row taken for the header) and its text holds no end marker.  The
    table of the first run holds the URL of every new row when the link
    cells of the new rows are sanitized and the cut to [max_total] leaves
    a row with that URL: the rows that the cut removes may be any others,
    old or new. *)
Theorem update_readme_second_run (path : pystr) (new_rows : list row)
  (max_total max_desc_len : Z) (kws : list pystr) (prune : bool) (fs : file_system)
  (content : pystr) (start end_ : Z) :
  fs !! path = Some content ->
  locate_markers content = Ok (start, end_) ->
  forallb has_link new_rows = true ->
  let existing_rows := existing_rows_of lower content start end_ kws prune in
  let added := kept_new existing_rows new_rows in
  let table := cap_rows max_total (normalized_rows max_desc_len added existing_rows) in
  let fs1 := <[path := splice content start end_ table]> fs in
  update_readme lower path new_rows max_total max_desc_len kws prune fs =
    (Ok (len added), fs1) /\
  (forall r, In r new_rows -> row_url r <> [] ->
     In (row_url r) (List.map row_url existing_rows) -> ~ In r added) /\
  (Forall (fun r => row_url r <> []) new_rows ->
   Forall (fun r => In (row_url r) (List.map row_url table)) new_rows ->
   max_desc_len <= 0 \/ 3 <= max_desc_len ->
   0 <= max_total \/ table = [] ->
   prune_rows lower table kws prune = table ->
   Forall reparsable_row table ->
   contains (build_table_text table) AUTO_END = false ->
   update_readme lower path new_rows max_total max_desc_len kws prune fs1 = (Ok 0, fs1)) /\
  (Forall link_sanitized new_rows ->
   max_total = 0 \/
   (0 < max_total /\
    Forall (fun r => In (row_url r)
                       (List.map row_url
                          (firstn (Z.to_nat max_total) (added ++ existing_rows))))
      new_rows) ->
   Forall (fun r => In (row_url r) (List.map row_url table)) new_rows).
Proof.
  intros Hfs Hloc Hlinks existing_rows added table fs1. split; [|split; [|split]].
  - rewrite update_readme_eq, Hfs, merge_readme_eq, Hloc. simpl. now rewrite Hlinks.
  - intros r _ Hurl Hin Hadded.
    apply kept_new_not_taken in Hadded as [_ [H | H]]; contradiction.
  - intros Hurls Hcov Hdesc Hcut Hprune Hre Htext.
    destruct (splice_shape content start end_ table Hloc Htext) as [_ [_ Hloc2]].
    destruct (splice_relocated content start end_ table table Hloc Htext)
      as [Hblock Hsplice].
    assert (Hex2 : existing_rows_of lower (splice content start end_ table) start
                     (start + len AUTO_START + 1 + len (build_table_text table) + 1)
                     kws prune = table).
    { unfold existing_rows_of. rewrite Hblock, parse_rendered_table;
        [exact Hprune | apply normalized_rows_sanitized | exact Hre]. }
    assert (Hkept : kept_new table new_rows = []).
    { unfold kept_new. apply filter_none. intros r Hr.
      apply negb_false_iff. unfold url_taken.
      rewrite List.Forall_forall in Hurls, Hcov.
      specialize (Hurls r Hr). specialize (Hcov r Hr).
      apply truthy_true in Hurls as Htruthy. rewrite Htruthy. simpl.
      now apply existsb_str_eqb. }
    assert (Hnorm : normalized_rows max_desc_len [] table = table).
    { unfold normalized_rows at 1. cbn [app].
      rewrite <- (map_id table) at 2. apply map_ext_in. intros t Ht.
      apply (sublist_In _ _ _ (cap_rows_sublist _ _)) in Ht.
      apply in_map_iff in Ht as [r [<- _]]. now apply normalize_row_idem. }
    assert (Hfs1 : fs1 !! path = Some (splice content start end_ table))
      by apply lookup_insert_eq.
    rewrite update_readme_eq, Hfs1.
    rewrite merge_readme_eq, Hloc2. cbv zeta. rewrite Hlinks, Hex2, Hkept, Hnorm.
    assert (Hcap : cap_rows max_total table = table) by now apply cap_rows_idem.
    rewrite Hcap, Hsplice. unfold fs1. f_equal. apply insert_insert_eq.
  - intros Hsan Hcut.
    assert (Hall : Forall (fun r => has_link r = true /\ link_sanitized r)
                     (added ++ existing_rows)).
    { apply Forall_app. split; apply List.Forall_forall; intros r Hr.
      - apply filter_In in Hr as [Hr _]. split.
        + rewrite forallb_forall in Hlinks. now apply Hlinks.
        + rewrite List.Forall_forall in Hsan. now apply Hsan.
      - pose proof (existing_rows_of_parsed lower content start end_ kws prune) as Hp.
        rewrite List.Forall_forall in Hp. specialize (Hp r Hr).
        split; [now apply parsed_row_has_link | now apply parsed_row_link_sanitized]. }
    destruct Hcut as [-> | [Hpos Hcov]].
    + assert (Htable : table = normalized_rows max_desc_len added existing_rows)
        by (apply cap_rows_within; now left).
      apply List.Forall_forall. intros r Hr.
      rewrite Htable. unfold normalized_rows.
      rewrite map_row_url_normalize by exact Hall.
      rewrite map_app. apply in_or_app.
      destruct (url_taken existing_rows r) eqn:E.
      * right. unfold url_taken in E. apply andb_true_iff in E as [_ E].
        now apply existsb_str_eqb.
      * left. apply in_map. unfold added, kept_new. apply filter_In.
        split; [assumption | now rewrite E].
    + assert (Htable : List.map row_url table =
                       List.map row_url
                         (firstn (Z.to_nat max_total) (added ++ existing_rows))).
      { unfold table, normalized_rows. rewrite cap_rows_positive by assumption.
        rewrite firstn_map. apply map_row_url_normalize.
        apply List.Forall_forall. intros r Hr.
        rewrite List.Forall_forall in Hall. apply Hall.
        apply (sublist_In _ _ _ (sublist_take (added ++ existing_rows)
                                   (Z.to_nat max_total))). exact Hr. }
      now rewrite Htable.
Qed.

End SecondRun.

(** The table holds foo and the bound is one row; bar is the new row of
    both runs.  The first run puts bar in front and cuts foo off; the
    second run finds the document of the first and leaves it as it is. *)
Lemma update_readme_second_run_witness :
  update_readme ascii_lower README [row_bar] 1 0 [] false
    {[ README := readme_with [TABLE_HEADER; TABLE_DIVIDER; line_bar] ]} =
  (Ok 0, {[ README := readme_with [TABLE_HEADER; TABLE_DIVIDER; line_bar] ]}).
Proof.
  pose proof (update_readme_second_run ascii_lower README [row_bar] 1 0 [] false
                {[ README := readme_with [line_foo] ]} (readme_with [line_foo]) 11 101
                eq_refl eq_refl eq_refl) as H.
  cbv zeta in H. destruct H as [_ [_ [H _]]].
  assert (Htable : cap_rows 1 (normalized_rows 0
                     (kept_new (existing_rows_of ascii_lower (readme_with [line_foo])
                                  11 101 [] false) [row_bar])
                     (existing_rows_of ascii_lower (readme_with [line_foo])
                        11 101 [] false)) = [row_bar])
    by (vm_compute; reflexivity).
  rewrite Htable in H.
  assert (Hfs1 : <[README := splice (readme_with [line_foo]) 11 101 [row_bar]]>
                 ({[ README := readme_with [line_foo] ]} : file_system) =
                 {[ README := readme_with [TABLE_HEADER; TABLE_DIVIDER; line_bar] ]})
    by (vm_compute; reflexivity).
  rewrite Hfs1 in H. apply H.
  - repeat constructor; discriminate.
  - repeat constructor.
  - left. lia.
  - left. lia.
  - reflexivity.
  - vm_compute. repeat constructor;
      try (intros cell c Hcell Hc;
           repeat (destruct Hcell as [<- | Hcell];
                   [repeat (destruct Hc as [<- | Hc]; [reflexivity|]); contradiction|]);
           contradiction);
      intros [H1 _]; discriminate.
  - reflexivity.
Defined.

(** C4 as stated fails: with [max_total = 1] and two new rows, the first
    run leaves the first new row in the table and the second run, for
    which the other row is new again, leaves that one. *)
Lemma update_readme_second_run_differs :
  update_readme ascii_lower README [row_bar; row_foo] 1 0 [] false
    {[ README := readme_with [] ]} =
  (Ok 2, {[ README := readme_with [TABLE_HEADER; TABLE_DIVIDER; line_bar] ]}) /\
  update_readme ascii_lower README [row_bar; row_foo] 1 0 [] false
    {[ README := readme_with [TABLE_HEADER; TABLE_DIVIDER; line_bar] ]} =
  (Ok 1, {[ README := readme_with [TABLE_HEADER; TABLE_DIVIDER; line_foo] ]}) /\
  readme_with [TABLE_HEADER; TABLE_DIVIDER; line_bar] <>
  readme_with [TABLE_HEADER; TABLE_DIVIDER; line_foo].
Proof. repeat split; try (vm_compute; reflexivity). vm_compute. discriminate. Qed.

(** * Further properties of the code *)

(** ** Cells *)

(** X1.  Sanitizing a cell a second time changes nothing, and sanitizing
    never makes a cell longer. *)
Theorem sanitize_cell_idempotent (text : pystr) :
  sanitize_cell (sanitize_cell text) = sanitize_cell text /\
  len (sanitize_cell text) <= len text.
Proof. split; [apply sanitize_cell_idem | apply sanitize_cell_length]. Qed.

Lemma rstrip_prefix (s : pystr) : exists dropped, s = rstrip s ++ dropped.
Proof. destruct (rstrip_with_split is_space s) as [suf [H _]]. now exists suf. Qed.

(** X2.  With a bound of at least 3, [truncate_text] returns at most
    [max_len] characters: the text itself when it fits, and otherwise a
    prefix of the text of at most [max_len - 3] characters followed by
    three full stops. *)
Theorem truncate_text_within_bound (text : pystr) (max_len : Z) :
  3 <= max_len ->
  len (truncate_text text max_len) <= max_len /\
  (len text <= max_len -> truncate_text text max_len = text) /\
  (max_len < len text ->
   exists kept dropped,
     truncate_text text max_len = kept ++ str "..." /\
     text = kept ++ dropped /\ len kept <= max_len - 3).
Proof.
  intros Hm. split; [now apply truncate_text_bound|].
  split; [apply truncate_text_short|].
  intros Hlong. destruct (truncate_text_long text max_len Hm Hlong) as [Heq _].
  destruct (rstrip_prefix (firstn (Z.to_nat (max_len - 3)) text)) as [d Hd].
  exists (rstrip (firstn (Z.to_nat (max_len - 3)) text)),
         (d ++ skipn (Z.to_nat (max_len - 3)) text).
  split; [exact Heq|]. split.
  - rewrite app_assoc, <- Hd. symmetry. apply firstn_skipn.
  - unfold rstrip, len.
    pose proof (rstrip_with_length is_space (firstn (Z.to_nat (max_len - 3)) text)) as Hl.
    rewrite length_firstn in Hl. lia.
Qed.

Lemma truncate_text_within_bound_witness :
  len (truncate_text (str "An AI chat bot for everyone") 12) <= 12.
Proof. apply (truncate_text_within_bound (str "An AI chat bot for everyone") 12). lia. Defined.

(** X3.  With a bound that is 0 (or negative) or at least 3, truncating a
    second time with the same bound changes nothing. *)
Theorem truncate_text_idempotent (text : pystr) (max_len : Z) :
  max_len <= 0 \/ 3 <= max_len ->
  truncate_text (truncate_text text max_len) max_len = truncate_text text max_len.
Proof.
  intros [Hm | Hm].
  - now rewrite !truncate_text_unlimited.
  - apply truncate_text_short. now apply truncate_text_bound.
Qed.

Lemma truncate_text_idempotent_witness :
  truncate_text (truncate_text (str "hello world") 8) 8 = str "hello...".
Proof.
  rewrite (truncate_text_idempotent (str "hello world") 8); [reflexivity | right; lia].
Defined.

(** X4.  [normalize_row] always yields five cells, whatever the length of
    the row, and with a description bound that is 0 or at least 3
    normalizing a second time changes nothing. *)
Theorem normalize_row_idempotent (max_desc_len : Z) (r : row) :
  length (normalize_row max_desc_len r) = 5%nat /\
  (max_desc_len <= 0 \/ 3 <= max_desc_len ->
   normalize_row max_desc_len (normalize_row max_desc_len r) =
     normalize_row max_desc_len r).
Proof. split; [reflexivity | apply normalize_row_idem]. Qed.

Lemma normalize_row_idempotent_witness :
  normalize_row 8 (normalize_row 8 [str "a|b"; str " x "; str "p"; str "l"; str "hello world"])
  = [[97; 65295; 98]%N; str "x"; str "p"; str "l"; str "hello..."].
Proof.
  rewrite (proj2 (normalize_row_idempotent 8
                    [str "a|b"; str " x "; str "p"; str "l"; str "hello world"]));
    [reflexivity | right; lia].
Defined.

(** ** [extract_url] *)

Lemma take_until_close_some (s run : pystr) :
  take_until_close s = Some run ->
  exists rest, s = run ++ 41%N :: rest /\ ~ In 41%N run.
Proof.
  revert run. induction s as [|c s IH]; simpl; intros run H; [discriminate|].
  destruct (char_eqb c 41) eqn:E.
  - injection H as <-. apply char_eqb_eq in E. subst. exists s. split; [reflexivity | intros []].
  - destruct (take_until_close s) as [run'|]; [|discriminate]. injection H as <-.
    destruct (IH run' eq_refl) as [rest [-> Hrun]]. exists rest. split; [reflexivity|].
    apply char_eqb_neq in E. intros [Hc | Hc]; [congruence | contradiction].
Qed.

Lemma take_until_close_app (run rest : pystr) :
  ~ In 41%N run -> take_until_close (run ++ 41%N :: rest) = Some run.
Proof.
  induction run as [|c run IH]; simpl; intros H; [reflexivity|].
  destruct (char_eqb c 41) eqn:E.
  - apply char_eqb_eq in E. exfalso. apply H. now left.
  - rewrite IH; [reflexivity | intros Hin; apply H; now right].
Qed.

Lemma match_url_here_some (s u : pystr) :
  match_url_here s = Some u ->
  exists rest, s = 40%N :: u ++ 41%N :: rest /\ group_url u.
Proof.
  unfold match_url_here.
  destruct (startswith s (str "(https://")) eqn:E1.
  - apply startswith_iff in E1 as [tail ->].
    change (skipn (S (length (str "https://"))) (str "(https://" ++ tail)) with tail.
    destruct (take_until_close tail) as [[|c run]|] eqn:Et; try discriminate.
    intros [= <-]. apply take_until_close_some in Et as [rest [-> Hrun]].
    exists rest. split.
    + change (str "(https://") with (40%N :: str "https://").
      cbn [app]. rewrite <- ?app_assoc. reflexivity.
    + exists (str "https://"), (c :: run). repeat split; auto; try discriminate.
  - destruct (startswith s (str "(http://")) eqn:E2; [|discriminate].
    apply startswith_iff in E2 as [tail ->].
    change (skipn (S (length (str "http://"))) (str "(http://" ++ tail)) with tail.
    destruct (take_until_close tail) as [[|c run]|] eqn:Et; try discriminate.
    intros [= <-]. apply take_until_close_some in Et as [rest [-> Hrun]].
    exists rest. split.
    + change (str "(http://") with (40%N :: str "http://").
      cbn [app]. rewrite <- ?app_assoc. reflexivity.
    + exists (str "http://"), (c :: run). repeat split; auto; try discriminate.
Qed.

Lemma match_url_here_other (c : N) (s : pystr) :
  c <> 40%N -> match_url_here (c :: s) = None.
Proof.
  intros Hc. unfold match_url_here.
  assert (E : char_eqb 40 c = false) by (apply char_eqb_neq; congruence).
  change (startswith (c :: s) (str "(https://"))
    with (char_eqb 40 c && startswith s (str "https://")).
  change (startswith (c :: s) (str "(http://"))
    with (char_eqb 40 c && startswith s (str "http://")).
  now rewrite E.
Qed.

Lemma search_url_skip (before s : pystr) :
  ~ In 40%N before -> search_url (before ++ s) = search_url s.
Proof.
  induction before as [|c before IH]; intros H; [reflexivity|].
  cbn [app search_url]. rewrite match_url_here_other by (intros ->; apply H; now left).
  apply IH. intros Hin. apply H. now right.
Qed.

Lemma match_url_here_group (scheme rest tail : pystr) :
  scheme = str "http://" \/ scheme = str "https://" ->
  rest <> [] -> ~ In 41%N rest ->
  match_url_here (40%N :: scheme ++ rest ++ 41%N :: tail) = Some (scheme ++ rest).
Proof.
  intros Hs Hrest Hclose. unfold match_url_here.
  destruct Hs as [-> | ->].
  - change (startswith (40%N :: str "http://" ++ rest ++ 41%N :: tail) (str "(https://"))
      with false.
    change (startswith (40%N :: str "http://" ++ rest ++ 41%N :: tail) (str "(http://"))
      with true.
    cbv iota.
    change (skipn (S (length (str "http://")))
              (40%N :: str "http://" ++ rest ++ 41%N :: tail))
      with (rest ++ 41%N :: tail).
    rewrite take_until_close_app by assumption. now destruct rest.
  - change (startswith (40%N :: str "https://" ++ rest ++ 41%N :: tail) (str "(https://"))
      with true.
    cbv iota.
    change (skipn (S (length (str "https://")))
              (40%N :: str "https://" ++ rest ++ 41%N :: tail))
      with (rest ++ 41%N :: tail).
    rewrite take_until_close_app by assumption. now destruct rest.
Qed.

Lemma match_url_here_complete (s u rest : pystr) :
  group_url u -> s = 40%N :: u ++ 41%N :: rest -> match_url_here s = Some u.
Proof.
  intros [scheme [tail [Hs [-> [Htail Hclose]]]]] ->.
  rewrite <- app_assoc. now apply match_url_here_group.
Qed.

Lemma search_url_leftmost (s u : pystr) :
  search_url s = Some u ->
  exists before,
    group_at s before u /\
    forall before' u', group_at s before' u' -> (length before <= length before')%nat.
Proof.
  induction s as [|c s IH]; simpl; [discriminate|].
  destruct (match_url_here (c :: s)) as [u0|] eqn:E.
  - intros [= <-]. apply match_url_here_some in E as [rest [H Hu]].
    exists []. split; [split; [assumption | now exists rest] | simpl; lia].
  - intros H. destruct (IH H) as [before [[Hu [rest Hs]] Hleft]].
    exists (c :: before). split.
    + split; [assumption|]. exists rest. now rewrite Hs.
    + intros before' u' [Hu' [rest' Hs']]. destruct before' as [|c' before'].
      * rewrite (match_url_here_complete (c :: s) u' rest' Hu' Hs') in E. discriminate.
      * injection Hs' as _ Hs'. simpl.
        assert (length before <= length before')%nat; [|lia].
        apply (Hleft before' u'). split; [assumption | now exists rest'].
Qed.

Lemma search_url_none (s : pystr) :
  search_url s = None -> forall before u, ~ group_at s before u.
Proof.
  induction s as [|c s IH]; simpl.
  - intros _ before u [_ [rest H]]. now destruct before.
  - destruct (match_url_here (c :: s)) as [u0|] eqn:E; [discriminate|].
    intros H before u [Hu [rest Hs]]. destruct before as [|c' before].
    + rewrite (match_url_here_complete (c :: s) u rest Hu Hs) in E. discriminate.
    + injection Hs as _ Hs. apply (IH H before u). split; [assumption | now exists rest].
Qed.

(** X5.  [extract_url] returns the content of the leftmost parenthesized
    group of the cell, a group being "http://" or "https://" followed by
    at least one character, none of them a closing parenthesis, between an
    opening and a closing parenthesis.  When the cell holds no such group,
    it returns the whole cell if the cell begins with "http://" or
    "https://", and the empty string otherwise. *)
Theorem extract_url_shape (cell : pystr) :
  (exists before,
     group_at cell before (extract_url cell) /\
     forall before' u',
       group_at cell before' u' -> (length before <= length before')%nat) \/
  ((forall before u, ~ group_at cell before u) /\
   extract_url cell =
     if startswith cell (str "http://") || startswith cell (str "https://")
     then cell else []).
Proof.
  unfold extract_url. destruct (search_url cell) as [u|] eqn:E.
  - left. now apply search_url_leftmost.
  - right. split; [now apply search_url_none | reflexivity].
Qed.

(** X6.  The link cell that [build_table_rows] writes for a project gives
    the project URL back: when the URL is "http://" or "https://" followed
    by at least one character, none of them a closing parenthesis, a pipe
    or a newline, and the project name holds no opening parenthesis,
    [extract_url] of the sanitized cell "[name](url)" is the URL. *)
Theorem extract_url_of_link (name scheme rest : pystr) :
  scheme = str "http://" \/ scheme = str "https://" ->
  rest <> [] ->
  (forall c, In c rest -> c <> 41%N /\ c <> PIPE /\ c <> NEWLINE) ->
  ~ In 40%N name ->
  extract_url (sanitize_cell (str "[" ++ name ++ str "](" ++ scheme ++ rest ++ str ")"))
  = scheme ++ rest.
Proof.
  intros Hs Hrest Hchars Hname.
  set (name' := replace_char NEWLINE SPACE (replace_char PIPE FULLWIDTH_SOLIDUS name)).
  assert (Hcell : sanitize_cell (str "[" ++ name ++ str "](" ++ scheme ++ rest ++ str ")")
                  = (91%N :: name' ++ [93%N]) ++ 40%N :: scheme ++ rest ++ 41%N :: []).
  { unfold sanitize_cell, replace_char. rewrite !map_app.
    assert (Hfix : forall l : pystr,
              (forall c, In c l -> c <> PIPE /\ c <> NEWLINE) ->
              List.map (fun c => if char_eqb c NEWLINE then SPACE else c)
                (List.map (fun c => if char_eqb c PIPE then FULLWIDTH_SOLIDUS else c) l) = l).
    { intros l Hl. rewrite map_map. rewrite <- (map_id l) at 2. apply map_ext_in.
      intros c Hc. destruct (Hl c Hc) as [H1 H2].
      apply char_eqb_neq in H1, H2. now rewrite H1, H2. }
    rewrite (Hfix rest) by (intros c Hc; apply Hchars in Hc; tauto).
    rewrite (Hfix scheme)
      by (intros c Hc; destruct Hs as [-> | ->]; vm_compute in Hc;
          repeat (destruct Hc as [<- | Hc]; [split; discriminate|]); contradiction).
    change (List.map _ (List.map _ (str "["))) with [91%N].
    change (List.map _ (List.map _ (str "]("))) with [93%N; 40%N].
    change (List.map _ (List.map _ (str ")"))) with [41%N].
    fold (replace_char PIPE FULLWIDTH_SOLIDUS name).
    fold (replace_char NEWLINE SPACE (replace_char PIPE FULLWIDTH_SOLIDUS name)).
    fold name'.
    assert (E : [91%N] ++ name' ++ [93%N; 40%N] ++ scheme ++ rest ++ [41%N]
                = 91%N :: (name' ++ [93%N; 40%N] ++ scheme ++ rest) ++ [41%N]).
    { cbn [app]. repeat (rewrite <- app_assoc; cbn [app]). reflexivity. }
    rewrite E. unfold strip.
    rewrite strip_with_fixed by (apply stripped_between; reflexivity).
    cbn [app]. repeat (rewrite <- app_assoc; cbn [app]). reflexivity. }
  rewrite Hcell. unfold extract_url. rewrite search_url_skip.
  - cbn [search_url].
    rewrite match_url_here_group;
      [reflexivity | assumption | assumption | intros Hc; apply Hchars in Hc; tauto].
  - intros [Hc | Hin]; [discriminate|].
    apply in_app_or in Hin as [Hin | [Hc | []]]; [|discriminate].
    unfold name' in Hin. apply replace_char_in in Hin as [Hc | [_ Hin]]; [discriminate|].
    apply replace_char_in in Hin as [Hc | [_ Hin]]; [discriminate | contradiction].
Qed.

Lemma extract_url_of_link_witness :
  extract_url (sanitize_cell (str "[my|tool](https://example.org/a)"))
  = str "https://example.org/a".
Proof.
  apply (extract_url_of_link (str "my|tool") (str "https://") (str "example.org/a")).
  - now right.
  - discriminate.
  - intros c Hc. vm_compute in Hc.
    repeat (destruct Hc as [<- | Hc]; [repeat split; discriminate|]). contradiction.
  - intros Hc. vm_compute in Hc. intuition discriminate.
Defined.

(** ** The table as text *)

(** X7.  Every row that [parse_markdown_rows] reads has exactly five
    cells; no cell holds a pipe or a line boundary, every cell is stripped
    and [sanitize_cell] leaves it unchanged. *)
Theorem parse_markdown_rows_cells (block : pystr) (r : row) :
  In r (parse_markdown_rows block) ->
  length r = 5%nat /\
  forall cell, In cell r ->
    ~ In PIPE cell /\ (forall c, In c cell -> is_linebreak c = false) /\
    strip cell = cell /\ sanitize_cell cell = cell.
Proof.
  intros Hr. pose proof (parse_markdown_rows_parsed block) as H.
  rewrite List.Forall_forall in H. destruct (H r Hr) as [Hlen Hcells].
  split; [exact Hlen|]. intros cell Hcell.
  rewrite List.Forall_forall in Hcells. specialize (Hcells cell Hcell).
  pose proof (parsed_cell_fixed cell Hcells) as Hfix.
  destruct Hcells as [H1 [H2 H3]]. repeat split; try assumption.
  now apply strip_with_fixed.
Qed.

Lemma parse_markdown_rows_cells_witness :
  length row_foo = 5%nat.
Proof.
  apply (parse_markdown_rows_cells
           (join [NEWLINE] [TABLE_HEADER; TABLE_DIVIDER; line_foo; str "| a | b |"]) row_foo).
  vm_compute. now left.
Defined.

Lemma splitlines_from_last (cur line : pystr) :
  (forall c, In c line -> is_linebreak c = false) ->
  rev cur ++ line <> [] ->
  splitlines_from cur line = [rev cur ++ line].
Proof.
  revert cur. induction line as [|c line IH]; intros cur Hline Hne.
  - rewrite app_nil_r in *. simpl. destruct cur; [contradiction | reflexivity].
  - simpl. rewrite (Hline c (or_introl eq_refl)).
    rewrite IH.
    + simpl. now rewrite <- app_assoc.
    + intros x Hx. apply Hline. now right.
    + simpl. rewrite <- app_assoc. intros H. apply app_eq_nil in H as [_ H]. discriminate.
Qed.

Lemma splitlines_join (line : pystr) (lines : list pystr) :
  Forall (fun l => (forall c, In c l -> is_linebreak c = false) /\ l <> []) (line :: lines) ->
  splitlines (join [NEWLINE] (line :: lines)) = line :: lines.
Proof.
  unfold splitlines. revert line. induction lines as [|l lines IH]; intros line H;
    apply Forall_cons_iff in H as [[Hline Hne] H].
  - simpl. now apply (splitlines_from_last [] line).
  - change (join [NEWLINE] (line :: l :: lines))
      with (line ++ NEWLINE :: join [NEWLINE] (l :: lines)).
    rewrite splitlines_from_line by assumption. simpl rev. cbn [app].
    f_equal. now apply IH.
Qed.

Lemma render_row_nonempty (r : row) : render_row r <> [].
Proof. unfold render_row. discriminate. Qed.

(** X8.  Reading back the text of a table gives the rows that were
    written: for rows of five sanitized cells that hold no line boundary
    and are not taken for the header, [parse_markdown_rows] of
    [build_table_text] is the list of rows, also when the text stands
    between two newlines as it does between the markers. *)
Theorem parse_build_table_text (table : list row) :
  Forall sanitized_row table ->
  Forall reparsable_row table ->
  parse_markdown_rows (build_table_text table) = table /\
  parse_markdown_rows ([NEWLINE] ++ build_table_text table ++ [NEWLINE]) = table.
Proof.
  intros Hs Hr. split; [|now apply parse_rendered_table].
  unfold parse_markdown_rows, build_table_text.
  change ([TABLE_HEADER; TABLE_DIVIDER] ++ List.map render_row table)
    with (TABLE_HEADER :: TABLE_DIVIDER :: List.map render_row table).
  rewrite splitlines_join.
  - change (parse_markdown_lines
              (TABLE_HEADER :: TABLE_DIVIDER :: List.map render_row table))
      with (parse_markdown_lines (List.map render_row table)).
    now apply parse_rendered_lines.
  - assert (Hconst : forall l : pystr,
              forallb (fun x => negb (is_linebreak x)) l = true ->
              forall c, In c l -> is_linebreak c = false).
    { intros l H c Hc. rewrite forallb_forall in H. apply H in Hc.
      now apply negb_true_iff in Hc. }
    constructor; [split; [now apply Hconst | discriminate]|].
    constructor; [split; [now apply Hconst | discriminate]|].
    apply List.Forall_forall. intros line Hline.
    apply in_map_iff in Hline as [r [<- Hin]].
    rewrite List.Forall_forall in Hs, Hr. split.
    + intros c. apply render_row_no_linebreak; auto.
    + apply render_row_nonempty.
Qed.

Lemma parse_build_table_text_witness :
  parse_markdown_rows (build_table_text [row_foo; row_plain]) = [row_foo; row_plain].
Proof.
  assert (Hs : Forall sanitized_row [row_foo; row_plain]).
  { constructor; [|constructor; [|constructor]].
    - exists (str "tool"), (str "alice"), (str "foo"), (str "[foo](https://x.com/a/foo)"),
        (str "first"). vm_compute. reflexivity.
    - exists (str "tool"), (str "carol"), (str "baz"), (str "baz"), (str "third").
      vm_compute. reflexivity. }
  assert (Hr : Forall reparsable_row [row_foo; row_plain]).
  { constructor; [|constructor; [|constructor]]; (split; [|intros [H1 _]; discriminate]);
      intros cell c Hcell Hc; vm_compute in Hcell;
      repeat (destruct Hcell as [<- | Hcell];
              [repeat (destruct Hc as [<- | Hc]; [reflexivity|]); contradiction|]);
      contradiction. }
  exact (proj1 (parse_build_table_text [row_foo; row_plain] Hs Hr)).
Defined.

(** ** Filtering *)

Section FilterFacts.
Variable lower : pystr -> pystr.
Variable parse_iso_time : pystr -> result datetime.
Variable http_user_location : pystr -> result (option pystr).

(** X9.  [is_excluded_repo] holds exactly when an excluded keyword,
    lower-cased, occurs somewhere in the lower-cased "name description",
    or a topic of the repository equals an excluded topic up to case; a
    topic that only contains an excluded topic does not count. *)
Theorem is_excluded_repo_iff (r : repo) (kws topics : list pystr) :
  is_excluded_repo lower r kws topics = true <->
  (exists kw before after,
     In kw kws /\
     lower (repo_name r ++ str " " ++ or_else (repo_description r) []) =
       before ++ lower kw ++ after) \/
  (exists t e, In t (repo_topics r) /\ In e topics /\ lower t = lower e).
Proof.
  unfold is_excluded_repo.
  destruct (existsb _ kws) eqn:E.
  - split; [intros _ | reflexivity]. left.
    apply existsb_exists in E as [kw [Hkw Hc]].
    apply contains_iff in Hc as [before [after Hc]]. eauto 6.
  - assert (Hno : ~ exists kw before after,
                    In kw kws /\
                    lower (repo_name r ++ str " " ++ or_else (repo_description r) []) =
                      before ++ lower kw ++ after).
    { intros [kw [before [after [Hkw Hc]]]].
      assert (Ht : existsb (fun kw => contains
                     (lower (repo_name r ++ str " " ++ or_else (repo_description r) []))
                     (lower kw)) kws = true).
      { apply existsb_exists. exists kw. split; [assumption|].
        apply contains_iff. eauto. }
      congruence. }
    rewrite existsb_exists. split.
    + intros [t [Ht Hd]]. right. apply bool_decide_eq_true in Hd.
      apply elem_of_list_to_set, list_elem_of_In, in_map_iff in Hd as [e [He Hin]].
      apply in_map_iff in Ht as [t0 [<- Ht0]]. exists t0, e. auto.
    + intros [H | [t [e [Ht [He Heq]]]]]; [contradiction|].
      exists (lower t). split; [now apply in_map|].
      apply bool_decide_eq_true, elem_of_list_to_set, list_elem_of_In.
      rewrite Heq. now apply in_map.
Qed.

(** X10.  [fetch_user_location] memoizes: after a lookup that succeeds the
    cache holds the location under the login and is unchanged elsewhere,
    and a further lookup of the login returns the same location and cache
    whatever the HTTP request would answer. *)
Theorem fetch_user_location_memoized (login : pystr) (cache cache' : gmap pystr pystr)
  (location : pystr) :
  fetch_user_location http_user_location login cache = Ok (location, cache') ->
  cache' !! login = Some location /\
  (forall other, other <> login -> cache' !! other = cache !! other) /\
  (forall http', fetch_user_location http' login cache' = Ok (location, cache')).
Proof.
  unfold fetch_user_location. destruct (cache !! login) as [loc|] eqn:E.
  - intros [= <- <-]. split; [assumption|]. split; [reflexivity|].
    intros http'. now rewrite E.
  - intros H. apply rbind_ok in H as [data [_ H]]. injection H as <- <-.
    split; [apply lookup_insert_eq|]. split.
    + intros other Hne. now apply lookup_insert_ne.
    + intros http'. now rewrite lookup_insert_eq.
Qed.

End FilterFacts.

Lemma fetch_user_location_memoized_witness :
  fetch_user_location (fun _ => Raise (RuntimeError [])) (str "alice")
    {[ str "alice" := str "Paris" ]} = Ok (str "Paris", {[ str "alice" := str "Paris" ]}).
Proof.
  apply (fetch_user_location_memoized sample_http_user_location (str "alice") ∅).
  reflexivity.
Defined.

(** ** The rows that [build_table_rows] builds *)

Section BuildFacts.
Variable lower : pystr -> pystr.
Variable parse_iso_time : pystr -> result datetime.
Variable http_user_location : pystr -> result (option pystr).

Lemma fetch_user_location_sound (login : pystr) (cache cache' : gmap pystr pystr)
  (location : pystr) :
  fetch_user_location http_user_location login cache = Ok (location, cache') ->
  cache_sound http_user_location cache ->
  cache_sound http_user_location cache' /\
  exists data, http_user_location login = Ok data /\ location = strip (or_else data []).
Proof.
  unfold fetch_user_location. intros H Hs.
  destruct (cache !! login) as [found|] eqn:E.
  - injection H as <- <-. split; [assumption|]. now apply Hs.
  - apply rbind_ok in H as [data [Hd H]]. injection H as <- <-. split; [|eauto].
    intros login' location' Hl.
    destruct (decide (login' = login)) as [->|Hne].
    + rewrite lookup_insert_eq in Hl. injection Hl as <-. eauto.
    + rewrite lookup_insert_ne in Hl by congruence. now apply Hs.
Qed.

Lemma candidate_of_cache (cfg : config) (cutoff : Z) (r : repo)
  (cache cache' : gmap pystr pystr) (o : option candidate) :
  candidate_of lower parse_iso_time http_user_location cfg cutoff r cache
    = Ok (o, cache') ->
  cache_sound http_user_location cache ->
  cache_sound http_user_location cache'.
Proof.
  unfold candidate_of. intros H Hs.
  repeat match type of H with
         | (if ?b then _ else _) = _ => destruct b; [now injection H as _ <-|]
         end.
  destruct (repo_pushed_at r) as [[|p0 pushed]|]; try (now injection H as _ <-).
  apply rbind_ok in H as [parsed [_ H]].
  apply rbind_ok in H as [pushed_time [_ H]].
  destruct (pushed_time <? cutoff); [now injection H as _ <-|].
  apply rbind_ok in H as [[owner_display cache1] [Hown H]].
  assert (Hs1 : cache_sound http_user_location cache1).
  { destruct (include_owner_location cfg && _); [|now injection Hown as _ <-].
    apply rbind_ok in Hown as [[location cache2] [Hf Hown]].
    apply fetch_user_location_sound in Hf as [Hs2 _]; [|assumption].
    destruct (truthy location); now injection Hown as _ <-. }
  destruct (require_homepage cfg && _); now injection H as _ <-.
Qed.

Lemma candidate_of_inv (cfg : config) (cutoff : Z) (r : repo)
  (cache cache' : gmap pystr pystr) (c : candidate) :
  candidate_of lower parse_iso_time http_user_location cfg cutoff r cache
    = Ok (Some c, cache') ->
  cache_sound http_user_location cache ->
  passes_filters lower parse_iso_time cfg cutoff r (pushed_at c) /\
  candidate_for lower http_user_location cfg r c.
Proof.
  unfold candidate_of, passes_filters, candidate_for. intros H Hs.
  destruct (repo_fork r); [discriminate|].
  destruct (repo_archived r); [discriminate|].
  destruct (repo_disabled r); [discriminate|]. cbn [orb] in H.
  destruct (is_excluded_repo lower r (exclude_keywords cfg) (exclude_topics cfg));
    [discriminate|].
  destruct (repo_owner_type r) as [t|]; [|discriminate].
  destruct (str_eqb t (str "User")) eqn:Et; [|discriminate].
  apply str_eqb_eq in Et. subst t. cbn [negb] in H.
  destruct (repo_stars r <? min_stars cfg) eqn:Es; [discriminate|].
  apply Z.ltb_ge in Es.
  destruct (repo_pushed_at r) as [[|p0 pushed]|]; try discriminate.
  apply rbind_ok in H as [parsed [Hparse H]].
  apply rbind_ok in H as [pushed_time [Haware H]].
  destruct parsed as [wall|instant]; [discriminate|]. injection Haware as ->.
  destruct (pushed_time <? cutoff) eqn:Ec; [discriminate|]. apply Z.ltb_ge in Ec.
  apply rbind_ok in H as [[owner_display cache1] [Hown H]].
  assert (Hdisplay : owner_display_of http_user_location cfg r owner_display).
  { unfold owner_display_of. cbv zeta.
    destruct (include_owner_location cfg && _); [|now injection Hown as <- _].
    apply rbind_ok in Hown as [[location cache2] [Hf Hown]].
    apply fetch_user_location_sound in Hf as [_ [data [Hd ->]]]; [|assumption].
    exists data. split; [assumption|].
    destruct (truthy (strip (or_else data []))); now injection Hown as <- _. }
  destruct (require_homepage cfg && _) eqn:Eh; [discriminate|].
  injection H as <- _. cbn [pushed_at stars has_homepage cand_row].
  repeat split; try reflexivity; try assumption.
  - exists (p0 :: pushed). repeat split; [discriminate | assumption].
  - intros Hreq. rewrite Hreq in Eh. cbn [andb] in Eh.
    apply negb_false_iff, truthy_true in Eh. exact Eh.
  - exists owner_display. split; [assumption | reflexivity].
Qed.

Lemma collect_candidates_inv (cfg : config) (cutoff : Z) (repos : list repo) :
  forall (cache : gmap pystr pystr) (cands : list candidate),
  collect_candidates lower parse_iso_time http_user_location cfg cutoff repos cache
    = Ok cands ->
  cache_sound http_user_location cache ->
  (length cands <= length repos)%nat /\
  Forall (fun c => exists r, In r repos /\
                     passes_filters lower parse_iso_time cfg cutoff r (pushed_at c) /\
                     candidate_for lower http_user_location cfg r c) cands.
Proof.
  induction repos as [|r repos IH]; simpl; intros cache cands H Hs.
  - injection H as <-. split; [simpl; lia | constructor].
  - apply rbind_ok in H as [[o cache'] [H1 H]].
    apply rbind_ok in H as [rest [H2 H]]. injection H as <-.
    pose proof (candidate_of_cache _ _ _ _ _ _ H1 Hs) as Hs'.
    destruct (IH _ _ H2 Hs') as [Hlen Hall].
    assert (Hall' : Forall (fun c => exists r0, In r0 (r :: repos) /\
                      passes_filters lower parse_iso_time cfg cutoff r0 (pushed_at c) /\
                      candidate_for lower http_user_location cfg r0 c) rest).
    { eapply List.Forall_impl; [|exact Hall].
      intros c [r0 [Hin Hc]]. exists r0. split; [now right | assumption]. }
    destruct o as [c|]; [|split; [simpl; lia | assumption]].
    split; [simpl; lia|]. constructor; [|assumption].
    exists r. split; [now left|]. eapply candidate_of_inv; eassumption.
Qed.

Lemma cache_sound_empty : cache_sound http_user_location ∅.
Proof. intros login location H. now rewrite lookup_empty in H. Qed.

Lemma candidate_for_normalized (cfg : config) (r : repo) (c : candidate) :
  candidate_for lower http_user_location cfg r c ->
  length (cand_row c) = 5%nat /\ has_link (cand_row c) = true /\
  link_sanitized (cand_row c) /\
  (max_description_length cfg <= 0 \/ 3 <= max_description_length cfg ->
   normalize_row (max_description_length cfg) (cand_row c) = cand_row c).
Proof.
  intros [_ [_ [owner_display [_ Hrow]]]]. rewrite Hrow.
  split; [reflexivity|]. split; [reflexivity|]. split.
  - unfold link_sanitized. cbn [nth]. apply sanitize_cell_idem.
  - intros Hm. rewrite normalize_row_five, !sanitize_cell_idem.
    set (d := truncate_text (or_else (repo_description r) NO_DESCRIPTION)
                (max_description_length cfg)).
    assert (Ht : truncate_text (sanitize_cell d) (max_description_length cfg)
                 = sanitize_cell d).
    { destruct Hm as [Hm | Hm]; [now apply truncate_text_unlimited|].
      apply truncate_text_short. pose proof (sanitize_cell_length d) as Hl.
      pose proof (truncate_text_bound (or_else (repo_description r) NO_DESCRIPTION)
                    (max_description_length cfg) Hm) as Hb.
      fold d in Hb. lia. }
    rewrite Ht. now rewrite sanitize_cell_idem.
Qed.

End BuildFacts.

Section BuildClaims.
Variable lower : pystr -> pystr.
Variable parse_iso_time : pystr -> result datetime.
Variable http_user_location : pystr -> result (option pystr).

Lemma build_table_rows_candidates (repos : list repo) (cfg : config) (now : Z)
  (rows : list row) (row0 : row) :
  build_table_rows lower parse_iso_time http_user_location repos cfg now = Ok rows ->
  In row0 rows ->
  exists r c,
    In r repos /\ cand_row c = row0 /\
    passes_filters lower parse_iso_time cfg
      (now - pushed_within_days cfg * MICROSECONDS_PER_DAY) r (pushed_at c) /\
    candidate_for lower http_user_location cfg r c.
Proof.
  intros H Hin. apply build_table_rows_eq in H as [cands [_ [Hc ->]]].
  apply in_map_iff in Hin as [c [<- Hin]]. apply slice_to_in in Hin.
  apply (Permutation_in _ (Permutation_sym (rank_candidates_perm _ _))) in Hin.
  apply collect_candidates_inv in Hc as [_ Hall]; [|apply cache_sound_empty].
  rewrite List.Forall_forall in Hall. destruct (Hall c Hin) as [r [Hr [Hp Hf]]].
  exists r, c. auto.
Qed.

(** X11.  Every row that [build_table_rows] returns has five cells and a
    sanitized link cell, and with a description bound that is 0 or at
    least 3 the normalization of [update_readme] with the same bound
    leaves the row as it is. *)
Theorem build_table_rows_normalized (repos : list repo) (cfg : config) (now : Z)
  (rows : list row) (r : row) :
  build_table_rows lower parse_iso_time http_user_location repos cfg now = Ok rows ->
  In r rows ->
  length r = 5%nat /\ link_sanitized r /\
  (max_description_length cfg <= 0 \/ 3 <= max_description_length cfg ->
   normalize_row (max_description_length cfg) r = r).
Proof.
  intros H Hin.
  destruct (build_table_rows_candidates _ _ _ _ _ H Hin) as [r0 [c [_ [<- [_ Hc]]]]].
  destruct (candidate_for_normalized lower http_user_location cfg r0 c Hc)
    as [H1 [_ [H2 H3]]].
  auto.
Qed.

(** X12.  [build_table_rows] returns at most one row per repository, and
    at most [max_new_per_run] rows when that bound is not negative. *)
Theorem build_table_rows_length (repos : list repo) (cfg : config) (now : Z)
  (rows : list row) :
  build_table_rows lower parse_iso_time http_user_location repos cfg now = Ok rows ->
  len rows <= len repos /\
  (0 <= max_new_per_run cfg -> len rows <= max_new_per_run cfg).
Proof.
  intros H. apply build_table_rows_eq in H as [cands [_ [Hc ->]]].
  apply collect_candidates_inv in Hc as [Hlen _]; [|apply cache_sound_empty].
  pose proof (Permutation_length (rank_candidates_perm (prefer_homepage cfg) cands)) as Hp.
  unfold len, slice_to. rewrite length_map, length_firstn. split; [lia|].
  intros Hmax. rewrite clip_index_nonneg by assumption. lia.
Qed.

(** X13.  Every row that [build_table_rows] returns is the row of a
    repository of the input that passes all filters: not a fork, not
    archived, not disabled, not excluded by keyword or topic, owned by a
    "User", with at least [min_stars] stars, with a push time that parses
    to an aware time not before the cut-off, and with a home page when one
    is required.  Its cells are the sanitized category, owner display,
    project name, link and truncated description of that repository, where
    the owner display is the stripped login, followed in parentheses by
    the stripped location that the lookup of the login answers when
    locations are asked for and login and location are not empty. *)
Theorem build_table_rows_filtered (repos : list repo) (cfg : config) (now : Z)
  (rows : list row) (row0 : row) :
  build_table_rows lower parse_iso_time http_user_location repos cfg now = Ok rows ->
  In row0 rows ->
  exists r t owner_display,
    In r repos /\
    passes_filters lower parse_iso_time cfg
      (now - pushed_within_days cfg * MICROSECONDS_PER_DAY) r t /\
    owner_display_of http_user_location cfg r owner_display /\
    row0 =
      [ sanitize_cell (classify_category lower r (categories cfg) (category_default cfg));
        sanitize_cell owner_display;
        sanitize_cell (project_name_of r);
        sanitize_cell (str "[" ++ project_name_of r ++ str "](" ++ project_url_of r ++ str ")");
        sanitize_cell (truncate_text (or_else (repo_description r) NO_DESCRIPTION)
                         (max_description_length cfg)) ].
Proof.
  intros H Hin.
  destruct (build_table_rows_candidates _ _ _ _ _ H Hin)
    as [r [c [Hr [<- [Hp [_ [_ [owner_display [Hown Hrow]]]]]]]]].
  exists r, (pushed_at c), owner_display. auto.
Qed.

Lemma candidate_of_without_lookup (http' : pystr -> result (option pystr))
  (cfg : config) (cutoff : Z) (r : repo) (cache : gmap pystr pystr) :
  include_owner_location cfg = false ->
  candidate_of lower parse_iso_time http_user_location cfg cutoff r cache =
  candidate_of lower parse_iso_time http' cfg cutoff r cache.
Proof. intros H. unfold candidate_of. now rewrite H. Qed.

(** X14.  When [include_owner_location] is off, [build_table_rows] makes
    no request for an owner: its result is the same whatever such a
    request would answer. *)
Theorem build_table_rows_without_lookup (http' : pystr -> result (option pystr))
  (repos : list repo) (cfg : config) (now : Z) :
  include_owner_location cfg = false ->
  build_table_rows lower parse_iso_time http_user_location repos cfg now =
  build_table_rows lower parse_iso_time http' repos cfg now.
Proof.
  intros H. unfold build_table_rows.
  destruct (cutoff_time now (pushed_within_days cfg)) as [cutoff|e]; [|reflexivity].
  simpl. f_equal.
  generalize (∅ : gmap pystr pystr).
  induction repos as [|r repos IH]; intros cache; [reflexivity|].
  simpl. rewrite (candidate_of_without_lookup http') by assumption.
  destruct (candidate_of _ _ http' _ _ _ _) as [[o cache']|e]; [|reflexivity].
  simpl. now rewrite IH.
Qed.

End BuildClaims.

Lemma sample_build :
  build_table_rows ascii_lower sample_parse_iso_time sample_http_user_location
    [repo_popular; repo_homepage_50] (sample_config true) sample_now =
  Ok [built_row_notes; built_row_ai_chat].
Proof. vm_compute. reflexivity. Qed.

Lemma build_table_rows_normalized_witness :
  normalize_row 12 built_row_ai_chat = built_row_ai_chat.
Proof.
  apply (build_table_rows_normalized ascii_lower sample_parse_iso_time
           sample_http_user_location [repo_popular; repo_homepage_50]
           (sample_config true) sample_now _ built_row_ai_chat sample_build).
  - right. now left.
  - right. simpl. lia.
Defined.

Lemma build_table_rows_length_witness :
  len [built_row_notes; built_row_ai_chat] <= 5.
Proof.
  apply (build_table_rows_length ascii_lower sample_parse_iso_time
           sample_http_user_location [repo_popular; repo_homepage_50]
           (sample_config true) sample_now _ sample_build).
  simpl. lia.
Defined.

Lemma build_table_rows_filtered_witness :
  exists r t owner_display,
    In r [repo_popular; repo_homepage_50] /\
    passes_filters ascii_lower sample_parse_iso_time (sample_config true)
      (sample_now - pushed_within_days (sample_config true) * MICROSECONDS_PER_DAY) r t /\
    owner_display_of sample_http_user_location (sample_config true) r owner_display /\
    built_row_notes =
      [ sanitize_cell (classify_category ascii_lower r (categories (sample_config true))
                         (category_default (sample_config true)));
        sanitize_cell owner_display;
        sanitize_cell (project_name_of r);
        sanitize_cell (str "[" ++ project_name_of r ++ str "](" ++ project_url_of r ++ str ")");
        sanitize_cell (truncate_text (or_else (repo_description r) NO_DESCRIPTION)
                         (max_description_length (sample_config true))) ].
Proof.
  apply (build_table_rows_filtered ascii_lower sample_parse_iso_time
           sample_http_user_location [repo_popular; repo_homepage_50]
           (sample_config true) sample_now _ built_row_notes sample_build).
  now left.
Defined.

Lemma build_table_rows_without_lookup_witness :
  build_table_rows ascii_lower sample_parse_iso_time (fun _ => Raise (RuntimeError []))
    [repo_popular; repo_homepage_50] sample_config_plain sample_now =
  build_table_rows ascii_lower sample_parse_iso_time sample_http_user_location
    [repo_popular; repo_homepage_50] sample_config_plain sample_now.
Proof.
  apply (build_table_rows_without_lookup ascii_lower sample_parse_iso_time
           (fun _ => Raise (RuntimeError [])) sample_http_user_location).
  reflexivity.
Defined.

(** ** Further properties of [update_readme] *)

Section UpdateFacts.
Variable lower : pystr -> pystr.

(** X15.  For a file without carriage return, which is read as it is
    stored, a successful [update_readme] touches nothing but the block
    between the markers of the one file: every other file is as it was,
    and the new content is the old text before the start marker, the two
    markers around the new table text (each row of five sanitized cells),
    and the old text after the end marker.  The count it returns is
    between 0 and the number of new rows. *)
Theorem update_readme_preserves_surroundings (path : pystr) (new_rows : list row)
  (max_total max_desc_len : Z) (kws : list pystr) (prune : bool)
  (fs fs' : file_system) (content : pystr) (n : Z) :
  fs !! path = Some content ->
  contains content [CARRIAGE_RETURN] = false ->
  update_readme lower path new_rows max_total max_desc_len kws prune fs = (Ok n, fs') ->
  0 <= n <= len new_rows /\
  (forall other, other <> path -> fs' !! other = fs !! other) /\
  exists start end_ table,
    locate_markers content = Ok (start, end_) /\
    Forall sanitized_row table /\
    fs' !! path =
      Some (slice_to content start ++
            AUTO_START ++ [NEWLINE] ++ build_table_text table ++ [NEWLINE] ++ AUTO_END ++
            slice_from content (end_ + len AUTO_END)).
Proof.
  intros Hfs _. rewrite update_readme_eq, Hfs.
  rewrite merge_readme_eq.
  destruct (locate_markers content) as [[start end_]|e] eqn:Hloc; [|discriminate].
  cbv zeta. destruct (forallb has_link new_rows); [|discriminate].
  intros [= <- <-]. split; [|split].
  - unfold len, kept_new. pose proof (filter_length_le
      (fun r => negb (url_taken (existing_rows_of lower content start end_ kws prune) r))
      new_rows). lia.
  - intros other Hne. now apply lookup_insert_ne.
  - exists start, end_,
      (cap_rows max_total
         (normalized_rows max_desc_len
            (kept_new (existing_rows_of lower content start end_ kws prune) new_rows)
            (existing_rows_of lower content start end_ kws prune))).
    split; [reflexivity|].
    split; [apply normalized_rows_sanitized|].
    match goal with
    | |- _ = Some ?v =>
        replace v with
          (splice content start end_
             (cap_rows max_total
                (normalized_rows max_desc_len
                   (kept_new (existing_rows_of lower content start end_ kws prune) new_rows)
                   (existing_rows_of lower content start end_ kws prune))))
          by (unfold splice; now rewrite <- !app_assoc)
    end.
    apply lookup_insert_eq.
Qed.

(** X16.  A new row with fewer than four cells makes [update_readme]
    raise [IndexError], also when the markers are in place, and the file
    is not written. *)
Theorem update_readme_short_row (path : pystr) (new_rows : list row)
  (max_total max_desc_len : Z) (kws : list pystr) (prune : bool) (fs : file_system)
  (content : pystr) (start end_ : Z) (r : row) :
  fs !! path = Some content ->
  locate_markers content = Ok (start, end_) ->
  In r new_rows -> (length r < 4)%nat ->
  update_readme lower path new_rows max_total max_desc_len kws prune fs =
    (Raise IndexError, fs).
Proof.
  intros Hfs Hloc Hin Hshort. rewrite update_readme_eq, Hfs, merge_readme_eq, Hloc.
  cbv zeta. destruct (forallb has_link new_rows) eqn:E; [|reflexivity].
  rewrite forallb_forall in E. specialize (E r Hin).
  unfold has_link in E. apply Nat.ltb_lt in E. lia.
Qed.

(** X17.  The document that [update_readme] writes can be updated again:
    unless the text of the new table holds an end marker, the start
    marker is found where it was and the end marker right after the
    table. *)
Theorem update_readme_keeps_markers (content : pystr) (new_rows : list row)
  (max_total max_desc_len : Z) (kws : list pystr) (prune : bool)
  (added table : list row) (new_content : pystr) :
  merge_readme lower content new_rows max_total max_desc_len kws prune =
    Ok (added, table, new_content) ->
  contains (build_table_text table) AUTO_END = false ->
  exists start end_,
    locate_markers content = Ok (start, end_) /\
    locate_markers new_content =
      Ok (start, start + len AUTO_START + 1 + len (build_table_text table) + 1).
Proof.
  rewrite merge_readme_eq.
  destruct (locate_markers content) as [[start end_]|e] eqn:Hloc; [|discriminate].
  cbv zeta. destruct (forallb has_link new_rows); [|discriminate].
  intros [= <- <- <-] Htext. exists start, end_. split; [first [reflexivity | exact Hloc]|].
  now destruct (splice_shape content start end_ _ Hloc Htext) as [_ [_ H]].
Qed.

(** X18.  A negative [max_total] is a slice bound that counts from the
    end: the table that is written is the merged list without its last
    [- max_total] rows, and is empty when the list is that short. *)
Theorem update_readme_negative_max_total (path : pystr) (new_rows : list row)
  (max_total max_desc_len : Z) (kws : list pystr) (prune : bool) (fs : file_system)
  (content : pystr) (start end_ : Z) :
  max_total < 0 ->
  fs !! path = Some content ->
  locate_markers content = Ok (start, end_) ->
  forallb has_link new_rows = true ->
  let existing_rows := existing_rows_of lower content start end_ kws prune in
  let added := kept_new existing_rows new_rows in
  let merged := List.map (normalize_row max_desc_len) (added ++ existing_rows) in
  update_readme lower path new_rows max_total max_desc_len kws prune fs =
    (Ok (len added),
     <[path := splice content start end_
                 (firstn (length merged - Z.to_nat (- max_total)) merged)]> fs).
Proof.
  intros Hneg Hfs Hloc Hlinks existing_rows added merged.
  rewrite update_readme_eq, Hfs, merge_readme_eq, Hloc. cbv zeta. rewrite Hlinks.
  fold existing_rows. fold added. unfold cap_rows, normalized_rows. fold merged.
  assert (E : negb (max_total =? 0) && (len merged >? max_total) = true).
  { apply andb_true_iff. split.
    - apply negb_true_iff, Z.eqb_neq. lia.
    - apply Z.gtb_gt. pose proof (len_nonneg merged). lia. }
  rewrite E. now rewrite slice_to_negative.
Qed.

End UpdateFacts.

Lemma update_readme_preserves_surroundings_witness :
  0 <= 1 <= len [row_bar; row_foo].
Proof.
  apply (update_readme_preserves_surroundings ascii_lower README [row_bar; row_foo] 1 0 []
           false {[ README := readme_with [line_foo] ]}
           {[ README := readme_with [TABLE_HEADER; TABLE_DIVIDER; line_bar] ]}
           (readme_with [line_foo]) 1).
  - reflexivity.
  - vm_compute. reflexivity.
  - vm_compute. reflexivity.
Defined.

Lemma update_readme_short_row_witness :
  update_readme ascii_lower README [row_bar; [str "tool"; str "bob"; str "bar"]] 0 0 []
    false {[ README := readme_with [line_foo] ]} =
  (Raise IndexError, {[ README := readme_with [line_foo] ]}).
Proof.
  apply (update_readme_short_row ascii_lower README
           [row_bar; [str "tool"; str "bob"; str "bar"]] 0 0 [] false
           {[ README := readme_with [line_foo] ]} (readme_with [line_foo]) 11 101
           [str "tool"; str "bob"; str "bar"]).
  - reflexivity.
  - reflexivity.
  - right. now left.
  - simpl. lia.
Defined.

Lemma update_readme_keeps_markers_witness :
  exists start end_,
    locate_markers (readme_with [line_foo]) = Ok (start, end_) /\
    locate_markers (readme_with [TABLE_HEADER; TABLE_DIVIDER; line_bar; line_foo]) =
      Ok (start, start + len AUTO_START + 1 +
                 len (build_table_text [row_bar; row_foo]) + 1).
Proof.
  apply (update_readme_keeps_markers ascii_lower (readme_with [line_foo])
           [row_bar; row_foo] 0 0 [] false [row_bar] [row_bar; row_foo]
           (readme_with [TABLE_HEADER; TABLE_DIVIDER; line_bar; line_foo])).
  - vm_compute. reflexivity.
  - vm_compute. reflexivity.
Defined.

Lemma update_readme_negative_max_total_witness :
  update_readme ascii_lower README [row_bar] (-1) 0 [] false
    {[ README := readme_with [line_foo] ]} =
  (Ok 1, {[ README := readme_with [TABLE_HEADER; TABLE_DIVIDER; line_bar] ]}).
Proof.
  pose proof (update_readme_negative_max_total ascii_lower README [row_bar] (-1) 0 []
                false {[ README := readme_with [line_foo] ]} (readme_with [line_foo])
                11 101 ltac:(lia) eq_refl eq_refl eq_refl) as H.
  cbv zeta in H. rewrite H. vm_compute. reflexivity.
Defined.

(** ** Searching *)

Section SearchFacts.
Variable http_search : search_query -> Z -> Z -> result (list search_item).

Lemma add_items_spec (items : list search_item) :
  forall repos seen_ids repos' seen_ids',
  seen_invariant repos seen_ids ->
  add_items items repos seen_ids = (repos', seen_ids') ->
  seen_invariant repos' seen_ids' /\
  (exists extra, repos' = repos ++ extra /\ forall it, In it extra -> In it items) /\
  (forall it, In it items -> item_id it ∈ seen_ids').
Proof.
  induction items as [|it items IH]; intros repos seen repos' seen' Hinv H.
  - injection H as <- <-. split; [assumption|]. split; [|intros it []].
    exists []. split; [now rewrite app_nil_r | intros it []].
  - simpl in H. destruct (bool_decide (item_id it ∈ seen)) eqn:E.
    + apply bool_decide_eq_true in E.
      destruct (IH _ _ _ _ Hinv H) as [Hinv' [[extra [Hex Hin]] Hall]].
      split; [assumption|]. split.
      * exists extra. split; [assumption | intros x Hx; right; auto].
      * intros x [<- | Hx]; [|auto].
        destruct Hinv as [_ Hseen], Hinv' as [_ Hseen'].
        apply Hseen'. rewrite Hex, map_app. apply in_or_app. left. now apply Hseen.
    + apply bool_decide_eq_false in E.
      assert (Hinv1 : seen_invariant (repos ++ [it]) ({[ item_id it ]} ∪ seen)).
      { destruct Hinv as [Hnd Hseen]. split.
        - rewrite map_app. apply NoDup_app. split; [assumption|]. split.
          + intros i Hi [Hi' | []]%list_elem_of_In. subst i.
            apply E, Hseen. now apply list_elem_of_In.
          + apply NoDup_singleton.
        - intros i. rewrite elem_of_union, elem_of_singleton, map_app, in_app_iff, Hseen.
          simpl. intuition. }
      destruct (IH _ _ _ _ Hinv1 H) as [Hinv' [[extra [Hex Hin]] Hall]].
      split; [assumption|]. split.
      * exists (it :: extra). split.
        -- rewrite Hex, <- app_assoc. reflexivity.
        -- intros x [<- | Hx]; [now left | right; auto].
      * intros x [<- | Hx]; [|auto].
        destruct Hinv' as [_ Hseen']. apply Hseen'.
        rewrite Hex, !map_app. apply in_or_app. left. apply in_or_app. right. now left.
Qed.

Lemma search_pages_spec (query : search_query) (per_page : Z) (pages : list Z) :
  forall repos seen_ids repos' seen_ids',
  seen_invariant repos seen_ids ->
  search_pages http_search query per_page pages repos seen_ids = Ok (repos', seen_ids') ->
  seen_invariant repos' seen_ids' /\
  exists extra, repos' = repos ++ extra /\
    forall it, In it extra -> fetched http_search [query] per_page pages it.
Proof.
  induction pages as [|page pages IH]; intros repos seen repos' seen' Hinv H.
  - injection H as <- <-. split; [assumption|].
    exists []. split; [now rewrite app_nil_r | intros it []].
  - simpl in H. apply rbind_ok in H as [items [Hget H]].
    destruct (negb (truthy items)).
    + injection H as <- <-. split; [assumption|].
      exists []. split; [now rewrite app_nil_r | intros it []].
    + destruct (add_items items repos seen) as [repos1 seen1] eqn:Eadd.
      destruct (add_items_spec _ _ _ _ _ Hinv Eadd) as [Hinv1 [[extra1 [Hex1 Hin1]] _]].
      destruct (IH _ _ _ _ Hinv1 H) as [Hinv' [extra [Hex Hin]]].
      split; [assumption|]. exists (extra1 ++ extra). split.
      * now rewrite Hex, Hex1, app_assoc.
      * intros it Hit. apply in_app_or in Hit as [Hit | Hit].
        -- exists query, page, items. repeat split; [now left | now left | assumption | auto].
        -- destruct (Hin it Hit) as [q [p [its [Hq [Hp [Hg Hi]]]]]].
           exists q, p, its. repeat split; [assumption | now right | assumption | assumption].
Qed.

Lemma search_queries_spec (queries : list search_query) (per_page max_pages : Z) :
  forall repos seen_ids result,
  seen_invariant repos seen_ids ->
  search_queries http_search queries per_page max_pages repos seen_ids = Ok result ->
  NoDup (List.map item_id result) /\
  exists extra, result = repos ++ extra /\
    forall it, In it extra ->
      fetched http_search queries per_page (page_range max_pages) it.
Proof.
  induction queries as [|query queries IH]; intros repos seen result Hinv H.
  - injection H as <-. split; [apply Hinv|].
    exists []. split; [now rewrite app_nil_r | intros it []].
  - simpl in H. apply rbind_ok in H as [[repos1 seen1] [Hpages H]].
    destruct (search_pages_spec _ _ _ _ _ _ _ Hinv Hpages) as [Hinv1 [extra1 [Hex1 Hin1]]].
    destruct (IH _ _ _ Hinv1 H) as [Hnd [extra [Hex Hin]]].
    split; [assumption|]. exists (extra1 ++ extra). split.
    + now rewrite Hex, Hex1, app_assoc.
    + intros it Hit. apply in_app_or in Hit as [Hit | Hit].
      * destruct (Hin1 it Hit) as [q [p [its [[<- | []] [Hp [Hg Hi]]]]]].
        exists query, p, its. repeat split; [now left | assumption..].
      * destruct (Hin it Hit) as [q [p [its [Hq [Hp [Hg Hi]]]]]].
        exists q, p, its. repeat split; [now right | assumption..].
Qed.

Lemma page_range_in (max_pages page : Z) :
  In page (page_range max_pages) <-> 1 <= page <= max_pages.
Proof.
  unfold page_range. rewrite in_map_iff. split.
  - intros [k [<- Hk]]. apply in_seq in Hk. lia.
  - intros H. exists (Z.to_nat page). split; [lia|]. apply in_seq. lia.
Qed.

(** X19.  The repositories that [search_repositories] returns have
    pairwise distinct ids, and each of them is an item of the answer to a
    request for one of the queries and a page between 1 and [max_pages]. *)
Theorem search_repositories_distinct_ids (queries : list search_query)
  (per_page max_pages : Z) (repos : list search_item) :
  search_repositories http_search queries per_page max_pages = Ok repos ->
  NoDup (List.map item_id repos) /\
  forall it, In it repos ->
    exists query page items,
      In query queries /\ 1 <= page <= max_pages /\
      http_search query per_page page = Ok items /\ In it items.
Proof.
  unfold search_repositories. intros H.
  assert (Hinv : seen_invariant [] ∅).
  { split; [constructor|]. intros i. split; [set_solver | intros []]. }
  destruct (search_queries_spec _ _ _ _ _ _ Hinv H) as [Hnd [extra [-> Hin]]].
  split; [assumption|]. intros it Hit.
  destruct (Hin it Hit) as [q [p [its [Hq [Hp [Hg Hi]]]]]].
  exists q, p, its. repeat split; try assumption; apply page_range_in in Hp; lia.
Qed.

End SearchFacts.

Lemma search_repositories_distinct_ids_witness :
  NoDup (List.map item_id
           [ {| item_id := Some 1; item_repo := repo_popular |};
             {| item_id := Some 2; item_repo := repo_homepage_50 |} ]).
Proof.
  apply (search_repositories_distinct_ids sample_http_search [query_tools; query_tools]
           100 3).
  vm_compute. reflexivity.
Defined.

Section SearchMore.
Variable http_search : search_query -> Z -> Z -> result (list search_item).

Lemma page_range_sorted (max_pages : Z) : StronglySorted Z.lt (page_range max_pages).
Proof.
  unfold page_range. generalize 1%nat.
  induction (Z.to_nat max_pages) as [|n IH]; intros a; simpl; constructor.
  - apply IH.
  - apply List.Forall_forall. intros p Hp. apply in_map_iff in Hp as [k [<- Hk]].
    apply in_seq in Hk. lia.
Qed.

Lemma search_pages_reaches (query : search_query) (per_page page : Z)
  (items : list search_item) (pages : list Z) :
  StronglySorted Z.lt pages ->
  In page pages ->
  (forall p, In p pages -> p < page -> http_search query per_page p <> Ok []) ->
  http_search query per_page page = Ok items ->
  forall repos seen_ids repos' seen_ids',
  seen_invariant repos seen_ids ->
  search_pages http_search query per_page pages repos seen_ids = Ok (repos', seen_ids') ->
  forall it, In it items -> In (item_id it) (List.map item_id repos').
Proof.
  intros Hsorted. induction Hsorted as [|p0 pages Hs IH Hlt];
    intros Hin Hfull Hget repos seen repos' seen' Hinv H it Hit; [destruct Hin|].
  simpl in H. apply rbind_ok in H as [items0 [Hget0 H]].
  destruct (Z.eq_dec p0 page) as [-> | Hne].
  - rewrite Hget in Hget0. injection Hget0 as <-.
    destruct items as [|i0 items]; [destruct Hit|]. cbn [truthy negb] in H.
    destruct (add_items (i0 :: items) repos seen) as [repos1 seen1] eqn:Eadd.
    destruct (add_items_spec _ _ _ _ _ Hinv Eadd) as [Hinv1 [_ Hall]].
    destruct (search_pages_spec _ _ _ _ _ _ _ _ Hinv1 H) as [_ [extra [-> _]]].
    rewrite map_app. apply in_or_app. left. apply Hinv1. now apply Hall.
  - destruct Hin as [Heq | Hin]; [contradiction|].
    assert (Hp0 : p0 < page) by (rewrite List.Forall_forall in Hlt; now apply Hlt).
    destruct items0 as [|i0 items0].
    + exfalso. apply (Hfull p0); [now left | assumption | assumption].
    + cbn [truthy negb] in H.
      destruct (add_items (i0 :: items0) repos seen) as [repos1 seen1] eqn:Eadd.
      destruct (add_items_spec _ _ _ _ _ Hinv Eadd) as [Hinv1 _].
      apply (IH Hin) with (repos := repos1) (seen_ids := seen1) (seen_ids' := seen');
        try assumption.
      intros p Hp. apply Hfull. now right.
Qed.

Lemma search_queries_reaches (query : search_query) (per_page max_pages page : Z)
  (items : list search_item) (queries : list search_query) :
  In query queries ->
  1 <= page <= max_pages ->
  (forall p, 1 <= p < page -> http_search query per_page p <> Ok []) ->
  http_search query per_page page = Ok items ->
  forall repos seen_ids result,
  seen_invariant repos seen_ids ->
  search_queries http_search queries per_page max_pages repos seen_ids = Ok result ->
  forall it, In it items -> In (item_id it) (List.map item_id result).
Proof.
  intros Hin Hpage Hfull Hget.
  induction queries as [|q queries IH]; intros repos seen result Hinv H it Hit;
    [destruct Hin|].
  simpl in H. apply rbind_ok in H as [[repos1 seen1] [Hpages H]].
  destruct (search_pages_spec _ _ _ _ _ _ _ _ Hinv Hpages) as [Hinv1 _].
  destruct (search_queries_spec _ _ _ _ _ _ _ Hinv1 H) as [_ [extra [Hex _]]].
  destruct Hin as [-> | Hin].
  - rewrite Hex, map_app. apply in_or_app. left.
    apply (search_pages_reaches query per_page page items (page_range max_pages)
             (page_range_sorted max_pages)) with (repos := repos) (seen_ids := seen)
             (seen_ids' := seen1); try assumption.
    + now apply page_range_in.
    + intros p Hp Hlt. apply Hfull. apply page_range_in in Hp. lia.
  - now apply (IH Hin repos1 seen1).
Qed.

(** X20.  With [max_pages] zero or negative [search_repositories] makes no
    request and returns no repository, whatever the queries. *)
Theorem search_repositories_no_pages (queries : list search_query)
  (per_page max_pages : Z) :
  max_pages <= 0 ->
  search_repositories http_search queries per_page max_pages = Ok [].
Proof.
  intros H. unfold search_repositories. generalize (∅ : gset (option Z)).
  assert (Hr : page_range max_pages = []).
  { unfold page_range. replace (Z.to_nat max_pages) with 0%nat by lia. reflexivity. }
  induction queries as [|q queries IH]; intros seen; [reflexivity|].
  simpl. rewrite Hr. simpl. apply IH.
Qed.

(** X21.  Nothing that is fetched is lost: when [search_repositories]
    succeeds, the id of every item of a page of a query is the id of a
    repository of the result, provided that no earlier page of that query
    is empty (an empty page ends the paging of a query). *)
Theorem search_repositories_complete (queries : list search_query)
  (per_page max_pages : Z) (repos : list search_item)
  (query : search_query) (page : Z) (items : list search_item) (it : search_item) :
  search_repositories http_search queries per_page max_pages = Ok repos ->
  In query queries ->
  1 <= page <= max_pages ->
  (forall p, 1 <= p < page -> http_search query per_page p <> Ok []) ->
  http_search query per_page page = Ok items ->
  In it items ->
  In (item_id it) (List.map item_id repos).
Proof.
  intros H Hq Hpage Hfull Hget Hit.
  assert (Hinv : seen_invariant [] ∅).
  { split; [constructor|]. intros i. split; [set_solver | intros []]. }
  now apply (search_queries_reaches query per_page max_pages page items queries
               Hq Hpage Hfull Hget [] ∅ repos Hinv H).
Qed.

End SearchMore.

Lemma search_repositories_no_pages_witness :
  search_repositories sample_http_search [query_down] 100 0 = Ok [].
Proof. apply (search_repositories_no_pages sample_http_search [query_down] 100 0). lia. Defined.

Lemma search_repositories_complete_witness :
  In (Some 1)
    (List.map item_id
       [ {| item_id := Some 1; item_repo := repo_popular |};
         {| item_id := Some 2; item_repo := repo_homepage_50 |} ]).
Proof.
  apply (search_repositories_complete sample_http_search [query_tools] 100 3 _
           query_tools 2 [ {| item_id := Some 1; item_repo := repo_popular |} ]
           {| item_id := Some 1; item_repo := repo_popular |}).
  - vm_compute. reflexivity.
  - now left.
  - lia.
  - intros p Hp. assert (p = 1) as -> by lia. discriminate.
  - reflexivity.
  - now left.
Defined.

(** ** The entry point *)

Section MainFacts.
Variable lower : pystr -> pystr.
Variable parse_iso_time : pystr -> result datetime.
Variable http_user_location : pystr -> result (option pystr).
Variable http_search : search_query -> Z -> Z -> result (list search_item).
Variable load_config : pystr -> file_system -> result settings.
Variable print_added : Z -> result unit.
Variable print_stderr : pystr -> result unit.

Lemma build_table_rows_has_link (repos : list repo) (cfg : config) (now : Z)
  (rows : list row) :
  build_table_rows lower parse_iso_time http_user_location repos cfg now = Ok rows ->
  forallb has_link rows = true.
Proof.
  intros H. apply forallb_forall. intros row0 Hin.
  destruct (build_table_rows_candidates lower parse_iso_time http_user_location
              repos cfg now rows row0 H Hin)
    as [r [c [_ [<- [_ [_ [_ [owner [_ ->]]]]]]]]].
  reflexivity.
Qed.

Lemma update_readme_raise (path : pystr) (new_rows : list row)
  (max_total max_desc_len : Z) (kws : list pystr) (prune : bool)
  (fs fs' : file_system) (e : pyerror) :
  update_readme lower path new_rows max_total max_desc_len kws prune fs = (Raise e, fs') ->
  fs' = fs /\
  ((e = FileNotFoundError /\ fs !! path = None) \/ e = RuntimeError MSG_NO_MARKERS \/
   (e = IndexError /\ forallb has_link new_rows = false)).
Proof.
  rewrite update_readme_eq.
  destruct (fs !! path) as [content|]; [|intros [= <- <-]; auto].
  rewrite merge_readme_eq. unfold locate_markers.
  destruct (_ || _ || _).
  - intros [= <- <-]. auto.
  - cbv zeta. destruct (forallb has_link new_rows).
    + discriminate.
    + intros [= <- <-]. auto.
Qed.

Lemma main_try_raise (s : settings) (readme_path : pystr) (now : Z)
  (fs fs' : file_system) (e : pyerror) :
  main_try lower parse_iso_time http_user_location http_search s readme_path now fs
    = (Raise e, fs') ->
  fs' = fs.
Proof.
  unfold main_try.
  destruct (search_repositories _ _ _ _) as [repos|e0]; [|now intros [= _ <-]].
  destruct (build_table_rows _ _ _ _ _ _) as [rows|e0]; [|now intros [= _ <-]].
  intros H. now apply update_readme_raise in H as [-> _].
Qed.

(** X22.  When [main] returns exit code 1, the configuration was loaded, a
    [RuntimeError] arose in the [try] block, in the search, in the building
    of the rows or because the README lacks its markers, its message was
    printed, and no file has been written.  When [main] returns exit code
    0, the three stages of the [try] block succeeded and the count that
    [update_readme] returned was printed.  [main] returns no other exit
    code. *)
Theorem main_exit_code (config_path readme_path : pystr) (now : Z)
  (fs fs' : file_system) (code : Z) :
  main lower parse_iso_time http_user_location http_search load_config
    print_added print_stderr config_path readme_path now fs = (Ok code, fs') ->
  exists s,
    load_config config_path fs = Ok s /\
    let cfg := set_config s in
    let search := search_repositories http_search (set_queries s) (set_per_page s)
                    (set_max_pages s) in
    let build repos := build_table_rows lower parse_iso_time http_user_location
                         (List.map item_repo repos) cfg now in
    let update rows := update_readme lower readme_path rows (set_max_total s)
                         (max_description_length cfg) (exclude_keywords cfg)
                         (set_prune_existing s) fs in
    (code = 1 /\ fs' = fs /\
     exists msg,
       print_stderr msg = Ok tt /\
       (search = Raise (RuntimeError msg) \/
        (exists repos, search = Ok repos /\ build repos = Raise (RuntimeError msg)) \/
        (exists repos rows,
           search = Ok repos /\ build repos = Ok rows /\ msg = MSG_NO_MARKERS /\
           update rows = (Raise (RuntimeError MSG_NO_MARKERS), fs)))) \/
    (code = 0 /\
     exists repos rows added,
       search = Ok repos /\ build repos = Ok rows /\
       fst (update rows) = Ok added /\ print_added added = Ok tt).
Proof.
  unfold main. destruct (load_config config_path fs) as [s|e]; [|discriminate].
  intros H. exists s. split; [reflexivity|]. cbv zeta.
  destruct (main_try _ _ _ _ s readme_path now fs) as [[added|e] fs1] eqn:Ht.
  - destruct (print_added added) as [[]|e] eqn:Hp; [|discriminate].
    injection H as <- <-. right. split; [reflexivity|].
    unfold main_try in Ht.
    destruct (search_repositories _ _ _ _) as [repos|e]; [|discriminate].
    destruct (build_table_rows _ _ _ _ _ _) as [rows|e] eqn:Hb; [|discriminate].
    exists repos, rows, added. rewrite Ht. auto.
  - pose proof (main_try_raise _ _ _ _ _ _ Ht) as ->.
    destruct e as [msg| | | | |]; try discriminate.
    destruct (print_stderr msg) as [[]|e] eqn:Hp; [|discriminate].
    injection H as <- <-. left. split; [reflexivity|]. split; [reflexivity|].
    exists msg. split; [assumption|].
    unfold main_try in Ht.
    destruct (search_repositories _ _ _ _) as [repos|e]; [|left; congruence].
    right.
    destruct (build_table_rows _ _ _ _ _ _) as [rows|e] eqn:Hb;
      [|left; exists repos; split; [reflexivity | congruence]].
    right. exists repos, rows.
    pose proof Ht as Ht'. apply update_readme_raise in Ht' as [_ [[Hf _] | [Hm | [Hi _]]]];
      try discriminate.
    injection Hm as ->. auto.
Qed.

(** X23.  The rows that [build_table_rows] returns are accepted by
    [update_readme], as [main] passes them on: every row has a link cell,
    so the [row[3]] of the dedup loop does not raise [IndexError],
    whatever the file, the bounds and the keywords. *)
Theorem update_readme_accepts_built_rows (repos : list repo) (cfg : config) (now : Z)
  (rows : list row) (path : pystr) (max_total max_desc_len : Z) (kws : list pystr)
  (prune : bool) (fs : file_system) :
  build_table_rows lower parse_iso_time http_user_location repos cfg now = Ok rows ->
  Forall (fun r => (4 <= length r)%nat) rows /\
  fst (update_readme lower path rows max_total max_desc_len kws prune fs)
    <> Raise IndexError.
Proof.
  intros Hb. apply build_table_rows_has_link in Hb. split.
  - apply List.Forall_forall. intros r Hr.
    rewrite forallb_forall in Hb. specialize (Hb r Hr).
    unfold has_link in Hb. apply Nat.ltb_lt in Hb. lia.
  - destruct (update_readme lower path rows max_total max_desc_len kws prune fs)
      as [[added|e] fs1] eqn:Hu; [discriminate|].
    apply update_readme_raise in Hu as [_ [[-> _] | [-> | [_ Hl]]]];
      simpl; congruence.
Qed.

End MainFacts.

(** The search fails, so the run ends with exit code 1 and the README as
    it was. *)
Lemma main_exit_code_witness :
  let fs : file_system := {[ README := readme_with [] ]} in
  exists s,
    sample_load_config [query_down] (str "config.yaml") fs = Ok s /\
    let cfg := set_config s in
    let search := search_repositories sample_http_search (set_queries s) (set_per_page s)
                    (set_max_pages s) in
    let build repos := build_table_rows ascii_lower sample_parse_iso_time
                         sample_http_user_location (List.map item_repo repos) cfg
                         sample_now in
    let update rows := update_readme ascii_lower README rows (set_max_total s)
                         (max_description_length cfg) (exclude_keywords cfg)
                         (set_prune_existing s) fs in
    (1 = 1 /\ fs = fs /\
     exists msg,
       sample_print msg = Ok tt /\
       (search = Raise (RuntimeError msg) \/
        (exists repos, search = Ok repos /\ build repos = Raise (RuntimeError msg)) \/
        (exists repos rows,
           search = Ok repos /\ build repos = Ok rows /\ msg = MSG_NO_MARKERS /\
           update rows = (Raise (RuntimeError MSG_NO_MARKERS), fs)))) \/
    (1 = 0 /\
     exists repos rows added,
       search = Ok repos /\ build repos = Ok rows /\
       fst (update rows) = Ok added /\ sample_print added = Ok tt).
Proof.
  intros fs.
  assert (H : main ascii_lower sample_parse_iso_time sample_http_user_location
                sample_http_search (sample_load_config [query_down]) sample_print
                sample_print (str "config.yaml") README sample_now fs = (Ok 1, fs)).
  { vm_compute. reflexivity. }
  exact (main_exit_code ascii_lower sample_parse_iso_time sample_http_user_location
           sample_http_search (sample_load_config [query_down]) sample_print
           sample_print (str "config.yaml") README sample_now fs fs 1 H).
Defined.

(** The rows built from the two sample repositories are merged into an
    empty block. *)
Lemma update_readme_accepts_built_rows_witness :
  fst (update_readme ascii_lower README [built_row_notes; built_row_ai_chat] 0 12 [] false
         {[ README := readme_with [] ]}) <> Raise IndexError.
Proof.
  exact (proj2 (update_readme_accepts_built_rows ascii_lower sample_parse_iso_time
                  sample_http_user_location [repo_popular; repo_homepage_50]
                  (sample_config true) sample_now [built_row_notes; built_row_ai_chat]
                  README 0 12 [] false {[ README := readme_with [] ]} sample_build)).
Defined.
